(** * qr-inventory: the scan ingestion pipeline

    A shallow embedding of the payload normalizers ([src/lib/qr.ts] and the
    private one of [/api/qr/scan]), of the three API routes
    ([/api/qr/scan], [/api/scan-events], [/api/codes/:codeId]) and of the
    two tables they work on, with the properties of the specification that
    hold of them and the inputs on which the others fail; then of the
    scanner page with its history hook and of the hook that records scans
    on the server, with what the code shows of them.  A request is served
    alone by a store that answers or not ([Db.run]), together with another
    request ([Db.race]), or by a store that comes and goes between its
    queries ([Db.runWith]).

    Strings are Rocq strings.  The embedding is exact for ASCII text; code
    units above 127 are kept as they are by [toUpperCase] and never count as
    white space, which is not what JavaScript does for all of them. *)

From Stdlib Require Import String Ascii List ZArith Lia Bool Arith.
From Stdlib Require Import Sorting.Sorted Sorting.Permutation.
Import ListNotations.

Open Scope string_scope.

(* ================================================================== *)
(** * JavaScript string primitives used by the sources *)
(* ================================================================== *)

Module JS.

Definition charCode (c : ascii) : nat := nat_of_ascii c.

Definition between (lo hi c : ascii) : bool :=
  (charCode lo <=? charCode c)%nat && (charCode c <=? charCode hi)%nat.

(** White space and line terminators of ECMAScript, below 128:
    TAB, LF, VT, FF, CR and SPACE. *)
Definition isWhiteSpace (c : ascii) : bool :=
  between "009" "013" c || (c =? " ")%char.

Definition isUpper (c : ascii) : bool := between "A" "Z" c.
Definition isLower (c : ascii) : bool := between "a" "z" c.
Definition isDigit (c : ascii) : bool := between "0" "9" c.
Definition isAlpha (c : ascii) : bool := isUpper c || isLower c.

Definition upperChar (c : ascii) : ascii :=
  if isLower c then ascii_of_nat (charCode c - 32) else c.

Definition lowerChar (c : ascii) : ascii :=
  if isUpper c then ascii_of_nat (charCode c + 32) else c.

Fixpoint mapChars (f : ascii -> ascii) (s : string) : string :=
  match s with
  | EmptyString => EmptyString
  | String c s' => String (f c) (mapChars f s')
  end.

(** [String.prototype.toUpperCase] and [toLowerCase]. *)
Definition toUpperCase (s : string) : string := mapChars upperChar s.
Definition toLowerCase (s : string) : string := mapChars lowerChar s.

Fixpoint dropWhile (p : ascii -> bool) (s : string) : string :=
  match s with
  | EmptyString => EmptyString
  | String c s' => if p c then dropWhile p s' else s
  end.

Fixpoint dropWhileEnd (p : ascii -> bool) (s : string) : string :=
  match s with
  | EmptyString => EmptyString
  | String c s' =>
      let t := dropWhileEnd p s' in
      if p c && (t =? "") then "" else String c t
  end.

(** [String.prototype.trim]. *)
Definition trim (s : string) : string :=
  dropWhileEnd isWhiteSpace (dropWhile isWhiteSpace s).

(** [String.prototype.startsWith]. *)
Fixpoint startsWith (s p : string) : bool :=
  match p with
  | EmptyString => true
  | String b p' =>
      match s with
      | EmptyString => false
      | String a s' => (a =? b)%char && startsWith s' p'
      end
  end.

Fixpoint allChars (p : ascii -> bool) (s : string) : bool :=
  match s with
  | EmptyString => true
  | String c s' => p c && allChars p s'
  end.

Fixpoint filterChars (p : ascii -> bool) (s : string) : string :=
  match s with
  | EmptyString => EmptyString
  | String c s' => if p c then String c (filterChars p s') else filterChars p s'
  end.

(** [s.split(sep)] for a separator that is one of several characters: the
    pieces between separators, [[""]] for the empty string. *)
Fixpoint splitOn (sep : ascii -> bool) (s : string) : list string :=
  match s with
  | EmptyString => [""]
  | String c s' =>
      if sep c then "" :: splitOn sep s'
      else match splitOn sep s' with
           | h :: t => String c h :: t
           | [] => [String c ""]
           end
  end.

(** [s.split('/')] and the like. *)
Definition split (sep : ascii) (s : string) : list string :=
  splitOn (fun c => (c =? sep)%char) s.

(** The text before the first character satisfying [p], and the text after
    that character when there is one. *)
Fixpoint breakAt (p : ascii -> bool) (s : string) : string * option string :=
  match s with
  | EmptyString => ("", None)
  | String c s' =>
      if p c then ("", Some s')
      else let '(b, a) := breakAt p s' in (String c b, a)
  end.

(** The text after the last character satisfying [p], when there is one. *)
Fixpoint afterLast (p : ascii -> bool) (s : string) : option string :=
  match s with
  | EmptyString => None
  | String c s' =>
      match afterLast p s' with
      | Some a => Some a
      | None => if p c then Some s' else None
      end
  end.

Definition isChar (x : ascii) : ascii -> bool := fun c => (c =? x)%char.

Definition hexValue (c : ascii) : option nat :=
  if isDigit c then Some (charCode c - 48)
  else if between "a" "f" c then Some (charCode c - 87)
  else if between "A" "F" c then Some (charCode c - 55)
  else None.

Definition hexDigit (n : nat) : ascii :=
  if (n <? 10)%nat then ascii_of_nat (48 + n) else ascii_of_nat (55 + n).

End JS.

(* ================================================================== *)
(** * The platform's [URL] class *)
(* ================================================================== *)

(** [new URL(input)] without a base, after the URL Standard's basic parser,
    as far as the routes look at the result: the scheme, the path and the
    query.  Left out of the model: IDNA processing and the checks of IPv4 and
    IPv6 literals in hosts, and the Windows drive letter rules of [file:]
    URLs. *)
Module URL.
Import JS.

Inductive Path : Type :=
| Opaque (p : string)
| Segments (l : list string).

Record t : Type := mk {
  scheme : string;
  path : Path;
  query : option string
}.

Definition isC0ControlOrSpace (c : ascii) : bool := (charCode c <=? 32)%nat.

Definition isTabOrNewline (c : ascii) : bool :=
  (c =? "009")%char || (c =? "010")%char || (c =? "013")%char.

Definition isSlash (c : ascii) : bool := (c =? "/")%char || (c =? "\")%char.

Definition oneOf (l : list ascii) (c : ascii) : bool :=
  existsb (fun x => (c =? x)%char) l.

(** The percent-encode sets of the standard. *)
Definition c0ControlSet (c : ascii) : bool :=
  (charCode c <? 32)%nat || (126 <? charCode c)%nat.

Definition querySet (c : ascii) : bool :=
  c0ControlSet c || oneOf [" "; "034"; "#"; "<"; ">"]%char c.   (* 034 is the double quote *)

Definition pathSet (c : ascii) : bool :=
  querySet c || oneOf ["?"; "^"; "`"; "{"; "}"]%char c.

Definition percentEncodeChar (inSet : ascii -> bool) (c : ascii) : string :=
  if inSet c
  then String "%" (String (hexDigit (charCode c / 16))
                     (String (hexDigit (charCode c mod 16)) ""))
  else String c "".

Fixpoint percentEncode (inSet : ascii -> bool) (s : string) : string :=
  match s with
  | EmptyString => EmptyString
  | String c s' => percentEncodeChar inSet c ++ percentEncode inSet s'
  end.

Fixpoint percentDecode (s : string) : string :=
  match s with
  | EmptyString => EmptyString
  | String c s' =>
      match (c =? "%")%char, s' with
      | true, String h (String l s'') =>
          match hexValue h, hexValue l with
          | Some a, Some b =>
              String (ascii_of_nat (16 * a + b)) (percentDecode s'')
          | _, _ => String c (percentDecode s')
          end
      | _, _ => String c (percentDecode s')
      end
  end.

Definition forbiddenHostCodePoint (c : ascii) : bool :=
  oneOf ["000"; "009"; "010"; "013"; " "; "#"; "/"; ":"; "<"; ">"; "?"; "@";
         "["; "\"; "]"; "^"; "|"]%char c.

Definition forbiddenDomainCodePoint (c : ascii) : bool :=
  forbiddenHostCodePoint c || (charCode c <? 32)%nat
  || (c =? "%")%char || (c =? "127")%char.

(** Scheme state: letters, digits, [+], [-] and [.] up to the colon; the
    scheme is lower-cased.  Without a base, a missing scheme is a failure. *)
Fixpoint schemeState (s : string) : option (string * string) :=
  match s with
  | EmptyString => None
  | String c s' =>
      if (c =? ":")%char then Some ("", s')
      else if isAlpha c || isDigit c || oneOf ["+"; "-"; "."]%char c then
        match schemeState s' with
        | Some (sch, rest) => Some (String (lowerChar c) sch, rest)
        | None => None
        end
      else None
  end.

Definition schemeStartState (s : string) : option (string * string) :=
  match s with
  | EmptyString => None
  | String c s' =>
      if isAlpha c then
        match schemeState s' with
        | Some (sch, rest) => Some (String (lowerChar c) sch, rest)
        | None => None
        end
      else None
  end.

Definition isSpecial (sch : string) : bool :=
  existsb (String.eqb sch) ["http"; "https"; "ws"; "wss"; "ftp"; "file"].

Definition isSingleDot (buf : string) : bool :=
  existsb (String.eqb (toLowerCase buf)) ["."; "%2e"].

Definition isDoubleDot (buf : string) : bool :=
  existsb (String.eqb (toLowerCase buf)) [".."; ".%2e"; "%2e."; "%2e%2e"].

(** Path state, one buffer per step: [segs] are the pieces between the
    separators that are left to read and [acc] is the path so far. *)
Fixpoint pathState (segs : list string) (acc : list string) : list string :=
  match segs with
  | [] => acc
  | buf :: more =>
      let isLast := match more with [] => true | _ => false end in
      let acc' :=
        if isDoubleDot buf then
          (if isLast then (removelast acc ++ [""])%list else removelast acc)
        else if isSingleDot buf then
          (if isLast then (acc ++ [""])%list else acc)
        else (acc ++ [percentEncode pathSet buf])%list in
      pathState more acc'
  end.

(** Path start state on what follows the authority: [None] at the end of the
    input, [Some p] for the text [p] after the first separator. *)
Definition pathStartState (special : bool) (rest : option string) : list string :=
  match rest with
  | None => if special then [""] else []
  | Some p =>
      pathState (splitOn (if special then isSlash else isChar "/") p) []
  end.

(** Host state: the host ends at the first colon outside square brackets. *)
Fixpoint hostState (inside : bool) (s : string) : string * option string :=
  match s with
  | EmptyString => ("", None)
  | String c s' =>
      if (c =? ":")%char && negb inside then ("", Some s')
      else
        let inside' :=
          if (c =? "[")%char then true
          else if (c =? "]")%char then false else inside in
        let '(h, p) := hostState inside' s' in (String c h, p)
  end.

Fixpoint decimalValue (acc : N) (s : string) : N :=
  match s with
  | EmptyString => acc
  | String c s' => decimalValue (10 * acc + N.of_nat (charCode c - 48))%N s'
  end.

Definition portOk (p : string) : bool :=
  allChars isDigit p && (decimalValue 0 p <=? 65535)%N.

Definition endsWith (s : string) (c : ascii) : bool :=
  match afterLast (isChar c) s with
  | Some "" => true
  | _ => false
  end.

(** Host parser: a bracketed literal must close; a domain (special scheme)
    is percent-decoded and must be free of forbidden domain code points; an
    opaque host must be free of forbidden host code points. *)
Definition hostOk (special : bool) (h : string) : bool :=
  if startsWith h "[" then endsWith h "]"
  else if special
       then allChars (fun c => negb (forbiddenDomainCodePoint c)) (percentDecode h)
       else allChars (fun c => negb (forbiddenHostCodePoint c)) h.

(** Authority state followed by host and port states: the credentials end at
    the last [@]. *)
Definition authorityOk (special : bool) (authority : string) : bool :=
  let atSign := afterLast (isChar "@") authority in
  let hostport := match atSign with Some hp => hp | None => authority end in
  let atSignSeen := match atSign with Some _ => true | None => false end in
  if atSignSeen && (hostport =? "") then false
  else
    let '(h, port) := hostState false hostport in
    match port with
    | Some p => negb (h =? "") && portOk p && hostOk special h
    | None => (negb special || negb (h =? "")) && hostOk special h
    end.

Definition authorityState (special : bool) (sch s : string) (q : option string)
  : option t :=
  let '(authority, rest) :=
    breakAt (if special then isSlash else isChar "/") s in
  if authorityOk special authority
  then Some (mk sch (Segments (pathStartState special rest)) q)
  else None.

(** File, file slash and file host states. *)
Definition fileState (body : string) (q : option string) : option t :=
  match body with
  | String c1 rest1 =>
      if isSlash c1 then
        match rest1 with
        | String c2 rest2 =>
            if isSlash c2 then
              let '(h, rest) := breakAt isSlash rest2 in
              if (h =? "") || hostOk true h
              then Some (mk "file" (Segments (pathStartState true rest)) q)
              else None
            else Some (mk "file" (Segments (pathState (splitOn isSlash rest1) [])) q)
        | EmptyString =>
            Some (mk "file" (Segments (pathState (splitOn isSlash rest1) [])) q)
        end
      else Some (mk "file" (Segments (pathState (splitOn isSlash body) [])) q)
  | EmptyString => Some (mk "file" (Segments (pathState (splitOn isSlash body) [])) q)
  end.

(** [new URL(input)]: [None] when the constructor throws. *)
Definition new (input : string) : option t :=
  let input :=
    filterChars (fun c => negb (isTabOrNewline c))
      (dropWhileEnd isC0ControlOrSpace (dropWhile isC0ControlOrSpace input)) in
  match schemeStartState input with
  | None => None
  | Some (sch, rest) =>
      let '(rest, _) := breakAt (isChar "#") rest in
      let '(body, q) := breakAt (isChar "?") rest in
      if sch =? "file" then fileState body q
      else if isSpecial sch then
        (* special authority slashes, then ignore slashes *)
        authorityState true sch (dropWhile isSlash body) q
      else
        match body with
        | String "/" (String "/" s) => authorityState false sch s q
        | String "/" p =>
            Some (mk sch (Segments (pathState (splitOn (isChar "/") p) [])) q)
        | _ => Some (mk sch (Opaque (percentEncode c0ControlSet body)) q)
        end
  end.

(** The [pathname] getter. *)
Definition pathname (u : t) : string :=
  match path u with
  | Opaque p => p
  | Segments l => String.concat "" (map (fun seg => "/" ++ seg) l)
  end.

Definition plusToSpace (c : ascii) : ascii :=
  if (c =? "+")%char then " "%char else c.

(** The [application/x-www-form-urlencoded] parser behind [searchParams]. *)
Definition parseUrlencoded (q : string) : list (string * string) :=
  map (fun piece =>
         let '(name, value) := breakAt (isChar "=") piece in
         (percentDecode (mapChars plusToSpace name),
          percentDecode (mapChars plusToSpace
                           (match value with Some v => v | None => "" end))))
      (filter (fun piece => negb (piece =? "")) (split "&" q)).

Definition searchParams (u : t) : list (string * string) :=
  match query u with
  | Some q => parseUrlencoded q
  | None => []
  end.

(** [url.searchParams.get(name)]: the first value under [name], or [null]. *)
Definition searchParams_get (u : t) (name : string) : option string :=
  match find (fun nv => fst nv =? name) (searchParams u) with
  | Some nv => Some (snd nv)
  | None => None
  end.

End URL.

(* ================================================================== *)
(** * [src/lib/qr.ts] *)
(* ================================================================== *)

Module Qr.
Import JS.

Definition CODE_ID_MIN_LENGTH : nat := 6.
Definition CODE_ID_MAX_LENGTH : nat := 32.

(** [/^[A-Z0-9]+$/.test(s)] *)
Definition CODE_ID_REGEX (s : string) : bool :=
  negb (s =? "") && allChars (fun c => isUpper c || isDigit c) s.

(** The errors [extractCodeId] throws, by message:
    - [EmptyPayload]: 'Invalid QR payload: empty or not a string'
    - [EmptyAfterTrimming]: 'Invalid QR payload: empty after trimming'
    - [NoPathSegments]: 'Invalid QR URL: no path segments or query parameter found'
    - [UnparsableUrl]: 'Invalid QR URL: unable to parse URL - ...'
    - [TooShort]: 'Invalid code ID: too short (minimum 6 characters)'
    - [TooLong]: 'Invalid code ID: too long (maximum 32 characters)'
    - [InvalidCharacters]: 'Invalid code ID: must contain only uppercase
      letters (A-Z) and numbers (0-9)' *)
Inductive QrError : Type :=
| EmptyPayload
| EmptyAfterTrimming
| NoPathSegments
| UnparsableUrl
| TooShort
| TooLong
| InvalidCharacters.

(** A call either returns or throws. *)
Inductive outcome (A : Type) : Type :=
| Returns (a : A)
| Throws (e : QrError).
Arguments Returns {A} a.
Arguments Throws {A} e.

(** Lines 79-98 of [extractCodeId]: the checks on the extracted candidate,
    the lengths first and the characters last. *)
Definition validateCodeId (codeId : string) : outcome string :=
  if (String.length codeId <? CODE_ID_MIN_LENGTH)%nat then Throws TooShort
  else if (CODE_ID_MAX_LENGTH <? String.length codeId)%nat then Throws TooLong
  else if negb (CODE_ID_REGEX codeId) then Throws InvalidCharacters
  else Returns codeId.

(** Lines 44-77: the candidate taken from the trimmed payload. *)
Definition candidateOf (trimmed : string) : outcome string :=
  if startsWith trimmed "http://" || startsWith trimmed "https://" then
    match URL.new trimmed with
    | None => Throws UnparsableUrl
    | Some url =>
        match URL.searchParams_get url "code" with
        | Some (String c q) => Returns (toUpperCase (trim (String c q)))
        | _ =>
            let pathSegments :=
              filter (fun segment => (0 <? String.length segment)%nat)
                     (split "/" (URL.pathname url)) in
            if (List.length pathSegments =? 0)%nat then Throws NoPathSegments
            else Returns (toUpperCase (trim (last pathSegments "")))
        end
    end
  else Returns (toUpperCase trimmed).

Definition extractCodeId (raw : string) : outcome string :=
  if raw =? "" then Throws EmptyPayload
  else
    let trimmed := trim raw in
    if trimmed =? "" then Throws EmptyAfterTrimming
    else
      match candidateOf trimmed with
      | Throws e => Throws e
      | Returns codeId => validateCodeId codeId
      end.

Definition isValidCodeId (codeId : string) : bool :=
  match extractCodeId codeId with
  | Returns _ => true
  | Throws _ => false
  end.

Definition defaultBaseUrl : string := "https://app.example.com".

Definition generateQRUrl (codeId : string) (baseUrl : string) : outcome string :=
  match extractCodeId codeId with
  | Throws e => Throws e
  | Returns validatedId => Returns (baseUrl ++ "/s/" ++ validatedId)
  end.

End Qr.

(* ================================================================== *)
(** * The normalizer of [/api/qr/scan] *)
(* ================================================================== *)

Module QrScan.
Import JS.

(** [/^[A-Z0-9]{6,12}$/.test(str.toUpperCase())] *)
Definition isValidCodeId (str : string) : bool :=
  let normalized := toUpperCase str in
  allChars (fun c => isUpper c || isDigit c) normalized
  && (6 <=? String.length normalized)%nat
  && (String.length normalized <=? 12)%nat.

(** What the [try] block returns, when it returns. *)
Definition fromUrl (url : URL.t) : option string :=
  let fromPath :=
    let pathSegments :=
      filter (fun segment => negb (segment =? ""))
             (split "/" (URL.pathname url)) in
    if (0 <? List.length pathSegments)%nat then
      let lastSegment := last pathSegments "" in
      if isValidCodeId lastSegment then Some (toUpperCase lastSegment) else None
    else None in
  match URL.searchParams_get url "code" with
  | Some codeParam =>
      if negb (codeParam =? "") && isValidCodeId codeParam
      then Some (toUpperCase codeParam)
      else fromPath
  | None => fromPath
  end.

(** [null] is [None]. *)
Definition extractCodeId (raw : string) : option string :=
  let trimmed := trim raw in
  let plain :=
    if isValidCodeId trimmed then Some (toUpperCase trimmed) else None in
  match URL.new trimmed with
  | Some url =>
      match fromUrl url with
      | Some codeId => Some codeId
      | None => plain
      end
  | None => plain
  end.

End QrScan.

(* ================================================================== *)
(** * The store: tables [codes] and [scan_events] *)
(* ================================================================== *)

Definition Timestamp : Type := Z.

(** [CodeRecord] of [src/lib/supabaseClient.ts], a row of [codes]. *)
Module CodeRecord.
Record t : Type := mk {
  id : string;
  system_acronym : string;
  size : string;
  year : Z;
  owner_user_id : string;
  created_at : Timestamp
}.
End CodeRecord.

(** [ScanEventRecord], a row of [scan_events]; the UUID is a number here. *)
Module ScanEventRecord.
Record t : Type := mk {
  id : N;
  code_id : string;
  scanned_by_user_id : string;
  scanned_at : Timestamp;
  raw_payload : string
}.
End ScanEventRecord.

(** The columns of a [codes] row that a [select] lists; [created_at] is
    [None] (undefined) where the select does not list it. *)
Module CodeColumns.
Record t : Type := mk {
  id : string;
  system_acronym : string;
  size : string;
  year : Z;
  created_at : option Timestamp
}.
End CodeColumns.

(** A row of the scan-list query: the listed columns of the event and the
    embedded [codes] row ([null] when there is none). *)
Module ScanEventRow.
Record t : Type := mk {
  id : N;
  code_id : string;
  scanned_at : Timestamp;
  raw_payload : string;
  codes : option CodeColumns.t
}.
End ScanEventRow.

Module Db.

Record Store : Type := mkStore {
  codes : list CodeRecord.t;
  scan_events : list ScanEventRecord.t;
  now : Timestamp;          (* what [now()] answers *)
  next_uuid : N;            (* what [gen_random_uuid()] answers *)
  online : bool             (* the store answers; [run] and [race] leave it
                               as it is, [runWith] sets it query by query *)
}.

(** Error codes of the client: [PGRST116] is the answer of [.single()] when
    the rows are not exactly one, [23505] a unique violation, [23503] a
    foreign key violation; [Unavailable] stands for every other failure. *)
Inductive PgError : Type :=
| PGRST116
| UniqueViolation
| ForeignKeyViolation
| Unavailable.

(** [{ data, error }] *)
Inductive Result (A : Type) : Type :=
| Data (a : A)
| Error (e : PgError).
Arguments Data {A} a.
Arguments Error {A} e.

(** The queries the routes await. *)
Inductive Query : Type -> Type :=
| SelectCode (id : string) (owner : option string)
    : Query (Result CodeRecord.t)
    (* from('codes').select('*').eq('id', id)[.eq('owner_user_id', owner)].single() *)
| InsertCode (id system_acronym size : string) (year : Z) (owner : string)
    : Query (Result CodeRecord.t)
    (* from('codes').insert({...}).select().single() *)
| InsertScanEvent (code_id user raw_payload : string)
    : Query (Result ScanEventRecord.t)
    (* from('scan_events').insert({...}).select(...).single() *)
| SelectScanEvents (user : string) (limit : nat)
    : Query (Result (list ScanEventRow.t))
    (* from('scan_events').select('id, code_id, scanned_at, raw_payload,
       codes (id, system_acronym, size, year)').eq('scanned_by_user_id', user)
       .order('scanned_at', { ascending: false }).limit(limit) *)
| SelectCodePublic (id : string)
    : Query (Result CodeColumns.t).
    (* from('codes').select('id, system_acronym, size, year, created_at')
       .eq('id', id).single() *)

Definition single {A : Type} (rows : list A) : Result A :=
  match rows with
  | [r] => Data r
  | _ => Error PGRST116
  end.

Definition hasId (id : string) (r : CodeRecord.t) : bool :=
  CodeRecord.id r =? id.

Definition ownedBy (owner : option string) (r : CodeRecord.t) : bool :=
  match owner with
  | Some o => CodeRecord.owner_user_id r =? o
  | None => true
  end.

Definition columns (withCreated : bool) (r : CodeRecord.t) : CodeColumns.t :=
  CodeColumns.mk (CodeRecord.id r) (CodeRecord.system_acronym r)
    (CodeRecord.size r) (CodeRecord.year r)
    (if withCreated then Some (CodeRecord.created_at r) else None).

(** [ORDER BY scanned_at DESC], by insertion; rows of equal time keep their
    table order. *)
Fixpoint insertDesc (e : ScanEventRecord.t) (l : list ScanEventRecord.t)
  : list ScanEventRecord.t :=
  match l with
  | [] => [e]
  | x :: l' =>
      if (ScanEventRecord.scanned_at x <? ScanEventRecord.scanned_at e)%Z
      then e :: l
      else x :: insertDesc e l'
  end.

Definition orderDesc (l : list ScanEventRecord.t) : list ScanEventRecord.t :=
  fold_right insertDesc [] l.

(** The embedded resource [codes (...)] of an event, through the foreign key. *)
Definition embed (st : Store) (e : ScanEventRecord.t) : ScanEventRow.t :=
  ScanEventRow.mk (ScanEventRecord.id e) (ScanEventRecord.code_id e)
    (ScanEventRecord.scanned_at e) (ScanEventRecord.raw_payload e)
    (option_map (columns false)
       (find (hasId (ScanEventRecord.code_id e)) (codes st))).

Definition scannedBy (user : string) (e : ScanEventRecord.t) : bool :=
  ScanEventRecord.scanned_by_user_id e =? user.

(** One query against the store. *)
Definition exec {R : Type} (q : Query R) (st : Store) : R * Store :=
  match q in Query R return R * Store with
  | SelectCode id owner =>
      if online st
      then (single (filter (fun r => hasId id r && ownedBy owner r) (codes st)), st)
      else (Error Unavailable, st)
  | InsertCode id system_acronym size year owner =>
      if online st then
        if existsb (hasId id) (codes st) then (Error UniqueViolation, st)
        else
          let row := CodeRecord.mk id system_acronym size year owner (now st) in
          (Data row,
           mkStore (codes st ++ [row]) (scan_events st) (now st)
                   (next_uuid st) (online st))
      else (Error Unavailable, st)
  | InsertScanEvent code_id user raw_payload =>
      if online st then
        if existsb (hasId code_id) (codes st) then
          let row :=
            ScanEventRecord.mk (next_uuid st) code_id user (now st) raw_payload in
          (Data row,
           mkStore (codes st) (scan_events st ++ [row]) (now st)
                   (N.succ (next_uuid st)) (online st))
        else (Error ForeignKeyViolation, st)
      else (Error Unavailable, st)
  | SelectScanEvents user limit =>
      if online st
      then (Data (map (embed st)
                    (firstn limit
                       (orderDesc (filter (scannedBy user) (scan_events st))))),
            st)
      else (Error Unavailable, st)
  | SelectCodePublic id =>
      if online st
      then (match single (filter (hasId id) (codes st)) with
            | Data r => Data (columns true r)
            | Error e => Error e
            end, st)
      else (Error Unavailable, st)
  end.

(** A route handler: the queries it awaits, one after the other, each
    continuation taking the answer. *)
Inductive Handler (A : Type) : Type :=
| Done (a : A)
| Await {R : Type} (q : Query R) (k : R -> Handler A).
Arguments Done {A} a.
Arguments Await {A R} q k.

(** A request served alone. *)
Fixpoint run {A : Type} (h : Handler A) (st : Store) : A * Store :=
  match h with
  | Done a => (a, st)
  | Await q k => let '(r, st') := exec q st in run (k r) st'
  end.

(** [st] with its availability set. *)
Definition setOnline (b : bool) (st : Store) : Store :=
  mkStore (codes st) (scan_events st) (now st) (next_uuid st) b.

(** The store as the next query finds it: [availability] says, query by
    query, whether the store answers; once it is used up the store stays as
    it is. *)
Definition nextStore (availability : list bool) (st : Store) : Store :=
  match availability with
  | b :: _ => setOnline b st
  | [] => st
  end.

(** A request served alone while the availability of the store changes. *)
Fixpoint runWith {A : Type} (availability : list bool) (h : Handler A)
    (st : Store) {struct h} : A * Store :=
  match h with
  | Done a => (a, st)
  | Await q k =>
      let '(r, st') := exec q (nextStore availability st) in
      runWith (tl availability) (k r) st'
  end.

(** The next query of a request answered, and what is left of the request. *)
Definition step {A : Type} (h : Handler A) (st : Store) : Handler A * Store :=
  match h with
  | Done a => (Done a, st)
  | Await q k => let '(r, st') := exec q st in (k r, st')
  end.

(** Two requests served together: the schedule says whose query the store
    answers next ([true] for the first request); when it is used up the first
    request finishes, then the second. *)
Fixpoint race {A B : Type} (schedule : list bool)
    (h1 : Handler A) (h2 : Handler B) (st : Store) : A * B * Store :=
  match schedule with
  | [] =>
      let '(a, st1) := run h1 st in
      let '(b, st2) := run h2 st1 in (a, b, st2)
  | true :: schedule' =>
      match h1 with
      | Done _ => race schedule' h1 h2 st
      | Await q k => let '(r, st') := exec q st in race schedule' (k r) h2 st'
      end
  | false :: schedule' =>
      match h2 with
      | Done _ => race schedule' h1 h2 st
      | Await q k => let '(r, st') := exec q st in race schedule' h1 (k r) st'
      end
  end.

End Db.

Notation "'await' x '<-' q ';' k" := (Db.Await q (fun x => k))
  (at level 10, x name, q at level 99, k at level 200,
   format "'await'  x  '<-'  q ';' '//' k").

(* ================================================================== *)
(** * Requests and responses *)
(* ================================================================== *)

(** The values the routes hand to [NextResponse.json]; a timestamp and a
    UUID are strings in the response and kept here as what they denote. *)
#[warnings="-register-all"]
Inductive Json : Type :=
| JBool (b : bool)
| JNum (n : Z)
| JStr (s : string)
| JTime (t : Timestamp)
| JUuid (u : N)
| JArr (l : list Json)
| JObj (fields : list (string * Json)).

Record Response : Type := mkResponse {
  status : nat;
  body : Json
}.

(** [NextResponse.json(body)] and [NextResponse.json(body, { status })]. *)
Definition json (b : Json) : Response := mkResponse 200 b.
Definition jsonStatus (b : Json) (st : nat) : Response := mkResponse st b.

(** The properties the two scan-record routes read off the request body.
    [rawPayload] is [None] when the property is missing or not a string:
    both routes test [typeof].  [size] and [systemAcronym] are [None] when
    the property is missing or [null]; the route declares them strings and
    tests no type, and a value of another type is not modelled.  A body that
    is a number, a string, a boolean or an array has none of the three. *)
Record ScanRequest : Type := mkScanRequest {
  rawPayload : option string;
  size : option string;
  systemAcronym : option string
}.

(** What [await request.json()] does: it throws, or gives [null], off which
    no property can be read, or gives a value whose properties the routes
    read. *)
Inductive RequestBody : Type :=
| BodyThrows
| BodyNull
| BodyValue (body : ScanRequest).

(** A string used as a condition: [null], [undefined] and [''] are false. *)
Definition truthy (v : option string) : option string :=
  match v with
  | Some (String c s) => Some (String c s)
  | _ => None
  end.

(** [v || d] on strings. *)
Definition orElse (v : option string) (d : string) : string :=
  match truthy v with
  | Some s => s
  | None => d
  end.

Definition keys (j : Json) : list string :=
  match j with
  | JObj fields => map fst fields
  | _ => []
  end.

(** The [code] object both scan-record routes answer with. *)
Definition codeJson (codeRecord : CodeRecord.t) : Json :=
  JObj [("id", JStr (CodeRecord.id codeRecord));
        ("system_acronym", JStr (CodeRecord.system_acronym codeRecord));
        ("size", JStr (CodeRecord.size codeRecord));
        ("year", JNum (CodeRecord.year codeRecord))].

(* ================================================================== *)
(** * [POST /api/qr/scan] *)
(* ================================================================== *)

Module QrScanRoute.
Import Db.

Definition failure (error : string) (st : nat) : Response :=
  jsonStatus (JObj [("success", JBool false); ("error", JStr error)]) st.

(** Steps 8 and 9: the scan event and the answer. *)
Definition recordScan (codeId userId raw : string) (codeRecord : CodeRecord.t)
  : Handler Response :=
  await scan <- InsertScanEvent codeId userId raw;
  match scan with
  | Error _ => Done (failure "Database error while recording scan event" 500)
  | Data scanEvent =>
      Done (json (JObj [("success", JBool true);
                        ("code", codeJson codeRecord);
                        ("scanEvent",
                         JObj [("id", JUuid (ScanEventRecord.id scanEvent));
                               ("scanned_at",
                                JTime (ScanEventRecord.scanned_at scanEvent))])]))
  end.

(** [userId] is what [auth()] gives, [body] what [request.json()] gives
    when that is not [null] ([None] when it throws) and [year] is
    [new Date().getFullYear()]. *)
Definition POST (userId : option string) (body : option ScanRequest) (year : Z)
  : Handler Response :=
  match truthy userId with
  | None => Done (failure "Unauthorized - please sign in" 401)
  | Some userId =>
  match body with
  | None => Done (failure "Invalid JSON body" 400)
  | Some body =>
  match truthy (rawPayload body) with
  | None => Done (failure "Missing required field: rawPayload (string)" 400)
  | Some raw =>
  match truthy (QrScan.extractCodeId raw) with
  | None =>
      Done (failure "Could not extract valid code ID from payload. Expected formats: plain code (A6F3HW7L), URL path (/s/CODE), or URL query param (?code=CODE)" 400)
  | Some codeId =>
      let systemAcronym := orElse (systemAcronym body) "TMGS" in
      let size := orElse (size body) "unspecified" in
      await existing <- SelectCode codeId (Some userId);
      match existing with
      | Error Unavailable | Error UniqueViolation | Error ForeignKeyViolation =>
          Done (failure "Database error while checking for existing code" 500)
      | Data existingCode => recordScan codeId userId raw existingCode
      | Error PGRST116 =>
          await inserted <- InsertCode codeId systemAcronym size year userId;
          match inserted with
          | Error _ =>
              Done (failure "Database error while creating code record" 500)
          | Data newCode => recordScan codeId userId raw newCode
          end
      end
  end end end end.

(** [POST] on whatever [request.json()] does.  [body.rawPayload] is read
    outside the inner [try]: off [null] it throws a [TypeError], which the
    outer [catch] answers. *)
Definition onRequest (userId : option string) (parsed : RequestBody) (year : Z)
  : Handler Response :=
  match parsed with
  | BodyThrows => POST userId None year
  | BodyValue body => POST userId (Some body) year
  | BodyNull =>
      match truthy userId with
      | None => Done (failure "Unauthorized - please sign in" 401)
      | Some _ => Done (failure "Internal server error" 500)
      end
  end.

End QrScanRoute.

(* ================================================================== *)
(** * [POST] and [GET /api/scan-events] *)
(* ================================================================== *)

Module ScanEventsRoute.
Import Db.

Definition failure (error : string) (st : nat) : Response :=
  jsonStatus (JObj [("error", JStr error)]) st.

(** The message of the error [extractCodeId] throws; for an unparsable URL
    the message of the platform's own error follows and is left out. *)
Definition message (e : Qr.QrError) : string :=
  match e with
  | Qr.EmptyPayload => "Invalid QR payload: empty or not a string"
  | Qr.EmptyAfterTrimming => "Invalid QR payload: empty after trimming"
  | Qr.NoPathSegments =>
      "Invalid QR URL: no path segments or query parameter found"
  | Qr.UnparsableUrl => "Invalid QR URL: unable to parse URL"
  | Qr.TooShort => "Invalid code ID: too short (minimum 6 characters)"
  | Qr.TooLong => "Invalid code ID: too long (maximum 32 characters)"
  | Qr.InvalidCharacters =>
      "Invalid code ID: must contain only uppercase letters (A-Z) and numbers (0-9)"
  end.

Definition recordScan (codeId userId raw : string) (codeRecord : CodeRecord.t)
  : Handler Response :=
  await scan <- InsertScanEvent codeId userId raw;
  match scan with
  | Error _ => Done (failure "Database error while recording scan" 500)
  | Data scanEvent =>
      Done (json (JObj [("code", codeJson codeRecord);
                        ("scanEvent",
                         JObj [("id", JUuid (ScanEventRecord.id scanEvent));
                               ("code_id",
                                JStr (ScanEventRecord.code_id scanEvent));
                               ("scanned_at",
                                JTime (ScanEventRecord.scanned_at scanEvent))])]))
  end.

(** A body that is not JSON makes [request.json()] throw into the outer
    [catch]; [body] is [None] then, and otherwise what [request.json()]
    gives when that is not [null]. *)
Definition POST (userId : option string) (body : option ScanRequest)
    (currentYear : Z) : Handler Response :=
  match truthy userId with
  | None => Done (failure "Unauthorized" 401)
  | Some userId =>
  match body with
  | None => Done (failure "Internal server error" 500)
  | Some body =>
  match truthy (rawPayload body) with
  | None => Done (failure "Missing or invalid rawPayload" 400)
  | Some raw =>
  match Qr.extractCodeId raw with
  | Qr.Throws e => Done (failure (message e) 400)
  | Qr.Returns codeId =>
      await existing <- SelectCode codeId None;
      match existing with
      | Error Unavailable | Error UniqueViolation | Error ForeignKeyViolation =>
          Done (failure "Database error while fetching code" 500)
      | Data existingCode => recordScan codeId userId raw existingCode
      | Error PGRST116 =>
          await inserted <-
            InsertCode codeId "TMGS" "unspecified" currentYear userId;
          match inserted with
          | Error _ => Done (failure "Database error while creating code" 500)
          | Data newCode => recordScan codeId userId raw newCode
          end
      end
  end end end end.

(** [POST] on whatever [request.json()] does.  [const { rawPayload } = body]
    throws a [TypeError] on [null], and the outer [catch] answers it as it
    answers a body that is not JSON. *)
Definition onRequest (userId : option string) (parsed : RequestBody)
    (currentYear : Z) : Handler Response :=
  match parsed with
  | BodyThrows | BodyNull => POST userId None currentYear
  | BodyValue body => POST userId (Some body) currentYear
  end.

(** One entry of the list [GET] answers with. *)
Definition transform (userId : string) (event : ScanEventRow.t) : Json :=
  JObj ([("id", JUuid (ScanEventRow.id event));
         ("code_id", JStr (ScanEventRow.code_id event));
         ("scanned_at", JTime (ScanEventRow.scanned_at event));
         ("raw_payload", JStr (ScanEventRow.raw_payload event));
         ("scanned_by_user_id", JStr userId)]
        ++ match ScanEventRow.codes event with
           | Some codes =>
               [("code",
                 JObj [("id", JStr (CodeColumns.id codes));
                       ("system_acronym", JStr (CodeColumns.system_acronym codes));
                       ("size", JStr (CodeColumns.size codes));
                       ("year", JNum (CodeColumns.year codes));
                       ("owner_user_id", JStr userId);
                       ("created_at",
                        JTime (match CodeColumns.created_at codes with
                               | Some t => t
                               | None => ScanEventRow.scanned_at event
                               end))])]
           | None => []   (* [code: undefined] is left out of the JSON *)
           end)%list.

Definition GET (userId : option string) : Handler Response :=
  match truthy userId with
  | None => Done (failure "Unauthorized" 401)
  | Some userId =>
      await result <- SelectScanEvents userId 50;
      match result with
      | Error _ => Done (failure "Database error while fetching scan events" 500)
      | Data scanEvents => Done (json (JArr (map (transform userId) scanEvents)))
      end
  end.

End ScanEventsRoute.

(* ================================================================== *)
(** * [GET /api/codes/:codeId] *)
(* ================================================================== *)

Module CodesRoute.
Import Db.

Definition failure (error : string) (st : nat) : Response :=
  jsonStatus (JObj [("error", JStr error)]) st.

(** The route takes no caller identity: it never calls [auth()]. *)
Definition GET (codeId : string) : Handler Response :=
  match truthy (Some codeId) with
  | None => Done (failure "Invalid code ID" 400)
  | Some codeId =>
      await result <- SelectCodePublic (JS.toUpperCase codeId);
      match result with
      | Error _ => Done (failure "Code not found" 404)
      | Data code =>
          Done (json (JObj ([("id", JStr (CodeColumns.id code));
                             ("system", JStr (CodeColumns.system_acronym code));
                             ("size", JStr (CodeColumns.size code));
                             ("year", JNum (CodeColumns.year code))]
                            ++ match CodeColumns.created_at code with
                               | Some t => [("created", JTime t)]
                               | None => []
                               end)%list))
      end
  end.

End CodesRoute.

(* ================================================================== *)
(** * Notions the properties are stated with *)
(* ================================================================== *)

Module Spec.
Import JS.

(** A character of an identifier: A-Z or 0-9. *)
Definition isCodeChar (c : ascii) : bool := isUpper c || isDigit c.

(** A canonical identifier: 6 to 32 characters, each of A-Z or 0-9. *)
Definition canonical (id : string) : Prop :=
  allChars isCodeChar id = true
  /\ (6 <= String.length id)%nat /\ (String.length id <= 32)%nat.

(** The two normalizers treat a payload alike: the same identifier, or a
    rejection by both. *)
Definition agree (raw : string) : Prop :=
  match Qr.extractCodeId raw, QrScan.extractCodeId raw with
  | Qr.Returns a, Some b => a = b
  | Qr.Throws _, None => True
  | _, _ => False
  end.

(** [codes.id] is the primary key of [codes]. *)
Definition primaryKey (st : Db.Store) : Prop :=
  NoDup (map CodeRecord.id (Db.codes st)).

(** Every id in [codes] is a canonical identifier. *)
Definition canonicalIds (st : Db.Store) : Prop :=
  Forall (fun r => canonical (CodeRecord.id r)) (Db.codes st).

(** [j.name] of a JSON object. *)
Definition field (name : string) (j : Json) : option Json :=
  match j with
  | JObj fields =>
      option_map snd (find (fun kv => fst kv =? name) fields)
  | _ => None
  end.

(** The two scan-record entry points, and what each does to resolve an
    identifier: its normalizer, its lookup, its insert and its answer when
    the insert fails. *)
Inductive Route : Type :=
| ApiQrScan
| ApiScanEvents.

Definition POST (r : Route)
  : option string -> option ScanRequest -> Z -> Db.Handler Response :=
  match r with
  | ApiQrScan => QrScanRoute.POST
  | ApiScanEvents => ScanEventsRoute.POST
  end.

Definition onRequest (r : Route)
  : option string -> RequestBody -> Z -> Db.Handler Response :=
  match r with
  | ApiQrScan => QrScanRoute.onRequest
  | ApiScanEvents => ScanEventsRoute.onRequest
  end.

Definition normalize (r : Route) (raw : string) : option string :=
  match r with
  | ApiQrScan => truthy (QrScan.extractCodeId raw)
  | ApiScanEvents =>
      match Qr.extractCodeId raw with
      | Qr.Returns codeId => Some codeId
      | Qr.Throws _ => None
      end
  end.

Definition lookup (r : Route) (codeId userId : string)
  : Db.Query (Db.Result CodeRecord.t) :=
  match r with
  | ApiQrScan => Db.SelectCode codeId (Some userId)
  | ApiScanEvents => Db.SelectCode codeId None
  end.

Definition insert (r : Route) (codeId : string) (body : ScanRequest)
    (year : Z) (userId : string) : Db.Query (Db.Result CodeRecord.t) :=
  match r with
  | ApiQrScan =>
      Db.InsertCode codeId (orElse (systemAcronym body) "TMGS")
        (orElse (size body) "unspecified") year userId
  | ApiScanEvents => Db.InsertCode codeId "TMGS" "unspecified" year userId
  end.

Definition createFailure (r : Route) : Response :=
  match r with
  | ApiQrScan =>
      QrScanRoute.failure "Database error while creating code record" 500
  | ApiScanEvents =>
      ScanEventsRoute.failure "Database error while creating code" 500
  end.

(** Newest first. *)
Definition newestFirst (l : list ScanEventRecord.t) : Prop :=
  StronglySorted
    (fun a b => (ScanEventRecord.scanned_at b <= ScanEventRecord.scanned_at a)%Z)
    l.

End Spec.

(** Rows, stores and a request used as examples. *)
Module Examples.

Definition alice_row : CodeRecord.t :=
  CodeRecord.mk "A6F3HW7L" "TMGS" "unspecified" 2025%Z "alice" 200%Z.

Definition alice_scan : ScanEventRecord.t :=
  ScanEventRecord.mk 7%N "A6F3HW7L" "alice" 200%Z "a6f3hw7l".

Definition empty_store : Db.Store := Db.mkStore [] [] 200%Z 7%N true.

(** The store after alice has scanned [a6f3hw7l] into [empty_store]. *)
Definition alice_store : Db.Store :=
  Db.mkStore [alice_row] [alice_scan] 200%Z 8%N true.

Definition request : ScanRequest :=
  mkScanRequest (Some "a6f3hw7l") None None.

(** A store with two Code rows, one of alice and one of bob, three scans of
    alice, entered out of the order of their times, and one scan of bob. *)
Definition busy_store : Db.Store :=
  Db.mkStore
    [alice_row;
     CodeRecord.mk "B7G4JX9M" "TMGS" "large" 2025%Z "bob" 250%Z]
    [alice_scan;
     ScanEventRecord.mk 8%N "B7G4JX9M" "bob" 250%Z "https://host/s/b7g4jx9m";
     ScanEventRecord.mk 9%N "B7G4JX9M" "alice" 400%Z "B7G4JX9M";
     ScanEventRecord.mk 10%N "A6F3HW7L" "alice" 300%Z " A6F3HW7L "]
    400%Z 11%N true.

(** Alice and bob scan [a6f3hw7l] together on route [r]: both lookups are
    answered before either insert.  Bob's lookup finds nothing, alice's
    insert goes first, bob's insert violates the primary key, alice is
    answered with a 200 and bob with the 500 of the route. *)
Definition raceLost (r : Spec.Route) : Prop :=
  fst (Db.exec (Spec.lookup r "A6F3HW7L" "bob") empty_store)
  = Db.Error Db.PGRST116
  /\ fst (Db.exec (Spec.insert r "A6F3HW7L" request 2025%Z "bob") alice_store)
     = Db.Error Db.UniqueViolation
  /\ exists answer,
      Db.race [true; false]
        (Spec.POST r (Some "alice") (Some request) 2025%Z)
        (Spec.POST r (Some "bob") (Some request) 2025%Z) empty_store
      = (answer, Spec.createFailure r, alice_store)
      /\ status answer = 200
      /\ status (Spec.createFailure r) = 500.

End Examples.

(* ================================================================== *)
(** * [src/hooks/use-scan-history.ts] and the scanner page *)
(* ================================================================== *)

(** [JSON.parse] belongs to the platform: the hook and the page keep what it
    returns, of type [unknown], for display only.  It is a parameter here,
    [None] when it throws. *)
Module ScannerPage.

Section WithJsonParse.

Variable unknown : Type.
Variable JSON_parse : string -> option unknown.

(** [ScanEvent] of [src/types/scan.ts]. *)
Record ScanEvent : Type := mkScanEvent {
  id : string;
  rawValue : string;
  scannedAt : Timestamp;
  parsedJson : option unknown
}.

(** What a call takes from its surroundings: [uuidv4()] and [new Date()] in
    the hook, [Date.now().toString()] and [new Date()] in the page. *)
Record Clock : Type := mkClock {
  uuid : string;
  instant : Timestamp;
  millis : string;
  displayed : Timestamp
}.

(** [addScan] of [useScanHistory]: the new scan goes first. *)
Definition addScan (clock : Clock) (rawValue : string)
    (scans : list ScanEvent) : list ScanEvent :=
  mkScanEvent (uuid clock) rawValue (instant clock) (JSON_parse rawValue)
  :: scans.

(** [clearHistory] of [useScanHistory]. *)
Definition clearHistory (scans : list ScanEvent) : list ScanEvent := [].

(** The state of [QRScannerPage]: the history of the hook, the three
    [useState] cells and the two refs; [timerPending] says that the timeout
    kept in [scanTimeoutRef] has not fired yet. *)
Record Page : Type := mkPage {
  scans : list ScanEvent;
  lastScanned : option ScanEvent;
  cameraError : option string;
  isScanning : bool;
  lastScanRef : option string;
  timerPending : bool
}.

Definition initialPage : Page := mkPage [] None None true None false.

(** [handleScan(result, error)]: [result] is the decoded text of the frame,
    when there is one, and [error] says that the reader reported an error.
    The text of a result is not empty here: for a result whose [text] is
    [''] the source takes the result object itself for the text
    ([result?.text || result]), which this model, where a payload is a
    string, does not follow; the properties of the page are stated for
    frames whose text is not empty. *)
Definition handleScan (clock : Clock) (result : option string) (error : bool)
    (p : Page) : Page :=
  if error then
    mkPage (scans p) (lastScanned p)
      (Some "Unable to access camera. Please ensure camera permissions are granted.")
      false (lastScanRef p) (timerPending p)
  else
    match truthy result with
    | None => p
    | Some resultText =>
        if match lastScanRef p with
           | Some last => last =? resultText
           | None => false
           end
        then p
        else
          mkPage (addScan clock resultText (scans p))
            (Some (mkScanEvent (millis clock) resultText (displayed clock)
                     (JSON_parse resultText)))
            (cameraError p) (isScanning p)
            (Some resultText)
            true   (* the old timeout is cleared and a new one is set *)
    end.

(** The callback of [setTimeout], two seconds after the last scan that was
    taken. *)
Definition timeoutFired (p : Page) : Page :=
  if timerPending p
  then mkPage (scans p) (lastScanned p) (cameraError p) (isScanning p) None false
  else p.

(** The button "Clear History". *)
Definition clearClicked (p : Page) : Page :=
  mkPage (clearHistory (scans p)) (lastScanned p) (cameraError p)
    (isScanning p) (lastScanRef p) (timerPending p).

(** What happens to the page, one event after the other. *)
Inductive Event : Type :=
| Frame (clock : Clock) (result : option string) (error : bool)
| Timeout
| ClearHistory.

Definition handle (p : Page) (e : Event) : Page :=
  match e with
  | Frame clock result error => handleScan clock result error p
  | Timeout => timeoutFired p
  | ClearHistory => clearClicked p
  end.

Definition handleAll (p : Page) (events : list Event) : Page :=
  fold_left handle events p.

(** A frame that shows [text] again, or nothing, without an error. *)
Definition repeats (text : string) (e : Event) : Prop :=
  exists clock, e = Frame clock (Some text) false \/ e = Frame clock None false.

(** The card "last scanned" shows the payload of the first row of the
    history. *)
Definition cardShowsNewest (p : Page) : Prop :=
  option_map rawValue (lastScanned p)
  = option_map rawValue (hd_error (scans p)).

End WithJsonParse.

(** [str.substring(0, maxLength)] *)
Fixpoint substring0 (maxLength : nat) (str : string) : string :=
  match maxLength, str with
  | S n, String c s => String c (substring0 n s)
  | _, _ => ""
  end.

(** [truncateString(str, maxLength = 50)] *)
Definition truncateString (str : string) (maxLength : nat) : string :=
  if (String.length str <=? maxLength)%nat then str
  else substring0 maxLength str ++ "...".

End ScannerPage.

(* ================================================================== *)
(** * [src/hooks/use-scan-events.ts] *)
(* ================================================================== *)

Module UseScanEvents.
Import Spec.

(** What a [catch] gets: [new Error(v)], kept as the value [v] its message
    is made of, or an error of the platform ([fetch] that fails, a property
    read off [undefined]). *)
Inductive Thrown : Type :=
| ErrorOf (v : Json)
| PlatformError.

Inductive outcome (A : Type) : Type :=
| Returns (a : A)
| Throws (e : Thrown).
Arguments Returns {A} a.
Arguments Throws {A} e.

(** The three [useState] cells of the hook; the entries of [scans] are the
    JSON objects the server sent or [recordScan] built. *)
Record State : Type := mkState {
  scans : list Json;
  isLoading : bool;
  error : option Thrown
}.

Definition initialState : State := mkState [] true None.

(** [response.ok] *)
Definition ok (response : Response) : bool :=
  (200 <=? status response)%nat && (status response <=? 299)%nat.

(** A JSON value used as a condition. *)
Definition truthyJson (v : Json) : bool :=
  match v with
  | JBool b => b
  | JNum n => negb (n =? 0)%Z
  | JStr s => negb (s =? "")
  | _ => true
  end.

(** [errorData.error || fallback] *)
Definition errorOr (errorData : Json) (fallback : string) : Json :=
  match field "error" errorData with
  | Some v => if truthyJson v then v else JStr fallback
  | None => JStr fallback
  end.

(** [fetch]: the request is served by the route against the store, with the
    caller of the session; [reachable] is [false] when the request fails on
    its way and [fetch] throws. *)
Definition fetch (reachable : bool) (h : Db.Handler Response) (store : Db.Store)
  : option Response * Db.Store :=
  if reachable
  then let '(response, store') := Db.run h store in (Some response, store')
  else (None, store).

(** A property that is [undefined] is left out of an object. *)
Definition property (name : string) (v : option Json) : list (string * Json) :=
  match v with
  | Some j => [(name, j)]
  | None => []
  end.

(** The list an answer is read as; the source types it [ScanEventWithCode[]]. *)
Definition entries (data : Json) : list Json :=
  match data with
  | JArr l => l
  | _ => []
  end.

(** [refreshScans] *)
Definition refreshScans (session : option string) (reachable : bool)
    (state : State) (store : Db.Store) : State * Db.Store :=
  match fetch reachable (ScanEventsRoute.GET session) store with
  | (None, store') => (mkState (scans state) false (Some PlatformError), store')
  | (Some response, store') =>
      if ok response
      then (mkState (entries (body response)) false None, store')
      else (mkState (scans state) false
              (Some (ErrorOf (errorOr (body response)
                                "Failed to fetch scan events"))),
            store')
  end.

(** The object [recordScan] builds from the answer of the server. *)
Definition newScanOf (rawPayload : string) (scanEvent code : Json) : Json :=
  JObj (property "id" (field "id" scanEvent)
        ++ property "code_id" (field "code_id" scanEvent)
        ++ property "scanned_at" (field "scanned_at" scanEvent)
        ++ [("raw_payload", JStr rawPayload);
            ("scanned_by_user_id", JStr "");
            ("code",
             JObj (property "id" (field "id" code)
                   ++ property "system_acronym" (field "system_acronym" code)
                   ++ property "size" (field "size" code)
                   ++ property "year" (field "year" code)
                   ++ [("owner_user_id", JStr "")]
                   ++ property "created_at" (field "scanned_at" scanEvent))%list)])%list.

(** The object [recordScan] builds when the answer carries the Code row
    [row] and the scan event [e]. *)
Definition builtFrom (raw : string) (row : CodeRecord.t)
    (e : ScanEventRecord.t) : Json :=
  JObj [("id", JUuid (ScanEventRecord.id e));
        ("code_id", JStr (ScanEventRecord.code_id e));
        ("scanned_at", JTime (ScanEventRecord.scanned_at e));
        ("raw_payload", JStr raw);
        ("scanned_by_user_id", JStr "");
        ("code",
         JObj [("id", JStr (CodeRecord.id row));
               ("system_acronym", JStr (CodeRecord.system_acronym row));
               ("size", JStr (CodeRecord.size row));
               ("year", JNum (CodeRecord.year row));
               ("owner_user_id", JStr "");
               ("created_at", JTime (ScanEventRecord.scanned_at e))])].

(** [recordScan(rawPayload)]: [year] is the year of the server's clock, and
    [reachable] and [reachable'] say whether the request that records and
    the one that refreshes reach the server. *)
Definition recordScan (session : option string) (year : Z)
    (reachable reachable' : bool) (rawPayload : string)
    (state : State) (store : Db.Store) : outcome Json * State * Db.Store :=
  let failed (e : Thrown) (store' : Db.Store) :=
    (Throws e, mkState (scans state) (isLoading state) (Some e), store') in
  match fetch reachable
          (ScanEventsRoute.POST session
             (Some (mkScanRequest (Some rawPayload) None None)) year) store with
  | (None, store1) => failed PlatformError store1
  | (Some response, store1) =>
      if ok response then
        let data := body response in
        match field "scanEvent" data, field "code" data with
        | Some scanEvent, Some code =>
            let newScan := newScanOf rawPayload scanEvent code in
            let state1 :=
              mkState (newScan :: scans state) (isLoading state) (error state) in
            let '(state2, store2) :=
              refreshScans session reachable' state1 store1 in
            (Returns newScan, state2, store2)
        | _, _ => failed PlatformError store1
        end
      else failed (ErrorOf (errorOr (body response) "Failed to record scan"))
             store1
  end.

(** [fetch] of a request during which the availability of the store
    changes, as [Db.runWith] has it. *)
Definition fetchWith (availability : list bool) (reachable : bool)
    (h : Db.Handler Response) (store : Db.Store)
  : option Response * Db.Store :=
  if reachable
  then let '(response, store') := Db.runWith availability h store in
       (Some response, store')
  else (None, store).

(** [recordScan] when the availability of the store changes while the
    server records the scan. *)
Definition recordScanWith (availability : list bool) (session : option string)
    (year : Z) (reachable reachable' : bool) (rawPayload : string)
    (state : State) (store : Db.Store) : outcome Json * State * Db.Store :=
  let failed (e : Thrown) (store' : Db.Store) :=
    (Throws e, mkState (scans state) (isLoading state) (Some e), store') in
  match fetchWith availability reachable
          (ScanEventsRoute.POST session
             (Some (mkScanRequest (Some rawPayload) None None)) year) store with
  | (None, store1) => failed PlatformError store1
  | (Some response, store1) =>
      if ok response then
        let data := body response in
        match field "scanEvent" data, field "code" data with
        | Some scanEvent, Some code =>
            let newScan := newScanOf rawPayload scanEvent code in
            let state1 :=
              mkState (newScan :: scans state) (isLoading state) (error state) in
            let '(state2, store2) :=
              refreshScans session reachable' state1 store1 in
            (Returns newScan, state2, store2)
        | _, _ => failed PlatformError store1
        end
      else failed (ErrorOf (errorOr (body response) "Failed to record scan"))
             store1
  end.

End UseScanEvents.

(* ================================================================== *)
(** * Invariants of the store *)
(* ================================================================== *)

Module Invariants.

(** [scan_events.code_id] refers to a row of [codes]. *)
Definition foreignKey (st : Db.Store) : Prop :=
  forall e, In e (Db.scan_events st) ->
    existsb (Db.hasId (ScanEventRecord.code_id e)) (Db.codes st) = true.

(** The scan event a request of [userId] with payload [raw] adds to [st]
    when its identifier is [codeId]. *)
Definition recorded (st : Db.Store) (codeId userId raw : string)
  : ScanEventRecord.t :=
  ScanEventRecord.mk (Db.next_uuid st) codeId userId (Db.now st) raw.

(** The Code row a request of [userId] adds to [st] on route [r]. *)
Definition created (r : Spec.Route) (st : Db.Store) (codeId : string)
    (req : ScanRequest) (year : Z) (userId : string) : CodeRecord.t :=
  match r with
  | Spec.ApiQrScan =>
      CodeRecord.mk codeId (orElse (systemAcronym req) "TMGS")
        (orElse (size req) "unspecified") year userId (Db.now st)
  | Spec.ApiScanEvents =>
      CodeRecord.mk codeId "TMGS" "unspecified" year userId (Db.now st)
  end.

(** [st] with the rows of [codes] replaced by [codes'] and the scan event
    [e] added: what a scan-record request that succeeds leaves. *)
Definition scanAdded (st : Db.Store) (codes' : list CodeRecord.t)
    (e : ScanEventRecord.t) : Db.Store :=
  Db.mkStore codes' (Db.scan_events st ++ [e]) (Db.now st)
    (N.succ (Db.next_uuid st)) (Db.online st).

(** The 200 answer of route [r] for the Code row [row] and the scan event
    [e]. *)
Definition success (r : Spec.Route) (row : CodeRecord.t)
    (e : ScanEventRecord.t) : Response :=
  match r with
  | Spec.ApiQrScan =>
      json (JObj [("success", JBool true);
                  ("code", codeJson row);
                  ("scanEvent",
                   JObj [("id", JUuid (ScanEventRecord.id e));
                         ("scanned_at", JTime (ScanEventRecord.scanned_at e))])])
  | Spec.ApiScanEvents =>
      json (JObj [("code", codeJson row);
                  ("scanEvent",
                   JObj [("id", JUuid (ScanEventRecord.id e));
                         ("code_id", JStr (ScanEventRecord.code_id e));
                         ("scanned_at", JTime (ScanEventRecord.scanned_at e))])])
  end.

(** The filter of the lookup of route [r] for caller [userId]. *)
Definition lookupOwner (r : Spec.Route) (userId : string) : option string :=
  match r with
  | Spec.ApiQrScan => Some userId
  | Spec.ApiScanEvents => None
  end.

(** The rows the lookup of route [r] selects. *)
Definition selected (r : Spec.Route) (codeId userId : string) (st : Db.Store)
  : list CodeRecord.t :=
  filter (fun row => Db.hasId codeId row && Db.ownedBy (lookupOwner r userId) row)
         (Db.codes st).

(** The 500 of route [r] when its lookup fails. *)
Definition lookupFailure (r : Spec.Route) : Response :=
  match r with
  | Spec.ApiQrScan =>
      QrScanRoute.failure "Database error while checking for existing code" 500
  | Spec.ApiScanEvents =>
      ScanEventsRoute.failure "Database error while fetching code" 500
  end.

(** The steps both scan-record routes take once the request is checked:
    what follows the recording query, the insert and the lookup. *)
Definition recordFailure (r : Spec.Route) : Response :=
  match r with
  | Spec.ApiQrScan =>
      QrScanRoute.failure "Database error while recording scan event" 500
  | Spec.ApiScanEvents =>
      ScanEventsRoute.failure "Database error while recording scan" 500
  end.

Definition recording (r : Spec.Route) (codeId u raw : string)
    (row : CodeRecord.t) : Db.Handler Response :=
  Db.Await (Db.InsertScanEvent codeId u raw)
    (fun scan =>
       match scan with
       | Db.Error _ => Db.Done (recordFailure r)
       | Db.Data scanEvent => Db.Done (success r row scanEvent)
       end).

Definition afterInsert (r : Spec.Route) (codeId u raw : string)
    (inserted : Db.Result CodeRecord.t) : Db.Handler Response :=
  match inserted with
  | Db.Error _ => Db.Done (Spec.createFailure r)
  | Db.Data newCode => recording r codeId u raw newCode
  end.

Definition inserting (r : Spec.Route) (codeId u raw : string)
    (rq : ScanRequest) (year : Z) : Db.Handler Response :=
  Db.Await (Spec.insert r codeId rq year u) (afterInsert r codeId u raw).

Definition afterLookup (r : Spec.Route) (codeId u raw : string)
    (rq : ScanRequest) (year : Z) (existing : Db.Result CodeRecord.t)
  : Db.Handler Response :=
  match existing with
  | Db.Error Db.Unavailable | Db.Error Db.UniqueViolation
  | Db.Error Db.ForeignKeyViolation => Db.Done (lookupFailure r)
  | Db.Data existingCode => recording r codeId u raw existingCode
  | Db.Error Db.PGRST116 => inserting r codeId u raw rq year
  end.

Definition lookingUp (r : Spec.Route) (codeId u raw : string)
    (rq : ScanRequest) (year : Z) : Db.Handler Response :=
  Db.Await (Spec.lookup r codeId u) (afterLookup r codeId u raw rq year).

(** Where a request that resolves [codeId] stands while it is served with
    others: before its lookup, before its insert, or at a point where the
    store has a row with the id. *)
Definition resolving (r : Spec.Route) (codeId u raw : string)
    (rq : ScanRequest) (year : Z) (h : Db.Handler Response) (st : Db.Store)
  : Prop :=
  h = lookingUp r codeId u raw rq year
  \/ h = inserting r codeId u raw rq year
  \/ existsb (Db.hasId codeId) (Db.codes st) = true.

(** A handler that only reads: every query it awaits is a select. *)
Inductive ReadOnly {A : Type} : Db.Handler A -> Prop :=
| ReadOnly_done (a : A) : ReadOnly (Db.Done a)
| ReadOnly_code id owner k :
    (forall res, ReadOnly (k res)) ->
    ReadOnly (Db.Await (Db.SelectCode id owner) k)
| ReadOnly_scans user limit k :
    (forall res, ReadOnly (k res)) ->
    ReadOnly (Db.Await (Db.SelectScanEvents user limit) k)
| ReadOnly_public id k :
    (forall res, ReadOnly (k res)) ->
    ReadOnly (Db.Await (Db.SelectCodePublic id) k).

End Invariants.

(* ================================================================== *)
(** * Characters and strings *)
(* ================================================================== *)

Module StringFacts.
Import JS Spec.

(** A fact about one character is checked on the 256 of them. *)
Ltac by_char c :=
  destruct c as [[] [] [] [] [] [] [] []];
  try reflexivity; try discriminate; try (intros; discriminate).

Lemma codeChar_upper (c : ascii) : isCodeChar c = true -> upperChar c = c.
Proof. by_char c. Qed.

Lemma codeChar_not_space (c : ascii) :
  isCodeChar c = true -> negb (isWhiteSpace c) = true.
Proof. by_char c. Qed.

Lemma codeChar_not_h (c : ascii) : isCodeChar c = true -> (c =? "h")%char = false.
Proof. by_char c. Qed.

Lemma upperChar_idem (c : ascii) : upperChar (upperChar c) = upperChar c.
Proof. by_char c. Qed.

Lemma allChars_impl (p q : ascii -> bool) (s : string) :
  (forall c, p c = true -> q c = true) ->
  allChars p s = true -> allChars q s = true.
Proof.
  intros Hpq. induction s as [|c s IH]; simpl; [reflexivity|].
  intros H. apply andb_true_iff in H as [Hc Hs].
  rewrite (Hpq c Hc), (IH Hs). reflexivity.
Qed.

Lemma allChars_app (p : ascii -> bool) (s t : string) :
  allChars p (s ++ t) = allChars p s && allChars p t.
Proof.
  induction s as [|c s IH]; simpl; [reflexivity|].
  rewrite IH. apply andb_assoc.
Qed.

Lemma mapChars_fixed (f : ascii -> ascii) (p : ascii -> bool) (s : string) :
  (forall c, p c = true -> f c = c) ->
  allChars p s = true -> mapChars f s = s.
Proof.
  intros Hf. induction s as [|c s IH]; simpl; [reflexivity|].
  intros H. apply andb_true_iff in H as [Hc Hs].
  rewrite (Hf c Hc), (IH Hs). reflexivity.
Qed.

Lemma mapChars_length (f : ascii -> ascii) (s : string) :
  String.length (mapChars f s) = String.length s.
Proof. induction s as [|c s IH]; simpl; congruence. Qed.

Lemma toUpperCase_idem (s : string) :
  toUpperCase (toUpperCase s) = toUpperCase s.
Proof.
  unfold toUpperCase. induction s as [|c s IH]; simpl; [reflexivity|].
  rewrite upperChar_idem, IH. reflexivity.
Qed.

Lemma dropWhile_none (p : ascii -> bool) (s : string) :
  allChars (fun c => negb (p c)) s = true -> dropWhile p s = s.
Proof.
  destruct s as [|c s]; simpl; [reflexivity|].
  intros H. apply andb_true_iff in H as [Hc _].
  apply negb_true_iff in Hc. rewrite Hc. reflexivity.
Qed.

Lemma dropWhileEnd_none (p : ascii -> bool) (s : string) :
  allChars (fun c => negb (p c)) s = true -> dropWhileEnd p s = s.
Proof.
  induction s as [|c s IH]; simpl; [reflexivity|].
  intros H. apply andb_true_iff in H as [Hc Hs].
  apply negb_true_iff in Hc. rewrite Hc, (IH Hs). reflexivity.
Qed.

Lemma filterChars_all (p : ascii -> bool) (s : string) :
  allChars p s = true -> filterChars p s = s.
Proof.
  induction s as [|c s IH]; simpl; [reflexivity|].
  intros H. apply andb_true_iff in H as [Hc Hs].
  rewrite Hc, (IH Hs). reflexivity.
Qed.

Lemma breakAt_none (p : ascii -> bool) (s : string) :
  allChars (fun c => negb (p c)) s = true -> breakAt p s = (s, None).
Proof.
  induction s as [|c s IH]; simpl; [reflexivity|].
  intros H. apply andb_true_iff in H as [Hc Hs].
  apply negb_true_iff in Hc. rewrite Hc, (IH Hs). reflexivity.
Qed.

Lemma splitOn_none (p : ascii -> bool) (s : string) :
  allChars (fun c => negb (p c)) s = true -> splitOn p s = [s].
Proof.
  induction s as [|c s IH]; simpl; [reflexivity|].
  intros H. apply andb_true_iff in H as [Hc Hs].
  apply negb_true_iff in Hc. rewrite Hc, (IH Hs). reflexivity.
Qed.

Lemma trim_code (s : string) : allChars isCodeChar s = true -> trim s = s.
Proof.
  intros H. unfold trim.
  assert (Hs : allChars (fun c => negb (isWhiteSpace c)) s = true)
    by (revert H; apply allChars_impl, codeChar_not_space).
  rewrite (dropWhile_none _ _ Hs). apply dropWhileEnd_none, Hs.
Qed.

Lemma toUpperCase_code (s : string) :
  allChars isCodeChar s = true -> toUpperCase s = s.
Proof. apply mapChars_fixed, codeChar_upper. Qed.

End StringFacts.

(* ================================================================== *)
(** * The normalizer of [src/lib/qr.ts] *)
(* ================================================================== *)

Module QrFacts.
Import JS Spec StringFacts.

Lemma validateCodeId_returns (c id : string) :
  Qr.validateCodeId c = Qr.Returns id <-> c = id /\ canonical id.
Proof.
  unfold Qr.validateCodeId, Qr.CODE_ID_REGEX, Qr.CODE_ID_MIN_LENGTH,
    Qr.CODE_ID_MAX_LENGTH, canonical.
  fold isCodeChar.
  destruct (String.length c <? 6)%nat eqn:Hmin.
  { apply Nat.ltb_lt in Hmin. split; [discriminate|].
    intros [-> [_ [H _]]]. lia. }
  destruct (32 <? String.length c)%nat eqn:Hmax.
  { apply Nat.ltb_lt in Hmax. split; [discriminate|].
    intros [-> [_ [_ H]]]. lia. }
  apply Nat.ltb_ge in Hmin, Hmax.
  destruct (allChars isCodeChar c) eqn:Hall.
  - assert (Hne : (c =? "") = false)
      by (destruct c; [simpl in Hmin; lia | reflexivity]).
    rewrite Hne. simpl. split.
    + intros [= <-]. auto.
    + intros [-> _]. reflexivity.
  - rewrite andb_false_r. simpl. split; [discriminate|].
    intros [-> [H _]]. congruence.
Qed.

Lemma extractCodeId_canonical (raw id : string) :
  Qr.extractCodeId raw = Qr.Returns id -> canonical id.
Proof.
  unfold Qr.extractCodeId.
  destruct (raw =? ""); [discriminate|].
  destruct (trim raw =? ""); [discriminate|].
  destruct (Qr.candidateOf (trim raw)) as [c|e]; [|discriminate].
  intros H. apply validateCodeId_returns in H. apply H.
Qed.

Lemma canonical_not_url (id : string) :
  canonical id ->
  startsWith id "http://" || startsWith id "https://" = false.
Proof.
  intros [Hall _]. destruct id as [|c id]; [reflexivity|].
  simpl in Hall. apply andb_true_iff in Hall as [Hc _].
  apply codeChar_not_h in Hc. simpl. rewrite Hc. reflexivity.
Qed.

(** A canonical identifier is its own normal form. *)
Lemma extractCodeId_of_canonical (id : string) :
  canonical id -> Qr.extractCodeId id = Qr.Returns id.
Proof.
  intros Hc. pose proof Hc as [Hall [Hmin Hmax]].
  unfold Qr.extractCodeId. rewrite (trim_code _ Hall).
  assert (Hne : (id =? "") = false)
    by (destruct id; [simpl in Hmin; lia | reflexivity]).
  rewrite Hne. unfold Qr.candidateOf.
  rewrite (canonical_not_url _ Hc), (toUpperCase_code _ Hall).
  apply validateCodeId_returns. auto.
Qed.

End QrFacts.

(* ================================================================== *)
(** * URLs whose last path segment is a canonical identifier *)
(* ================================================================== *)

Module URLFacts.
Import JS Spec StringFacts.

Lemma codeChar_not_c0 (c : ascii) :
  isCodeChar c = true -> negb (URL.isC0ControlOrSpace c) = true.
Proof. by_char c. Qed.

Lemma codeChar_not_tab (c : ascii) :
  isCodeChar c = true -> negb (URL.isTabOrNewline c) = true.
Proof. by_char c. Qed.

Lemma codeChar_not_hash (c : ascii) :
  isCodeChar c = true -> negb (isChar "#" c) = true.
Proof. by_char c. Qed.

Lemma codeChar_not_question (c : ascii) :
  isCodeChar c = true -> negb (isChar "?" c) = true.
Proof. by_char c. Qed.

Lemma codeChar_not_slash (c : ascii) :
  isCodeChar c = true -> negb (URL.isSlash c) = true.
Proof. by_char c. Qed.

Lemma codeChar_not_solidus (c : ascii) :
  isCodeChar c = true -> negb (c =? "/")%char = true.
Proof. by_char c. Qed.

Lemma codeChar_not_encoded (c : ascii) :
  isCodeChar c = true -> negb (URL.pathSet c) = true.
Proof. by_char c. Qed.

Lemma codeChar_not_dot (c : ascii) :
  isCodeChar c = true ->
  (lowerChar c =? ".")%char = false /\ (lowerChar c =? "%")%char = false.
Proof. by_char c; intros; split; reflexivity. Qed.

Lemma percentEncode_none (inSet : ascii -> bool) (s : string) :
  allChars (fun c => negb (inSet c)) s = true -> URL.percentEncode inSet s = s.
Proof.
  induction s as [|c s IH]; simpl; [reflexivity|].
  intros H. apply andb_true_iff in H as [Hc Hs].
  apply negb_true_iff in Hc. unfold URL.percentEncodeChar.
  rewrite Hc, (IH Hs). reflexivity.
Qed.

Lemma code_not_dot_segment (s : string) :
  allChars isCodeChar s = true ->
  URL.isSingleDot s = false /\ URL.isDoubleDot s = false.
Proof.
  destruct s as [|c s]; [split; reflexivity|].
  simpl. intros H. apply andb_true_iff in H as [Hc _].
  destruct (codeChar_not_dot c Hc) as [Hd Hp].
  unfold URL.isSingleDot, URL.isDoubleDot. simpl.
  rewrite Hd, Hp. split; reflexivity.
Qed.

(** How the parser reads [https://app.example.com/s/ID]. *)
Lemma new_default_url (id : string) :
  allChars isCodeChar id = true ->
  URL.new (Qr.defaultBaseUrl ++ "/s/" ++ id)
  = Some (URL.mk "https" (URL.Segments ["s"; id]) None).
Proof.
  intros Hid. unfold URL.new, Qr.defaultBaseUrl.
  assert (Hpre : forall s, allChars isCodeChar s = true ->
            filterChars (fun c => negb (URL.isTabOrNewline c))
              (dropWhileEnd URL.isC0ControlOrSpace
                 (dropWhile URL.isC0ControlOrSpace
                    ("https://app.example.com" ++ "/s/" ++ s)))
            = "https://app.example.com/s/" ++ s).
  { intros s Hs.
    assert (Hall : allChars (fun c => negb (URL.isC0ControlOrSpace c))
                     ("https://app.example.com/s/" ++ s) = true).
    { rewrite allChars_app. apply andb_true_iff. split; [reflexivity|].
      revert Hs. apply allChars_impl, codeChar_not_c0. }
    change ("https://app.example.com" ++ "/s/" ++ s)
      with ("https://app.example.com/s/" ++ s).
    rewrite (dropWhile_none _ _ Hall), (dropWhileEnd_none _ _ Hall).
    apply filterChars_all. rewrite allChars_app.
    apply andb_true_iff. split; [reflexivity|].
    revert Hs. apply allChars_impl, codeChar_not_tab. }
  rewrite (Hpre id Hid).
  change (URL.schemeStartState ("https://app.example.com/s/" ++ id))
    with (Some ("https", "//app.example.com/s/" ++ id)).
  cbv iota beta.
  rewrite (breakAt_none (isChar "#")).
  2:{ rewrite allChars_app. apply andb_true_iff. split; [reflexivity|].
      revert Hid. apply allChars_impl, codeChar_not_hash. }
  rewrite (breakAt_none (isChar "?")).
  2:{ rewrite allChars_app. apply andb_true_iff. split; [reflexivity|].
      revert Hid. apply allChars_impl, codeChar_not_question. }
  change ("https" =? "file") with false.
  change (URL.isSpecial "https") with true.
  cbv iota.
  change (dropWhile URL.isSlash ("//app.example.com/s/" ++ id))
    with ("app.example.com/s/" ++ id).
  unfold URL.authorityState.
  change (breakAt URL.isSlash ("app.example.com/s/" ++ id))
    with ("app.example.com", Some ("s/" ++ id)).
  change (URL.authorityOk true "app.example.com") with true.
  cbv iota beta. unfold URL.pathStartState.
  change (splitOn URL.isSlash ("s/" ++ id))
    with ("s" :: splitOn URL.isSlash id).
  rewrite (splitOn_none URL.isSlash id)
    by (revert Hid; apply allChars_impl, codeChar_not_slash).
  destruct (code_not_dot_segment id Hid) as [Hs Hd].
  cbn [URL.pathState]. rewrite Hs, Hd.
  rewrite (percentEncode_none URL.pathSet id)
    by (revert Hid; apply allChars_impl, codeChar_not_encoded).
  reflexivity.
Qed.

End URLFacts.

(* ================================================================== *)
(** * Properties of the payload normalizers *)
(* ================================================================== *)

Module Normalizer.
Import JS Spec StringFacts QrFacts.

Lemma startsWith_app (s p : string) :
  startsWith s p = true -> exists r, s = p ++ r.
Proof.
  revert s. induction p as [|b p IH]; intros s; simpl.
  - exists s. reflexivity.
  - destruct s as [|a s]; [discriminate|].
    intros H. apply andb_true_iff in H as [Hab Hs].
    apply Ascii.eqb_eq in Hab. subst b.
    destruct (IH s Hs) as [r ->]. exists r. reflexivity.
Qed.

Lemma url_prefix_not_code (t : string) :
  startsWith t "http://" || startsWith t "https://" = true ->
  allChars isCodeChar (toUpperCase t) = false.
Proof.
  intros H. apply orb_true_iff in H as [H|H];
    apply startsWith_app in H as [r ->]; reflexivity.
Qed.

Lemma trim_empty_raw (raw : string) : trim raw <> "" -> raw <> "".
Proof. intros H ->. apply H. reflexivity. Qed.

Lemma nonempty_eqb (s : string) : s <> "" -> (s =? "") = false.
Proof. destruct s; [congruence | reflexivity]. Qed.

Lemma length_nonempty (s : string) : (1 <= String.length s)%nat -> s <> "".
Proof. destruct s; simpl; [lia | discriminate]. Qed.

Lemma filter_nonempty_segments (l : list string) :
  filter (fun segment => (0 <? String.length segment)%nat) l
  = filter (fun segment => negb (segment =? "")) l.
Proof.
  apply filter_ext. intros s. destruct s; reflexivity.
Qed.

End Normalizer.

Module NormalizerClaims.
Import JS Spec StringFacts QrFacts Normalizer.



(** C8: normalizing is idempotent; whenever [extractCodeId] accepts [x], it
    accepts its own result and returns it unchanged. *)
Theorem extractCodeId_idempotent (x id : string) :
  Qr.extractCodeId x = Qr.Returns id ->
  Qr.extractCodeId id = Qr.extractCodeId x.
Proof.
  intros H. rewrite H.
  apply extractCodeId_of_canonical, (extractCodeId_canonical x), H.
Qed.

Lemma extractCodeId_idempotent_witness :
  Qr.extractCodeId "a6f3hw7l" = Qr.Returns "A6F3HW7L"
  /\ Qr.extractCodeId "A6F3HW7L" = Qr.extractCodeId "a6f3hw7l".
Proof.
  split; [reflexivity|].
  apply (extractCodeId_idempotent "a6f3hw7l" "A6F3HW7L"). reflexivity.
Defined.

(** C5, as stated, fails: ["HTTPS://host/s/B7G4JX9M"] parses as an absolute
    https URL with no [code] parameter and the last path segment
    [B7G4JX9M], but [extractCodeId] knows a URL by the lower-case prefix
    only; it takes the whole payload as the candidate and rejects it for its
    characters. *)
Lemma upper_case_scheme_taken_as_plain :
  exists url,
    URL.new (trim "HTTPS://host/s/B7G4JX9M") = Some url
    /\ URL.scheme url = "https"
    /\ URL.searchParams_get url "code" = None
    /\ last (filter (fun segment => negb (segment =? ""))
                    (split "/" (URL.pathname url))) "" = "B7G4JX9M"
    /\ Qr.validateCodeId (toUpperCase (trim "B7G4JX9M")) = Qr.Returns "B7G4JX9M"
    /\ Qr.extractCodeId "HTTPS://host/s/B7G4JX9M"
       = Qr.Throws Qr.InvalidCharacters.
Proof. eexists. repeat split. Qed.

(** C5, amended: in a payload whose trimmed text starts with the lower-case
    prefix [http://] or [https://] and parses as a URL, a non-empty [code]
    query parameter is the candidate, before the path; without one the
    candidate is the last non-empty path segment, and the payload is
    rejected when the path has none.  The candidate is trimmed, upper-cased
    and checked.  The two examples of the specification follow. *)
Theorem url_candidate :
  (forall raw url,
      startsWith (trim raw) "http://" || startsWith (trim raw) "https://" = true ->
      URL.new (trim raw) = Some url ->
      let segments :=
        filter (fun segment => negb (segment =? ""))
               (split "/" (URL.pathname url)) in
      (forall queryCode,
          URL.searchParams_get url "code" = Some queryCode ->
          queryCode <> "" ->
          Qr.extractCodeId raw
          = Qr.validateCodeId (toUpperCase (trim queryCode)))
      /\ (URL.searchParams_get url "code" = None
          \/ URL.searchParams_get url "code" = Some "" ->
          (segments = [] -> Qr.extractCodeId raw = Qr.Throws Qr.NoPathSegments)
          /\ (segments <> [] ->
              Qr.extractCodeId raw
              = Qr.validateCodeId (toUpperCase (trim (last segments ""))))))
  /\ Qr.extractCodeId "https://host/s/B7G4JX9M" = Qr.Returns "B7G4JX9M"
  /\ Qr.extractCodeId "https://host/path?code=c8h5ky0n" = Qr.Returns "C8H5KY0N".
Proof.
  split; [|split; reflexivity].
  intros raw url Hprefix Hurl segments.
  assert (Ht : trim raw <> "").
  { intros E. rewrite E in Hprefix. discriminate. }
  assert (Hstart : Qr.extractCodeId raw
                   = match Qr.candidateOf (trim raw) with
                     | Qr.Throws e => Qr.Throws e
                     | Qr.Returns codeId => Qr.validateCodeId codeId
                     end).
  { unfold Qr.extractCodeId.
    rewrite (nonempty_eqb raw (trim_empty_raw raw Ht)), (nonempty_eqb _ Ht).
    reflexivity. }
  rewrite Hstart. unfold Qr.candidateOf. rewrite Hprefix, Hurl.
  rewrite filter_nonempty_segments. fold segments.
  split.
  - intros q Hq Hne. rewrite Hq.
    destruct q as [|c q]; [congruence | reflexivity].
  - intros Hno.
    assert (Hpath :
              match URL.searchParams_get url "code" with
              | Some (String c q) => Qr.Returns (toUpperCase (trim (String c q)))
              | _ => if (Datatypes.length segments =? 0)%nat
                     then Qr.Throws Qr.NoPathSegments
                     else Qr.Returns (toUpperCase (trim (last segments "")))
              end
              = if (Datatypes.length segments =? 0)%nat
                then Qr.Throws Qr.NoPathSegments
                else Qr.Returns (toUpperCase (trim (last segments "")))).
    { destruct Hno as [-> | ->]; reflexivity. }
    rewrite Hpath. split.
    + intros ->. reflexivity.
    + intros Hne. destruct segments; [congruence | reflexivity].
Qed.

Lemma url_candidate_witness :
  Qr.extractCodeId "https://host/path?code=c8h5ky0n"
  = Qr.validateCodeId (toUpperCase (trim "c8h5ky0n")).
Proof.
  refine (proj1 (proj1 url_candidate "https://host/path?code=c8h5ky0n"
                   (URL.mk "https" (URL.Segments ["path"]) (Some "code=c8h5ky0n"))
                   _ _) "c8h5ky0n" _ _).
  - reflexivity.
  - reflexivity.
  - reflexivity.
  - discriminate.
Defined.

(** C10: round trip through URL generation; for every [x] that
    [extractCodeId] accepts, [generateQRUrl x] with the default base URL
    returns a URL, and [extractCodeId] reads from it what it reads from [x]. *)
Theorem generateQRUrl_round_trip (x id : string) :
  Qr.extractCodeId x = Qr.Returns id ->
  exists url,
    Qr.generateQRUrl x Qr.defaultBaseUrl = Qr.Returns url
    /\ Qr.extractCodeId url = Qr.extractCodeId x.
Proof.
  intros Hx. exists (Qr.defaultBaseUrl ++ "/s/" ++ id).
  unfold Qr.generateQRUrl. rewrite Hx. split; [reflexivity|].
  pose proof (extractCodeId_canonical x id Hx) as Hc.
  pose proof Hc as [Hall [Hmin Hmax]].
  assert (Htrim : trim (Qr.defaultBaseUrl ++ "/s/" ++ id)
                  = Qr.defaultBaseUrl ++ "/s/" ++ id).
  { assert (Hs : allChars (fun c => negb (isWhiteSpace c))
                   (Qr.defaultBaseUrl ++ "/s/" ++ id) = true).
    { change (Qr.defaultBaseUrl ++ "/s/" ++ id)
        with ("https://app.example.com/s/" ++ id).
      rewrite allChars_app. apply andb_true_iff. split; [reflexivity|].
      revert Hall. apply allChars_impl, codeChar_not_space. }
    unfold trim. rewrite (dropWhile_none _ _ Hs).
    apply dropWhileEnd_none, Hs. }
  unfold Qr.extractCodeId. rewrite Htrim.
  change (Qr.defaultBaseUrl ++ "/s/" ++ id =? "") with false. cbv iota.
  unfold Qr.candidateOf.
  change (startsWith (Qr.defaultBaseUrl ++ "/s/" ++ id) "http://"
          || startsWith (Qr.defaultBaseUrl ++ "/s/" ++ id) "https://")
    with true.
  cbv iota. rewrite (URLFacts.new_default_url id Hall).
  change (URL.searchParams_get
            (URL.mk "https" (URL.Segments ["s"; id]) None) "code")
    with (@None string).
  cbv iota.
  change (URL.pathname (URL.mk "https" (URL.Segments ["s"; id]) None))
    with ("/s/" ++ id).
  unfold split.
  change (splitOn (fun c => (c =? "/")%char) ("/s/" ++ id))
    with ("" :: "s" :: splitOn (fun c => (c =? "/")%char) id).
  rewrite (splitOn_none (fun c => (c =? "/")%char) id)
    by (revert Hall; apply allChars_impl, URLFacts.codeChar_not_solidus).
  assert (Hlen : (0 <? String.length id)%nat = true)
    by (apply Nat.ltb_lt; lia).
  cbn [filter]. rewrite Hlen.
  change (0 <? String.length "")%nat with false.
  change (0 <? String.length "s")%nat with true.
  cbn [List.length Nat.eqb last].
  rewrite (trim_code _ Hall), (toUpperCase_code _ Hall).
  apply validateCodeId_returns. auto.
Qed.

Lemma generateQRUrl_round_trip_witness :
  exists url,
    Qr.generateQRUrl "a6f3hw7l" Qr.defaultBaseUrl = Qr.Returns url
    /\ Qr.extractCodeId url = Qr.extractCodeId "a6f3hw7l".
Proof.
  apply (generateQRUrl_round_trip "a6f3hw7l" "A6F3HW7L"). reflexivity.
Defined.

(** C2, as stated, fails: an identifier of 13 characters is accepted by
    [lib/qr.ts] and rejected by the route, and a URL whose [code] parameter
    is too short is rejected by [lib/qr.ts] while the route falls back to
    the path. *)
Lemma normalizers_disagree :
  ~ agree "ABCDEFGHIJKLM"
  /\ ~ agree "https://host/s/B7G4JX9M?code=TOO".
Proof. split; intros H; exact H. Qed.

(** C2, amended: on a payload that is not a URL the two normalizers differ
    by the upper bound only; the route extracts an identifier exactly when
    [lib/qr.ts] extracts it and it has at most 12 characters. *)
Theorem normalizers_agree_up_to_bound (raw id : string) :
  URL.new (trim raw) = None ->
  QrScan.extractCodeId raw = Some id
  <-> Qr.extractCodeId raw = Qr.Returns id /\ (String.length id <= 12)%nat.
Proof.
  intros Hurl. unfold QrScan.extractCodeId. rewrite Hurl.
  unfold QrScan.isValidCodeId. fold isCodeChar.
  unfold Qr.extractCodeId, Qr.candidateOf. rewrite Hurl.
  set (t := trim raw).
  destruct (startsWith t "http://" || startsWith t "https://") eqn:Hp.
  { rewrite (url_prefix_not_code t Hp). simpl.
    destruct (raw =? ""); [|destruct (t =? "")];
      (split; [discriminate | intros [? _]; discriminate]). }
  split.
  - destruct (allChars isCodeChar (toUpperCase t)) eqn:Hall; [|discriminate].
    destruct (6 <=? String.length (toUpperCase t))%nat eqn:Hmin; [|discriminate].
    destruct (String.length (toUpperCase t) <=? 12)%nat eqn:Hmax; [|discriminate].
    simpl. intros [= <-].
    apply Nat.leb_le in Hmin, Hmax.
    assert (Ht : t <> "").
    { apply length_nonempty. unfold toUpperCase in Hmin.
      rewrite mapChars_length in Hmin. lia. }
    rewrite (nonempty_eqb raw (trim_empty_raw raw Ht)), (nonempty_eqb t Ht).
    split; [|exact Hmax].
    apply validateCodeId_returns. split; [reflexivity|].
    repeat split; [exact Hall | exact Hmin | lia].
  - intros [H Hle].
    destruct (raw =? ""); [discriminate|].
    destruct (t =? ""); [discriminate|].
    apply validateCodeId_returns in H as [-> [Hall [Hmin _]]].
    rewrite Hall. apply Nat.leb_le in Hmin, Hle. rewrite Hmin, Hle.
    reflexivity.
Qed.

Lemma normalizers_agree_up_to_bound_witness :
  QrScan.extractCodeId " a6f3hw7l " = Some "A6F3HW7L"
  <-> Qr.extractCodeId " a6f3hw7l " = Qr.Returns "A6F3HW7L"
      /\ (String.length "A6F3HW7L" <= 12)%nat.
Proof.
  apply (normalizers_agree_up_to_bound " a6f3hw7l " "A6F3HW7L"). reflexivity.
Defined.

End NormalizerClaims.

(* ================================================================== *)
(** * The store *)
(* ================================================================== *)

Module StoreFacts.
Import Db Spec.

(** No query updates or deletes a row of [codes]: rows are only added. *)
Lemma exec_codes_extend {R : Type} (q : Query R) (st : Store) :
  exists added, codes (snd (exec q st)) = (codes st ++ added)%list.
Proof.
  destruct q; simpl; destruct (online st);
    try (exists []; rewrite app_nil_r; reflexivity).
  - destruct (existsb (hasId id) (codes st)); simpl.
    + exists []. rewrite app_nil_r. reflexivity.
    + eexists. reflexivity.
  - destruct (existsb (hasId code_id) (codes st)); simpl;
      exists []; rewrite app_nil_r; reflexivity.
Qed.

Lemma run_codes_extend {A : Type} (h : Handler A) (st : Store) :
  exists added, codes (snd (run h st)) = (codes st ++ added)%list.
Proof.
  revert st. induction h as [a | R q k IH]; intros st; simpl.
  - exists []. rewrite app_nil_r. reflexivity.
  - destruct (exec_codes_extend q st) as [l1 H1].
    destruct (exec q st) as [r st1] eqn:E. simpl in H1.
    destruct (IH r st1) as [l2 H2].
    exists (l1 ++ l2)%list. rewrite H2, H1. symmetry. apply app_assoc.
Qed.

Lemma existsb_hasId (id : string) (l : list CodeRecord.t) :
  existsb (hasId id) l = false -> ~ In id (map CodeRecord.id l).
Proof.
  intros H Hin. apply in_map_iff in Hin as [r [Hr Hin]].
  assert (E : existsb (hasId id) l = true).
  { apply existsb_exists. exists r. split; [exact Hin|].
    unfold hasId. apply String.eqb_eq. exact Hr. }
  congruence.
Qed.

(** The primary key holds after every query, hence after every request. *)
Lemma exec_primaryKey {R : Type} (q : Query R) (st : Store) :
  primaryKey st -> primaryKey (snd (exec q st)).
Proof.
  unfold primaryKey. intros Hpk.
  destruct q; simpl; destruct (online st); try exact Hpk.
  - destruct (existsb (hasId id) (codes st)) eqn:E; simpl; [exact Hpk|].
    rewrite map_app. simpl.
    apply NoDup_incl_NoDup with (l := id :: map CodeRecord.id (codes st)).
    + constructor; [apply existsb_hasId, E | exact Hpk].
    + rewrite length_app. simpl. lia.
    + intros x [<-|Hx]; apply in_or_app;
        [right; left; reflexivity | left; exact Hx].
  - destruct (existsb (hasId code_id) (codes st)); exact Hpk.
Qed.

Lemma run_primaryKey {A : Type} (h : Handler A) (st : Store) :
  primaryKey st -> primaryKey (snd (run h st)).
Proof.
  revert st. induction h as [a | R q k IH]; intros st Hpk; simpl.
  - exact Hpk.
  - pose proof (exec_primaryKey q st Hpk) as H1.
    destruct (exec q st) as [r st1]. apply IH, H1.
Qed.

(** An insert into [codes] that fails leaves the store as it was. *)
Lemma insert_error_store id sys size year owner (st : Store) (e : PgError) :
  fst (exec (InsertCode id sys size year owner) st) = Error e ->
  exec (InsertCode id sys size year owner) st = (Error e, st).
Proof.
  simpl. destruct (online st); simpl.
  - destruct (existsb (hasId id) (codes st)); simpl.
    + intros [= <-]. reflexivity.
    + discriminate.
  - intros [= <-]. reflexivity.
Qed.

Lemma filter_absent (c : string) (p : CodeRecord.t -> bool)
    (l : list CodeRecord.t) :
  (forall r, In r l -> CodeRecord.id r <> c) ->
  filter (fun r => hasId c r && p r) l = [].
Proof.
  induction l as [|x l IH]; intros H; simpl; [reflexivity|].
  assert (Hx : hasId c x = false).
  { unfold hasId. apply String.eqb_neq. apply H. left. reflexivity. }
  rewrite Hx. simpl. apply IH. intros r Hr. apply H. right. exact Hr.
Qed.

(** Under the primary key, a select by id finds the row and nothing else. *)
Lemma filter_unique (row : CodeRecord.t) (p : CodeRecord.t -> bool)
    (l : list CodeRecord.t) :
  NoDup (map CodeRecord.id l) -> In row l -> p row = true ->
  filter (fun r => hasId (CodeRecord.id row) r && p r) l = [row].
Proof.
  induction l as [|x l IH]; intros Hnd Hin Hp; [destruct Hin|].
  simpl in Hnd. inversion Hnd as [|? ? Hx Hl]; subst.
  destruct Hin as [->|Hin].
  - simpl. unfold hasId at 1. rewrite String.eqb_refl, Hp. simpl.
    f_equal. apply filter_absent. intros r Hr E.
    apply Hx. rewrite <- E. apply in_map, Hr.
  - simpl.
    assert (Hne : hasId (CodeRecord.id row) x = false).
    { unfold hasId. apply String.eqb_neq. intros E.
      apply Hx. rewrite E. apply in_map, Hin. }
    rewrite Hne. simpl. apply IH; assumption.
Qed.

Lemma existsb_present (row : CodeRecord.t) (l : list CodeRecord.t) :
  In row l -> existsb (hasId (CodeRecord.id row)) l = true.
Proof.
  intros H. apply existsb_exists. exists row. split; [exact H|].
  unfold hasId. apply String.eqb_refl.
Qed.

(** [ORDER BY]: the same rows, newest first. *)
Lemma insertDesc_perm (e : ScanEventRecord.t) (l : list ScanEventRecord.t) :
  Permutation (insertDesc e l) (e :: l).
Proof.
  induction l as [|x l IH]; simpl; [apply Permutation_refl|].
  destruct (ScanEventRecord.scanned_at x <? ScanEventRecord.scanned_at e)%Z.
  - apply Permutation_refl.
  - eapply perm_trans; [apply perm_skip, IH | apply perm_swap].
Qed.

Lemma orderDesc_perm (l : list ScanEventRecord.t) :
  Permutation (orderDesc l) l.
Proof.
  induction l as [|x l IH]; simpl; [constructor|].
  eapply perm_trans; [apply insertDesc_perm | apply perm_skip, IH].
Qed.

Lemma insertDesc_sorted (e : ScanEventRecord.t) (l : list ScanEventRecord.t) :
  newestFirst l -> newestFirst (insertDesc e l).
Proof.
  unfold newestFirst. induction l as [|x l IH]; intros Hs; simpl.
  - constructor; constructor.
  - inversion Hs as [|? ? Hl Hx]; subst.
    destruct (ScanEventRecord.scanned_at x <? ScanEventRecord.scanned_at e)%Z
      eqn:E.
    + apply Z.ltb_lt in E. constructor; [exact Hs|].
      constructor; [lia|].
      rewrite Forall_forall in Hx |- *. intros y Hy.
      specialize (Hx y Hy). simpl in Hx. lia.
    + apply Z.ltb_ge in E. constructor; [apply IH, Hl|].
      rewrite Forall_forall in Hx |- *. intros y Hy.
      apply (Permutation_in _ (insertDesc_perm e l)) in Hy.
      destruct Hy as [<-|Hy]; [exact E | apply Hx, Hy].
Qed.

Lemma orderDesc_sorted (l : list ScanEventRecord.t) :
  newestFirst (orderDesc l).
Proof.
  induction l as [|x l IH]; simpl; [constructor|].
  apply insertDesc_sorted, IH.
Qed.

Lemma newestFirst_app (a b : list ScanEventRecord.t) :
  newestFirst (a ++ b) ->
  newestFirst a
  /\ forall x y, In x a -> In y b ->
       (ScanEventRecord.scanned_at y <= ScanEventRecord.scanned_at x)%Z.
Proof.
  unfold newestFirst. induction a as [|z a IH]; simpl; intros H.
  - split; [constructor | intros x y []].
  - inversion H as [|? ? Hl Hz]; subst.
    destruct (IH Hl) as [Ha Hab]. split.
    + constructor; [exact Ha|].
      rewrite Forall_forall in Hz |- *. intros y Hy.
      apply Hz, in_or_app. left. exact Hy.
    + intros x y [<-|Hx] Hy.
      * rewrite Forall_forall in Hz. apply Hz, in_or_app. right. exact Hy.
      * apply Hab; assumption.
Qed.

End StoreFacts.

(* ================================================================== *)
(** * The identifiers the routes store *)
(* ================================================================== *)

Module PipelineFacts.
Import JS Db Spec StringFacts QrFacts.

Lemma isValidCodeId_canonical (x : string) :
  QrScan.isValidCodeId x = true -> canonical (toUpperCase x).
Proof.
  unfold QrScan.isValidCodeId. fold isCodeChar. intros H.
  apply andb_true_iff in H as [H Hmax].
  apply andb_true_iff in H as [Hall Hmin].
  apply Nat.leb_le in Hmin, Hmax.
  repeat split; [exact Hall | exact Hmin | lia].
Qed.

Lemma fromUrl_canonical (url : URL.t) (id : string) :
  QrScan.fromUrl url = Some id -> canonical id.
Proof.
  unfold QrScan.fromUrl.
  set (segments := filter _ _).
  assert (Hpath :
            (if (0 <? Datatypes.length segments)%nat
             then if QrScan.isValidCodeId (last segments "")
                  then Some (toUpperCase (last segments ""))
                  else None
             else None) = Some id -> canonical id).
  { destruct (0 <? Datatypes.length segments)%nat; [|discriminate].
    destruct (QrScan.isValidCodeId (last segments "")) eqn:E; [|discriminate].
    intros [= <-]. apply isValidCodeId_canonical, E. }
  destruct (URL.searchParams_get url "code") as [codeParam|]; [|exact Hpath].
  destruct (negb (codeParam =? "") && QrScan.isValidCodeId codeParam) eqn:E;
    [|exact Hpath].
  apply andb_true_iff in E as [_ E].
  intros [= <-]. apply isValidCodeId_canonical, E.
Qed.

(** What the normalizer of [/api/qr/scan] returns is canonical. *)
Lemma qrScan_extractCodeId_canonical (raw id : string) :
  QrScan.extractCodeId raw = Some id -> canonical id.
Proof.
  unfold QrScan.extractCodeId.
  assert (Hplain :
            (if QrScan.isValidCodeId (trim raw)
             then Some (toUpperCase (trim raw)) else None) = Some id ->
            canonical id).
  { destruct (QrScan.isValidCodeId (trim raw)) eqn:E; [|discriminate].
    intros [= <-]. apply isValidCodeId_canonical, E. }
  destruct (URL.new (trim raw)) as [url|]; [|exact Hplain].
  destruct (QrScan.fromUrl url) as [c|] eqn:E; [|exact Hplain].
  intros [= <-]. apply (fromUrl_canonical url), E.
Qed.

Lemma normalize_canonical (r : Route) (raw id : string) :
  normalize r raw = Some id -> canonical id.
Proof.
  destruct r; cbn [normalize].
  - destruct (QrScan.extractCodeId raw) as [c|] eqn:E; [|discriminate].
    destruct c; [discriminate|]. intros [= <-].
    apply (qrScan_extractCodeId_canonical raw), E.
  - destruct (Qr.extractCodeId raw) as [c|] eqn:E; [|discriminate].
    intros [= <-]. apply (extractCodeId_canonical raw), E.
Qed.

Lemma insert_canonicalIds id sys size year owner (st : Store) :
  canonical id -> canonicalIds st ->
  canonicalIds (snd (exec (InsertCode id sys size year owner) st)).
Proof.
  unfold canonicalIds. intros Hid Hst. simpl.
  destruct (online st); [|exact Hst].
  destruct (existsb (hasId id) (codes st)); [exact Hst|].
  simpl. apply Forall_app. split; [exact Hst|].
  constructor; [exact Hid | constructor].
Qed.

Lemma select_store id owner (st : Store) :
  exists res, exec (SelectCode id owner) st = (res, st).
Proof. simpl. destruct (online st); eexists; reflexivity. Qed.

Lemma scan_codes code_id user raw (st : Store) :
  codes (snd (exec (InsertScanEvent code_id user raw) st)) = codes st.
Proof.
  simpl. destruct (online st); [|reflexivity].
  destruct (existsb (hasId code_id) (codes st)); reflexivity.
Qed.

(** A resolution followed by the recording of the scan, as both routes do
    it, keeps the ids canonical. *)
Lemma resolve_canonicalIds (r : Route) (codeId userId raw : string)
    (req : ScanRequest) (year : Z) (st : Store)
    (k : CodeRecord.t -> Handler Response) (failed failed' : Response) :
  (forall row st1, codes (snd (run (k row) st1)) = codes st1) ->
  canonical codeId -> canonicalIds st ->
  canonicalIds
    (snd (run (await existing <- lookup r codeId userId;
               match existing with
               | Error Unavailable | Error UniqueViolation
               | Error ForeignKeyViolation => Done failed
               | Data existingCode => k existingCode
               | Error PGRST116 =>
                   await inserted <- insert r codeId req year userId;
                   match inserted with
                   | Error _ => Done failed'
                   | Data newCode => k newCode
                   end
               end) st)).
Proof.
  intros Hk Hid Hst. unfold canonicalIds in *. cbn [run].
  assert (Hsel : exists res, exec (lookup r codeId userId) st = (res, st)).
  { destruct r; cbn [lookup]; apply select_store. }
  destruct Hsel as [res ->].
  destruct res as [row | []]; cbn [run]; try exact Hst.
  - rewrite Hk. exact Hst.
  - assert (Hins : canonicalIds (snd (exec (insert r codeId req year userId) st)))
      by (destruct r; apply insert_canonicalIds; assumption).
    destruct (exec (insert r codeId req year userId) st) as [ins st1].
    cbn [snd] in Hins. destruct ins as [row|e]; cbn [run].
    + rewrite Hk. exact Hins.
    + exact Hins.
Qed.

Lemma qrScan_recordScan_codes codeId userId raw row (st : Store) :
  codes (snd (run (QrScanRoute.recordScan codeId userId raw row) st))
  = codes st.
Proof.
  unfold QrScanRoute.recordScan. cbn [run].
  pose proof (scan_codes codeId userId raw st) as H.
  destruct (exec (InsertScanEvent codeId userId raw) st) as [res st1].
  destruct res; exact H.
Qed.

Lemma scanEvents_recordScan_codes codeId userId raw row (st : Store) :
  codes (snd (run (ScanEventsRoute.recordScan codeId userId raw row) st))
  = codes st.
Proof.
  unfold ScanEventsRoute.recordScan. cbn [run].
  pose proof (scan_codes codeId userId raw st) as H.
  destruct (exec (InsertScanEvent codeId userId raw) st) as [res st1].
  destruct res; exact H.
Qed.

(** X29: both scan-record routes keep the ids of [codes] canonical: a
    request served on a store whose ids all have 6 to 32 characters of A-Z
    or 0-9 leaves a store whose ids all have. *)
Lemma POST_canonicalIds (r : Route) (userId : option string)
    (req : option ScanRequest) (year : Z) (st : Store) :
  canonicalIds st -> canonicalIds (snd (run (POST r userId req year) st)).
Proof.
  intros Hst. destruct r; cbn [POST].
  - unfold QrScanRoute.POST.
    destruct (truthy userId) as [u|]; [|exact Hst].
    destruct req as [req|]; [|exact Hst].
    destruct (truthy (rawPayload req)) as [raw|]; [|exact Hst].
    destruct (truthy (QrScan.extractCodeId raw)) as [codeId|] eqn:E;
      [|exact Hst].
    apply (resolve_canonicalIds ApiQrScan codeId u raw req year st
             (QrScanRoute.recordScan codeId u raw)).
    + intros row st1. apply qrScan_recordScan_codes.
    + apply (normalize_canonical ApiQrScan raw), E.
    + exact Hst.
  - unfold ScanEventsRoute.POST.
    destruct (truthy userId) as [u|]; [|exact Hst].
    destruct req as [req|]; [|exact Hst].
    destruct (truthy (rawPayload req)) as [raw|]; [|exact Hst].
    destruct (Qr.extractCodeId raw) as [codeId|] eqn:E; [|exact Hst].
    apply (resolve_canonicalIds ApiScanEvents codeId u raw req year st
             (ScanEventsRoute.recordScan codeId u raw)).
    + intros row st1. apply scanEvents_recordScan_codes.
    + apply (extractCodeId_canonical raw), E.
    + exact Hst.
Qed.

Lemma POST_canonicalIds_witness :
  canonicalIds
    (snd (run (POST ApiQrScan (Some "alice") (Some Examples.request) 2025)
            Examples.alice_store)).
Proof.
  apply (POST_canonicalIds ApiQrScan (Some "alice") (Some Examples.request)
           2025%Z Examples.alice_store).
  repeat constructor.
Defined.

Lemma canonical_upper (id : string) :
  canonical id -> toUpperCase id = id /\ id <> "".
Proof.
  intros [Hall [Hmin _]]. split; [apply toUpperCase_code, Hall|].
  destruct id; [simpl in Hmin; lia | discriminate].
Qed.

End PipelineFacts.

(* ================================================================== *)
(** * Properties of the routes *)
(* ================================================================== *)

Module RouteClaims.
Import Db Spec StoreFacts Examples.

Lemma truthy_some (s : string) : s <> "" -> truthy (Some s) = Some s.
Proof. destruct s; [congruence | reflexivity]. Qed.

(** C1, as stated, fails on both routes: of two requests that create the
    same identifier together, the one whose insert comes second is answered
    with a 500. *)
Lemma concurrent_creation_surfaces_error :
  raceLost ApiQrScan /\ raceLost ApiScanEvents.
Proof.
  split; (split; [reflexivity|]); (split; [reflexivity|]);
    eexists; (split; [vm_compute; reflexivity|]); split; reflexivity.
Qed.

(** C1, amended: when the lookup of a scan-record request finds no Code and
    its insert then fails, for a duplicate key or for any other reason, the
    request does not fetch again: it is answered with the 500 of the route
    ("Database error while creating code ...") and writes nothing. *)
Theorem insert_failure_is_answered_500 (r : Route) (st st' : Store)
    (userId raw codeId : string) (req : ScanRequest) (year : Z) (e : PgError) :
  userId <> "" ->
  truthy (rawPayload req) = Some raw ->
  normalize r raw = Some codeId ->
  fst (exec (lookup r codeId userId) st) = Error PGRST116 ->
  fst (exec (insert r codeId req year userId) st') = Error e ->
  run (fst (step (POST r (Some userId) (Some req) year) st)) st'
  = (createFailure r, st').
Proof.
  intros Hu Hraw Hnorm Hlookup Hinsert.
  destruct r; cbn [POST lookup insert normalize createFailure] in *.
  - unfold QrScanRoute.POST. rewrite (truthy_some _ Hu), Hraw, Hnorm.
    cbn [step].
    destruct (exec (SelectCode codeId (Some userId)) st) as [res st1] eqn:E.
    cbn [fst] in Hlookup. subst res. cbn [fst run].
    rewrite (insert_error_store _ _ _ _ _ _ _ Hinsert). reflexivity.
  - unfold ScanEventsRoute.POST. rewrite (truthy_some _ Hu), Hraw.
    destruct (Qr.extractCodeId raw) as [c|]; [|discriminate].
    injection Hnorm as ->. cbn [step].
    destruct (exec (SelectCode codeId None) st) as [res st1] eqn:E.
    cbn [fst] in Hlookup. subst res. cbn [fst run].
    rewrite (insert_error_store _ _ _ _ _ _ _ Hinsert). reflexivity.
Qed.

Lemma insert_failure_is_answered_500_witness :
  run (fst (step (POST ApiScanEvents (Some "bob") (Some request) 2025%Z)
              empty_store)) alice_store
  = (createFailure ApiScanEvents, alice_store).
Proof.
  apply (insert_failure_is_answered_500 ApiScanEvents empty_store alice_store
           "bob" "a6f3hw7l" "A6F3HW7L" request 2025%Z UniqueViolation).
  - discriminate.
  - reflexivity.
  - reflexivity.
  - reflexivity.
  - reflexivity.
Defined.

(** C3, as stated, fails on [/api/qr/scan]: its lookup is filtered by
    owner, so bob's scan of alice's Code does not find the row; the insert
    that follows violates the primary key and bob is answered with a 500
    instead of the stored row. *)
Lemma other_caller_not_served_stored_row :
  In alice_row (codes alice_store)
  /\ run (QrScanRoute.POST (Some "bob") (Some request) 2025) alice_store
     = (createFailure ApiQrScan, alice_store).
Proof. split; [left; reflexivity | reflexivity]. Qed.

(** C3, amended: when a Code row with the scanned id exists and the lookup
    of the route finds it (any caller on [/api/scan-events], the owner of
    the row on [/api/qr/scan]), the request is answered with the fields of
    the stored row and [codes] is left as it was; and whatever the request
    and the store, the rows that were in [codes] are still there, unchanged,
    afterwards. *)
Theorem existing_code_reused :
  (forall (r : Route) (st : Store) (userId raw : string) (req : ScanRequest)
          (year : Z) (row : CodeRecord.t),
      userId <> "" ->
      truthy (rawPayload req) = Some raw ->
      normalize r raw = Some (CodeRecord.id row) ->
      online st = true ->
      primaryKey st ->
      In row (codes st) ->
      (r = ApiQrScan -> CodeRecord.owner_user_id row = userId) ->
      exists answer st',
        run (POST r (Some userId) (Some req) year) st = (answer, st')
        /\ status answer = 200
        /\ field "code" (body answer) = Some (codeJson row)
        /\ codes st' = codes st)
  /\ (forall (r : Route) (st : Store) (userId : option string)
             (req : option ScanRequest) (year : Z),
         exists added,
           codes (snd (run (POST r userId req year) st))
           = (codes st ++ added)%list).
Proof.
  split; [|intros; apply run_codes_extend].
  intros r st userId raw req year row Hu Hraw Hnorm Hon Hpk Hin Hown.
  assert (Hexists : existsb (hasId (CodeRecord.id row)) (codes st) = true)
    by apply existsb_present, Hin.
  destruct r; cbn [POST normalize] in *.
  - unfold QrScanRoute.POST. rewrite (truthy_some _ Hu), Hraw, Hnorm.
    cbn [run exec]. rewrite Hon.
    rewrite (filter_unique row (ownedBy (Some userId)) (codes st) Hpk Hin).
    2:{ simpl. rewrite (Hown eq_refl). apply String.eqb_refl. }
    cbn [single]. unfold QrScanRoute.recordScan.
    cbn [run exec]. rewrite Hon, Hexists. cbn [run].
    eexists _, _. split; [reflexivity|]. repeat split.
  - unfold ScanEventsRoute.POST. rewrite (truthy_some _ Hu), Hraw.
    destruct (Qr.extractCodeId raw) as [c|]; [|discriminate].
    injection Hnorm as ->.
    cbn [run exec]. rewrite Hon.
    rewrite (filter_unique row (ownedBy None) (codes st) Hpk Hin eq_refl).
    cbn [single]. unfold ScanEventsRoute.recordScan.
    cbn [run exec]. rewrite Hon, Hexists. cbn [run].
    eexists _, _. split; [reflexivity|]. repeat split.
Qed.

Lemma existing_code_reused_witness :
  exists answer st',
    run (POST ApiScanEvents (Some "bob") (Some request) 2025) alice_store
    = (answer, st')
    /\ status answer = 200
    /\ field "code" (body answer) = Some (codeJson alice_row)
    /\ codes st' = codes alice_store.
Proof.
  apply (proj1 existing_code_reused ApiScanEvents alice_store "bob" "a6f3hw7l"
           request 2025%Z alice_row).
  - discriminate.
  - reflexivity.
  - reflexivity.
  - reflexivity.
  - repeat constructor. intros [].
  - left. reflexivity.
  - discriminate.
Defined.

(** C7: the public lookup takes no caller identity; for a canonical id that
    is in the store it answers with the fields [id], [system], [size],
    [year] and [created] of the row and nothing else, and for one that is
    not in the store with a 404. *)
Theorem public_lookup (st : Store) (codeId : string) :
  online st = true ->
  primaryKey st ->
  codeId <> "" ->
  JS.toUpperCase codeId = codeId ->
  (forall row,
      In row (codes st) -> CodeRecord.id row = codeId ->
      run (CodesRoute.GET codeId) st
      = (json (JObj [("id", JStr (CodeRecord.id row));
                     ("system", JStr (CodeRecord.system_acronym row));
                     ("size", JStr (CodeRecord.size row));
                     ("year", JNum (CodeRecord.year row));
                     ("created", JTime (CodeRecord.created_at row))]), st))
  /\ ((forall row, In row (codes st) -> CodeRecord.id row <> codeId) ->
      run (CodesRoute.GET codeId) st
      = (CodesRoute.failure "Code not found" 404, st)).
Proof.
  intros Hon Hpk Hne Hup.
  assert (Hrun : run (CodesRoute.GET codeId) st
                 = (match single (filter (fun r => hasId codeId r && true)
                                         (codes st)) with
                    | Data r =>
                        json (JObj [("id", JStr (CodeRecord.id r));
                                    ("system", JStr (CodeRecord.system_acronym r));
                                    ("size", JStr (CodeRecord.size r));
                                    ("year", JNum (CodeRecord.year r));
                                    ("created", JTime (CodeRecord.created_at r))])
                    | Error _ => CodesRoute.failure "Code not found" 404
                    end, st)).
  { unfold CodesRoute.GET. rewrite (truthy_some _ Hne), Hup.
    cbn [run exec]. rewrite Hon.
    rewrite (filter_ext (hasId codeId) (fun r => hasId codeId r && true))
      by (intros r; symmetry; apply andb_true_r).
    destruct (single _) as [r|e]; reflexivity. }
  rewrite Hrun. split.
  - intros row Hin <-.
    rewrite (filter_unique row (fun _ => true) (codes st) Hpk Hin eq_refl).
    reflexivity.
  - intros Habs. rewrite (filter_absent codeId (fun _ => true) _ Habs).
    reflexivity.
Qed.

Lemma public_lookup_witness :
  run (CodesRoute.GET "A6F3HW7L") alice_store
  = (json (JObj [("id", JStr "A6F3HW7L"); ("system", JStr "TMGS");
                 ("size", JStr "unspecified"); ("year", JNum 2025);
                 ("created", JTime 200%Z)]), alice_store).
Proof.
  refine (proj1 (public_lookup alice_store "A6F3HW7L" _ _ _ _) alice_row _ _).
  - reflexivity.
  - repeat constructor. intros [].
  - discriminate.
  - reflexivity.
  - left. reflexivity.
  - reflexivity.
Defined.

(** C9: the public lookup does not depend on the casing of the id it is
    given; a request with [codeId] is answered as the request with the
    upper-cased [codeId] is. *)
Theorem public_lookup_any_casing (st : Store) (codeId : string) :
  run (CodesRoute.GET codeId) st
  = run (CodesRoute.GET (JS.toUpperCase codeId)) st.
Proof.
  destruct codeId as [|c s]; [reflexivity|].
  unfold CodesRoute.GET.
  change (JS.toUpperCase (String c s))
    with (String (JS.upperChar c) (JS.toUpperCase s)).
  cbn [truthy].
  change (String (JS.upperChar c) (JS.toUpperCase s))
    with (JS.toUpperCase (String c s)).
  rewrite StringFacts.toUpperCase_idem. reflexivity.
Qed.

(** C6: for an authenticated caller the scan list is the caller's scan
    events, newest first, cut after 50.  The listed events and the ones left
    out are together exactly the events of the store that this caller
    scanned; the list holds 50 of them, or all when there are fewer; no
    event left out is newer than a listed one.  Each entry carries the [id],
    [code_id], [scanned_at] and [raw_payload] of its event and the caller as
    [scanned_by_user_id]; under [code] it carries the [id],
    [system_acronym], [size] and [year] of the Code row its [code_id] refers
    to, with the caller as [owner_user_id] and the time of the scan as
    [created_at], and it has no [code] when there is no such row. *)
Theorem scan_list (st : Store) (userId : string) :
  userId <> "" ->
  online st = true ->
  exists events rest,
    run (ScanEventsRoute.GET (Some userId)) st
    = (json (JArr (map (fun e => ScanEventsRoute.transform userId (embed st e))
                       events)), st)
    /\ Permutation (events ++ rest)
         (filter (scannedBy userId) (scan_events st))
    /\ List.length events
       = Nat.min 50
           (List.length (filter (scannedBy userId) (scan_events st)))
    /\ (forall e, In e events ->
          In e (scan_events st)
          /\ ScanEventRecord.scanned_by_user_id e = userId)
    /\ newestFirst events
    /\ (List.length events <= 50)%nat
    /\ (forall e', In e' (scan_events st) ->
          ScanEventRecord.scanned_by_user_id e' = userId ->
          In e' events
          \/ (In e' rest
              /\ forall e, In e events ->
                   (ScanEventRecord.scanned_at e'
                    <= ScanEventRecord.scanned_at e)%Z))
    /\ (forall e, In e events ->
          let entry := ScanEventsRoute.transform userId (embed st e) in
          field "id" entry = Some (JUuid (ScanEventRecord.id e))
          /\ field "code_id" entry = Some (JStr (ScanEventRecord.code_id e))
          /\ field "scanned_at" entry
             = Some (JTime (ScanEventRecord.scanned_at e))
          /\ field "raw_payload" entry
             = Some (JStr (ScanEventRecord.raw_payload e))
          /\ field "scanned_by_user_id" entry = Some (JStr userId)
          /\ match find (hasId (ScanEventRecord.code_id e)) (codes st) with
             | Some c =>
                 field "code" entry
                 = Some (JObj [("id", JStr (CodeRecord.id c));
                               ("system_acronym",
                                JStr (CodeRecord.system_acronym c));
                               ("size", JStr (CodeRecord.size c));
                               ("year", JNum (CodeRecord.year c));
                               ("owner_user_id", JStr userId);
                               ("created_at",
                                JTime (ScanEventRecord.scanned_at e))])
             | None => field "code" entry = None
             end).
Proof.
  intros Hu Hon.
  set (mine := filter (scannedBy userId) (scan_events st)).
  exists (firstn 50 (orderDesc mine)), (skipn 50 (orderDesc mine)).
  pose proof (firstn_skipn 50 (orderDesc mine)) as Hsplit.
  pose proof (orderDesc_sorted mine) as Hsorted.
  rewrite <- Hsplit in Hsorted.
  apply newestFirst_app in Hsorted as [Hfirst Hrest].
  assert (Hmine : forall e, In e (orderDesc mine) <->
                    In e (scan_events st)
                    /\ ScanEventRecord.scanned_by_user_id e = userId).
  { intros e. split.
    - intros H. apply (Permutation_in _ (orderDesc_perm mine)) in H.
      apply filter_In in H as [H1 H2]. split; [exact H1|].
      apply String.eqb_eq, H2.
    - intros [H1 H2].
      apply (Permutation_in _ (Permutation_sym (orderDesc_perm mine))).
      apply filter_In. split; [exact H1|]. apply String.eqb_eq, H2. }
  split; [|split; [|split; [|split; [|split; [|split; [|split]]]]]].
  - unfold ScanEventsRoute.GET. rewrite (truthy_some _ Hu).
    cbn [run exec]. rewrite Hon. cbn [run]. rewrite map_map. reflexivity.
  - rewrite Hsplit. apply orderDesc_perm.
  - rewrite length_firstn, (Permutation_length (orderDesc_perm mine)).
    reflexivity.
  - intros e He. apply Hmine. rewrite <- Hsplit.
    apply in_or_app. left. exact He.
  - exact Hfirst.
  - apply firstn_le_length.
  - intros e' Hin Hby.
    assert (H : In e' (orderDesc mine)) by (apply Hmine; auto).
    rewrite <- Hsplit in H. apply in_app_or in H as [H|H].
    + left. exact H.
    + right. split; [exact H|]. intros e He. apply Hrest; assumption.
  - intros e _. cbv zeta.
    unfold ScanEventsRoute.transform, embed.
    cbn [ScanEventRow.codes ScanEventRow.id ScanEventRow.code_id
         ScanEventRow.scanned_at ScanEventRow.raw_payload].
    destruct (find (hasId (ScanEventRecord.code_id e)) (codes st)) as [c|];
      repeat split.
Qed.

Lemma scan_list_witness :
  exists events rest,
    run (ScanEventsRoute.GET (Some "alice")) busy_store
    = (json (JArr (map (fun e => ScanEventsRoute.transform "alice"
                                   (embed busy_store e)) events)),
       busy_store)
    /\ Permutation (events ++ rest)
         (filter (scannedBy "alice") (scan_events busy_store))
    /\ List.length events
       = Nat.min 50
           (List.length (filter (scannedBy "alice") (scan_events busy_store)))
    /\ (forall e, In e events ->
          In e (scan_events busy_store)
          /\ ScanEventRecord.scanned_by_user_id e = "alice")
    /\ newestFirst events
    /\ (List.length events <= 50)%nat
    /\ (forall e', In e' (scan_events busy_store) ->
          ScanEventRecord.scanned_by_user_id e' = "alice" ->
          In e' events
          \/ (In e' rest
              /\ forall e, In e events ->
                   (ScanEventRecord.scanned_at e'
                    <= ScanEventRecord.scanned_at e)%Z))
    /\ (forall e, In e events ->
          let entry := ScanEventsRoute.transform "alice" (embed busy_store e) in
          field "id" entry = Some (JUuid (ScanEventRecord.id e))
          /\ field "code_id" entry = Some (JStr (ScanEventRecord.code_id e))
          /\ field "scanned_at" entry
             = Some (JTime (ScanEventRecord.scanned_at e))
          /\ field "raw_payload" entry
             = Some (JStr (ScanEventRecord.raw_payload e))
          /\ field "scanned_by_user_id" entry = Some (JStr "alice")
          /\ match find (hasId (ScanEventRecord.code_id e))
                     (codes busy_store) with
             | Some c =>
                 field "code" entry
                 = Some (JObj [("id", JStr (CodeRecord.id c));
                               ("system_acronym",
                                JStr (CodeRecord.system_acronym c));
                               ("size", JStr (CodeRecord.size c));
                               ("year", JNum (CodeRecord.year c));
                               ("owner_user_id", JStr "alice");
                               ("created_at",
                                JTime (ScanEventRecord.scanned_at e))])
             | None => field "code" entry = None
             end).
Proof.
  apply (scan_list busy_store "alice").
  - discriminate.
  - reflexivity.
Defined.

End RouteClaims.

(* ================================================================== *)
(** * More on the two normalizers *)
(* ================================================================== *)

Module NormalizerExtras.
Import JS Spec StringFacts QrFacts Normalizer.

Lemma dropWhile_all (p : ascii -> bool) (s : string) :
  allChars p s = true -> dropWhile p s = "".
Proof.
  induction s as [|c s IH]; simpl; [reflexivity|].
  intros H. apply andb_true_iff in H as [Hc Hs]. rewrite Hc. apply IH, Hs.
Qed.

Lemma dropWhile_app_all (p : ascii -> bool) (a s : string) :
  allChars p a = true -> dropWhile p (a ++ s) = dropWhile p s.
Proof.
  induction a as [|c a IH]; simpl; [reflexivity|].
  intros H. apply andb_true_iff in H as [Hc Ha]. rewrite Hc. apply IH, Ha.
Qed.

Lemma dropWhileEnd_all (p : ascii -> bool) (s : string) :
  allChars p s = true -> dropWhileEnd p s = "".
Proof.
  induction s as [|c s IH]; simpl; [reflexivity|].
  intros H. apply andb_true_iff in H as [Hc Hs].
  rewrite (IH Hs), Hc. reflexivity.
Qed.

Lemma dropWhileEnd_app_all (p : ascii -> bool) (s b : string) :
  allChars p b = true -> dropWhileEnd p (s ++ b) = dropWhileEnd p s.
Proof.
  intros Hb. induction s as [|c s IH]; simpl.
  - apply dropWhileEnd_all, Hb.
  - rewrite IH. reflexivity.
Qed.

(** White space around a text does not change what [trim] makes of it. *)
Lemma trim_padded (a x b : string) :
  allChars isWhiteSpace a = true -> allChars isWhiteSpace b = true ->
  trim (a ++ x ++ b) = trim x.
Proof.
  intros Ha Hb. unfold trim. rewrite (dropWhile_app_all _ a _ Ha).
  induction x as [|c x IH]; simpl.
  - rewrite (dropWhile_all _ b Hb). reflexivity.
  - destruct (isWhiteSpace c); [exact IH|].
    apply (dropWhileEnd_app_all isWhiteSpace (String c x) b Hb).
Qed.

Lemma append_nonempty (a x b : string) : x <> "" -> a ++ x ++ b <> "".
Proof.
  intros Hx E. destruct a; simpl in E; [|discriminate].
  destruct x; [congruence | discriminate].
Qed.

(** X1: white space around a payload is ignored by both normalizers. *)
Theorem surrounding_space_ignored (a x b : string) :
  allChars isWhiteSpace a = true ->
  allChars isWhiteSpace b = true ->
  x <> "" ->
  Qr.extractCodeId (a ++ x ++ b) = Qr.extractCodeId x
  /\ QrScan.extractCodeId (a ++ x ++ b) = QrScan.extractCodeId x.
Proof.
  intros Ha Hb Hx. split.
  - unfold Qr.extractCodeId. rewrite (trim_padded a x b Ha Hb).
    rewrite (nonempty_eqb _ (append_nonempty a x b Hx)), (nonempty_eqb _ Hx).
    reflexivity.
  - unfold QrScan.extractCodeId. rewrite (trim_padded a x b Ha Hb).
    reflexivity.
Qed.

Lemma surrounding_space_ignored_witness :
  Qr.extractCodeId ("  " ++ "a6f3hw7l" ++ " ") = Qr.extractCodeId "a6f3hw7l"
  /\ QrScan.extractCodeId ("  " ++ "a6f3hw7l" ++ " ")
     = QrScan.extractCodeId "a6f3hw7l".
Proof.
  apply (surrounding_space_ignored "  " "a6f3hw7l" " ").
  - reflexivity.
  - reflexivity.
  - discriminate.
Defined.

Lemma upperChar_space (c : ascii) : isWhiteSpace (upperChar c) = isWhiteSpace c.
Proof. by_char c. Qed.

Lemma upperChar_not_h (c : ascii) : (upperChar c =? "h")%char = false.
Proof. by_char c. Qed.

Lemma toUpperCase_empty (s : string) : (toUpperCase s =? "") = (s =? "").
Proof. destruct s; reflexivity. Qed.

Lemma dropWhile_upper (s : string) :
  dropWhile isWhiteSpace (toUpperCase s)
  = toUpperCase (dropWhile isWhiteSpace s).
Proof.
  induction s as [|c s IH]; simpl; [reflexivity|].
  rewrite upperChar_space. destruct (isWhiteSpace c); [exact IH | reflexivity].
Qed.

Lemma dropWhileEnd_upper (s : string) :
  dropWhileEnd isWhiteSpace (toUpperCase s)
  = toUpperCase (dropWhileEnd isWhiteSpace s).
Proof.
  unfold toUpperCase. induction s as [|c s IH]; simpl; [reflexivity|].
  rewrite IH, upperChar_space.
  change (mapChars upperChar (dropWhileEnd isWhiteSpace s))
    with (toUpperCase (dropWhileEnd isWhiteSpace s)).
  rewrite toUpperCase_empty.
  destruct (isWhiteSpace c && (dropWhileEnd isWhiteSpace s =? ""));
    reflexivity.
Qed.

Lemma trim_upper (s : string) : trim (toUpperCase s) = toUpperCase (trim s).
Proof. unfold trim. rewrite dropWhile_upper. apply dropWhileEnd_upper. Qed.

Lemma upper_not_url (t : string) :
  startsWith (toUpperCase t) "http://"
  || startsWith (toUpperCase t) "https://" = false.
Proof.
  destruct t as [|c t]; [reflexivity|].
  simpl. rewrite upperChar_not_h. reflexivity.
Qed.

(** X2: a payload that, once trimmed, does not start with [http://] or
    [https://] is read without regard to case: upper-cased, it gives the
    same identifier or the same error. *)
Theorem plain_payload_case_insensitive (x : string) :
  startsWith (trim x) "http://" || startsWith (trim x) "https://" = false ->
  Qr.extractCodeId (toUpperCase x) = Qr.extractCodeId x.
Proof.
  intros Hp. unfold Qr.extractCodeId.
  rewrite trim_upper, !toUpperCase_empty. unfold Qr.candidateOf.
  rewrite Hp, upper_not_url, toUpperCase_idem. reflexivity.
Qed.

Lemma plain_payload_case_insensitive_witness :
  Qr.extractCodeId (toUpperCase "a6f3hw7l") = Qr.extractCodeId "a6f3hw7l".
Proof.
  apply (plain_payload_case_insensitive "a6f3hw7l"). reflexivity.
Defined.

(** X3: whatever [extractCodeId] of [lib/qr.ts] returns, from a plain payload
    or from a URL, has 6 to 32 characters, each of A-Z or 0-9, and is left
    as it is by [trim] and by [toUpperCase]. *)
Theorem extractCodeId_result_canonical (raw id : string) :
  Qr.extractCodeId raw = Qr.Returns id ->
  allChars isCodeChar id = true
  /\ (6 <= String.length id <= 32)%nat
  /\ trim id = id
  /\ toUpperCase id = id.
Proof.
  intros H. destruct (extractCodeId_canonical raw id H) as [Hall [Hmin Hmax]].
  repeat split; try assumption.
  - apply trim_code, Hall.
  - apply toUpperCase_code, Hall.
Qed.

Lemma extractCodeId_result_canonical_witness :
  allChars isCodeChar "C8H5KY0N" = true
  /\ (6 <= String.length "C8H5KY0N" <= 32)%nat
  /\ trim "C8H5KY0N" = "C8H5KY0N"
  /\ toUpperCase "C8H5KY0N" = "C8H5KY0N".
Proof.
  apply (extractCodeId_result_canonical "https://host/path?code=c8h5ky0n").
  reflexivity.
Defined.

(** X4: on a payload that, once trimmed, does not start with [http://] or
    [https://], [isValidCodeId] of [lib/qr.ts] says whether the payload,
    trimmed and upper-cased, is a canonical identifier. *)
Theorem isValidCodeId_plain (x : string) :
  startsWith (trim x) "http://" || startsWith (trim x) "https://" = false ->
  Qr.isValidCodeId x = true <-> canonical (toUpperCase (trim x)).
Proof.
  intros Hp. unfold Qr.isValidCodeId, Qr.extractCodeId, Qr.candidateOf.
  rewrite Hp.
  assert (Hshort : forall t, t = "" -> ~ canonical (toUpperCase t)).
  { intros t -> [_ [H _]]. simpl in H. lia. }
  destruct (x =? "") eqn:Ex.
  { apply String.eqb_eq in Ex. subst x. split; [discriminate|].
    intros H. exfalso. revert H. apply Hshort. reflexivity. }
  destruct (trim x =? "") eqn:Et.
  { apply String.eqb_eq in Et. split; [discriminate|].
    intros H. exfalso. revert H. apply Hshort, Et. }
  destruct (Qr.validateCodeId (toUpperCase (trim x))) as [id|e] eqn:Ev.
  - apply validateCodeId_returns in Ev as [-> Hc]. tauto.
  - split; [discriminate|]. intros Hc.
    assert (Qr.validateCodeId (toUpperCase (trim x))
            = Qr.Returns (toUpperCase (trim x)))
      by (apply validateCodeId_returns; auto).
    congruence.
Qed.

Lemma isValidCodeId_plain_witness :
  Qr.isValidCodeId " a6f3hw7l " = true
  <-> canonical (toUpperCase (trim " a6f3hw7l ")).
Proof. apply (isValidCodeId_plain " a6f3hw7l "). reflexivity. Defined.

Lemma codeChar_upper_not_space (c : ascii) :
  isCodeChar (upperChar c) = true -> negb (isWhiteSpace c) = true.
Proof. by_char c. Qed.

Lemma allChars_mapChars (p : ascii -> bool) (f : ascii -> ascii) (s : string) :
  allChars p (mapChars f s) = allChars (fun c => p (f c)) s.
Proof. induction s as [|c s IH]; simpl; [reflexivity|]. rewrite IH. reflexivity. Qed.

(** What the route's [isValidCodeId] accepts: no white space, and 6 to 12
    characters that are of A-Z or 0-9 once upper-cased. *)
Lemma route_valid (x : string) :
  QrScan.isValidCodeId x = true ->
  allChars isCodeChar (toUpperCase x) = true
  /\ (6 <= String.length (toUpperCase x) <= 12)%nat
  /\ trim x = x.
Proof.
  unfold QrScan.isValidCodeId. fold isCodeChar. intros H.
  apply andb_true_iff in H as [H Hmax].
  apply andb_true_iff in H as [Hall Hmin].
  apply Nat.leb_le in Hmin, Hmax. repeat split; try assumption.
  assert (Hs : allChars (fun c => negb (isWhiteSpace c)) x = true).
  { unfold toUpperCase in Hall. rewrite allChars_mapChars in Hall.
    revert Hall. apply allChars_impl, codeChar_upper_not_space. }
  unfold trim. rewrite (dropWhile_none _ _ Hs). apply dropWhileEnd_none, Hs.
Qed.

Lemma route_result (raw id : string) :
  QrScan.extractCodeId raw = Some id ->
  exists x, QrScan.isValidCodeId x = true /\ id = toUpperCase x.
Proof.
  unfold QrScan.extractCodeId.
  set (plain := if QrScan.isValidCodeId (trim raw)
                then Some (toUpperCase (trim raw)) else None).
  assert (Hplain : plain = Some id ->
            exists x, QrScan.isValidCodeId x = true /\ id = toUpperCase x).
  { unfold plain. destruct (QrScan.isValidCodeId (trim raw)) eqn:E;
      [|discriminate].
    intros [= <-]. eauto. }
  destruct (URL.new (trim raw)) as [url|]; [|exact Hplain].
  unfold QrScan.fromUrl.
  set (segments := filter _ _).
  set (fromPath := if (0 <? Datatypes.length segments)%nat
                   then if QrScan.isValidCodeId (last segments "")
                        then Some (toUpperCase (last segments ""))
                        else None
                   else None).
  assert (Hpath : match fromPath with Some c => Some c | None => plain end
                  = Some id ->
            exists x, QrScan.isValidCodeId x = true /\ id = toUpperCase x).
  { unfold fromPath.
    destruct (0 <? Datatypes.length segments)%nat; [|exact Hplain].
    destruct (QrScan.isValidCodeId (last segments "")) eqn:E; [|exact Hplain].
    intros [= <-]. eauto. }
  destruct (URL.searchParams_get url "code") as [codeParam|]; [|exact Hpath].
  destruct (negb (codeParam =? "") && QrScan.isValidCodeId codeParam) eqn:E;
    [|exact Hpath].
  apply andb_true_iff in E as [_ E]. intros [= <-]. eauto.
Qed.

(** X5: whatever the normalizer of [/api/qr/scan] returns, from the plain
    text, the [code] parameter or the path, has 6 to 12 characters, each of
    A-Z or 0-9. *)
Theorem route_result_bounds (raw id : string) :
  QrScan.extractCodeId raw = Some id ->
  allChars isCodeChar id = true /\ (6 <= String.length id <= 12)%nat.
Proof.
  intros H. destruct (route_result raw id H) as [x [Hx ->]].
  destruct (route_valid x Hx) as [Hall [Hlen _]]. auto.
Qed.

Lemma route_result_bounds_witness :
  allChars isCodeChar "B7G4JX9M" = true
  /\ (6 <= String.length "B7G4JX9M" <= 12)%nat.
Proof.
  apply (route_result_bounds "https://host/s/b7g4jx9m?code=TOO"). reflexivity.
Defined.

Lemma valid_is_lib_result (x : string) :
  QrScan.isValidCodeId x = true ->
  Qr.validateCodeId (toUpperCase x) = Qr.Returns (toUpperCase x)
  /\ x <> ""
  /\ startsWith x "http://" || startsWith x "https://" = false.
Proof.
  intros Hx. destruct (route_valid x Hx) as [Hall [[Hmin Hmax] _]].
  split; [|split].
  - apply validateCodeId_returns. split; [reflexivity|].
    repeat split; [exact Hall | exact Hmin | lia].
  - apply length_nonempty. unfold toUpperCase in Hmin.
    rewrite mapChars_length in Hmin. lia.
  - destruct (startsWith x "http://" || startsWith x "https://") eqn:E;
      [|reflexivity].
    rewrite (url_prefix_not_code x E) in Hall. discriminate.
Qed.

(** X6: a string that [isValidCodeId] of [/api/qr/scan] accepts is accepted
    by [extractCodeId] of [lib/qr.ts], which returns it upper-cased. *)
Theorem route_valid_is_lib_valid (x : string) :
  QrScan.isValidCodeId x = true ->
  Qr.extractCodeId x = Qr.Returns (toUpperCase x)
  /\ Qr.isValidCodeId x = true.
Proof.
  intros Hx. destruct (valid_is_lib_result x Hx) as [Hv [Hne Hp]].
  destruct (route_valid x Hx) as [_ [_ Ht]].
  assert (H : Qr.extractCodeId x = Qr.Returns (toUpperCase x)).
  { unfold Qr.extractCodeId, Qr.candidateOf.
    rewrite Ht, (nonempty_eqb x Hne), Hp. exact Hv. }
  split; [exact H|]. unfold Qr.isValidCodeId. rewrite H. reflexivity.
Qed.

Lemma route_valid_is_lib_valid_witness :
  Qr.extractCodeId "a6f3hw7l" = Qr.Returns (toUpperCase "a6f3hw7l")
  /\ Qr.isValidCodeId "a6f3hw7l" = true.
Proof. apply (route_valid_is_lib_valid "a6f3hw7l"). reflexivity. Defined.

(** X7: on a payload that, once trimmed, starts with [http://] or
    [https://] and parses as a URL whose [code] parameter is missing, empty
    or valid for the route, an identifier that the normalizer of
    [/api/qr/scan] extracts is the one [extractCodeId] of [lib/qr.ts]
    extracts. *)
Theorem url_route_result_is_lib_result (raw id : string) (url : URL.t) :
  startsWith (trim raw) "http://" || startsWith (trim raw) "https://" = true ->
  URL.new (trim raw) = Some url ->
  match URL.searchParams_get url "code" with
  | Some codeParam => codeParam = "" \/ QrScan.isValidCodeId codeParam = true
  | None => True
  end ->
  QrScan.extractCodeId raw = Some id ->
  Qr.extractCodeId raw = Qr.Returns id.
Proof.
  intros Hp Hurl Hcode.
  assert (Ht : trim raw <> "").
  { intros E. rewrite E in Hp. discriminate. }
  unfold Qr.extractCodeId, QrScan.extractCodeId.
  rewrite (nonempty_eqb raw (trim_empty_raw raw Ht)), (nonempty_eqb _ Ht).
  unfold Qr.candidateOf. rewrite Hp, Hurl.
  assert (Hnot : QrScan.isValidCodeId (trim raw) = false).
  { destruct (QrScan.isValidCodeId (trim raw)) eqn:E; [|reflexivity].
    destruct (valid_is_lib_result _ E) as [_ [_ H]]. congruence. }
  rewrite Hnot. unfold QrScan.fromUrl.
  rewrite filter_nonempty_segments.
  set (segments := filter (fun segment => negb (segment =? "")) _).
  assert (Hpath :
            match (if (0 <? Datatypes.length segments)%nat
                   then if QrScan.isValidCodeId (last segments "")
                        then Some (toUpperCase (last segments ""))
                        else None
                   else None) with
            | Some c => Some c
            | None => None
            end = Some id ->
            match (if (Datatypes.length segments =? 0)%nat
                   then Qr.Throws Qr.NoPathSegments
                   else Qr.Returns (toUpperCase (trim (last segments "")))) with
            | Qr.Throws e => Qr.Throws e
            | Qr.Returns codeId => Qr.validateCodeId codeId
            end = Qr.Returns id).
  { destruct segments as [|seg segments'] eqn:Es; [discriminate|].
    rewrite <- Es.
    assert (Hl : (0 <? Datatypes.length segments)%nat = true)
      by (rewrite Es; reflexivity).
    assert (Hz : (Datatypes.length segments =? 0)%nat = false)
      by (rewrite Es; reflexivity).
    rewrite Hl, Hz.
    destruct (QrScan.isValidCodeId (last segments "")) eqn:E; [|discriminate].
    intros [= <-].
    destruct (route_valid _ E) as [_ [_ Htrim]]. rewrite Htrim.
    apply (valid_is_lib_result _ E). }
  destruct (URL.searchParams_get url "code") as [codeParam|]; [|exact Hpath].
  destruct Hcode as [-> | Hv]; [exact Hpath|].
  destruct (valid_is_lib_result _ Hv) as [Hres [Hne _]].
  destruct (route_valid _ Hv) as [_ [_ Htrim]].
  rewrite (nonempty_eqb _ Hne), Hv. cbn [negb andb].
  destruct codeParam as [|c q]; [congruence|].
  rewrite Htrim. intros [= <-]. exact Hres.
Qed.

Lemma url_route_result_is_lib_result_witness :
  Qr.extractCodeId "https://host/s/b7g4jx9m" = Qr.Returns "B7G4JX9M".
Proof.
  apply (url_route_result_is_lib_result "https://host/s/b7g4jx9m" "B7G4JX9M"
           (URL.mk "https" (URL.Segments ["s"; "b7g4jx9m"]) None)).
  - reflexivity.
  - reflexivity.
  - exact I.
  - reflexivity.
Defined.

End NormalizerExtras.

(* ================================================================== *)
(** * A scan-record request served alone *)
(* ================================================================== *)

Module RouteExtras.
Import Db Spec Invariants StoreFacts.

Lemma truthy_some' (s : string) : s <> "" -> truthy (Some s) = Some s.
Proof. destruct s; [congruence | reflexivity]. Qed.

Lemma truthy_inv (v : option string) (s : string) :
  truthy v = Some s -> v = Some s /\ s <> "".
Proof.
  destruct v as [[|c t]|]; simpl; try discriminate.
  intros [= <-]. split; [reflexivity | discriminate].
Qed.

(** Both routes after the checks of the request: the lookup, the insert
    when nothing is found, and the recording of the scan. *)
Lemma POST_resolve (r : Route) (userId : option string)
    (req : ScanRequest) (year : Z) (u raw codeId : string) :
  truthy userId = Some u ->
  truthy (rawPayload req) = Some raw ->
  normalize r raw = Some codeId ->
  POST r userId (Some req) year
  = Await (lookup r codeId u)
      (fun existing =>
         let recordScan row :=
           Await (InsertScanEvent codeId u raw)
             (fun scan =>
                match scan with
                | Error _ =>
                    Done (match r with
                          | ApiQrScan =>
                              QrScanRoute.failure
                                "Database error while recording scan event" 500
                          | ApiScanEvents =>
                              ScanEventsRoute.failure
                                "Database error while recording scan" 500
                          end)
                | Data scanEvent => Done (success r row scanEvent)
                end) in
         match existing with
         | Error Unavailable | Error UniqueViolation
         | Error ForeignKeyViolation => Done (lookupFailure r)
         | Data existingCode => recordScan existingCode
         | Error PGRST116 =>
             Await (insert r codeId req year u)
               (fun inserted =>
                  match inserted with
                  | Error _ => Done (createFailure r)
                  | Data newCode => recordScan newCode
                  end)
         end).
Proof.
  intros Hu Hraw Hnorm. destruct r; cbn [POST normalize] in *.
  - unfold QrScanRoute.POST. rewrite Hu, Hraw, Hnorm.
    unfold QrScanRoute.recordScan. cbn [lookup insert].
    f_equal.
  - unfold ScanEventsRoute.POST. rewrite Hu, Hraw.
    destruct (Qr.extractCodeId raw) as [c|]; [|discriminate].
    injection Hnorm as ->.
    unfold ScanEventsRoute.recordScan. cbn [lookup insert].
    f_equal.
Qed.

Lemma exec_lookup (r : Route) (codeId u : string) (st : Store) :
  exec (lookup r codeId u) st
  = (if online st then single (selected r codeId u st) else Error Unavailable,
     st).
Proof. destruct r; simpl; destruct (online st); reflexivity. Qed.

Lemma exec_insert (r : Route) (codeId : string) (req : ScanRequest) (year : Z)
    (u : string) (st : Store) :
  exec (insert r codeId req year u) st
  = if online st then
      if existsb (hasId codeId) (codes st) then (Error UniqueViolation, st)
      else (Data (created r st codeId req year u),
            mkStore (codes st ++ [created r st codeId req year u])
              (scan_events st) (now st) (next_uuid st) (online st))
    else (Error Unavailable, st).
Proof. destruct r; reflexivity. Qed.

Lemma single_cases {A : Type} (l : list A) :
  (exists row, l = [row] /\ single l = Data row)
  \/ single l = Error PGRST116.
Proof.
  destruct l as [|row [|row' l]]; [right | left | right]; try reflexivity.
  exists row. split; reflexivity.
Qed.

Lemma selected_present (r : Route) (codeId u : string) (st : Store)
    (row : CodeRecord.t) :
  In row (selected r codeId u st) ->
  In row (codes st) /\ CodeRecord.id row = codeId
  /\ existsb (hasId codeId) (codes st) = true.
Proof.
  unfold selected. intros H. apply filter_In in H as [Hin H].
  apply andb_true_iff in H as [Hid _].
  split; [exact Hin|]. split; [apply String.eqb_eq, Hid|].
  apply existsb_exists. exists row. auto.
Qed.

Section Served.

Variables (r : Route) (userId : option string) (req : ScanRequest) (year : Z).
Variables (u raw codeId : string) (st : Store).
Hypothesis Hu : truthy userId = Some u.
Hypothesis Hraw : truthy (rawPayload req) = Some raw.
Hypothesis Hnorm : normalize r raw = Some codeId.

(** The store does not answer. *)
Lemma run_offline :
  online st = false ->
  run (POST r userId (Some req) year) st = (lookupFailure r, st).
Proof.
  intros Hoff. rewrite (POST_resolve r userId req year u raw codeId Hu Hraw Hnorm).
  cbn [run]. rewrite exec_lookup, Hoff. reflexivity.
Qed.

(** The lookup finds the row. *)
Lemma run_found (row : CodeRecord.t) :
  online st = true ->
  selected r codeId u st = [row] ->
  run (POST r userId (Some req) year) st
  = (success r row (recorded st codeId u raw),
     scanAdded st (codes st) (recorded st codeId u raw)).
Proof.
  intros Hon Hsel.
  destruct (selected_present r codeId u st row) as [_ [_ Hex]].
  { rewrite Hsel. left. reflexivity. }
  rewrite (POST_resolve r userId req year u raw codeId Hu Hraw Hnorm).
  cbn [run]. rewrite exec_lookup, Hon, Hsel. cbn [single run exec].
  rewrite Hon, Hex. unfold scanAdded. rewrite Hon. reflexivity.
Qed.

(** The lookup finds nothing and no row has the id: the row is created. *)
Lemma run_created :
  online st = true ->
  single (selected r codeId u st) = Error PGRST116 ->
  existsb (hasId codeId) (codes st) = false ->
  run (POST r userId (Some req) year) st
  = (success r (created r st codeId req year u) (recorded st codeId u raw),
     scanAdded st (codes st ++ [created r st codeId req year u])
       (recorded st codeId u raw)).
Proof.
  intros Hon Hsel Hex.
  rewrite (POST_resolve r userId req year u raw codeId Hu Hraw Hnorm).
  cbn [run]. rewrite exec_lookup, Hon, Hsel. cbn [run].
  rewrite exec_insert, Hon, Hex. cbn [run exec online codes].
  rewrite ?Hon, existsb_app.
  assert (Hid : hasId codeId (created r st codeId req year u) = true)
    by (destruct r; apply String.eqb_refl).
  cbn [existsb]. rewrite Hid, orb_true_r.
  unfold scanAdded. rewrite Hon. reflexivity.
Qed.

(** The lookup finds nothing but a row has the id: the insert fails. *)
Lemma run_conflict :
  online st = true ->
  single (selected r codeId u st) = Error PGRST116 ->
  existsb (hasId codeId) (codes st) = true ->
  run (POST r userId (Some req) year) st = (createFailure r, st).
Proof.
  intros Hon Hsel Hex.
  rewrite (POST_resolve r userId req year u raw codeId Hu Hraw Hnorm).
  cbn [run]. rewrite exec_lookup, Hon, Hsel. cbn [run].
  rewrite exec_insert, Hon, Hex. reflexivity.
Qed.

End Served.

Lemma status_success (r : Route) row e : status (success r row e) = 200.
Proof. destruct r; reflexivity. Qed.

Lemma status_lookupFailure (r : Route) : status (lookupFailure r) = 500.
Proof. destruct r; reflexivity. Qed.

Lemma status_createFailure (r : Route) : status (createFailure r) = 500.
Proof. destruct r; reflexivity. Qed.

(** The ways a scan-record request served alone can end. *)
Lemma POST_cases (r : Route) (userId : option string)
    (req : option ScanRequest) (year : Z) (st : Store) :
  let answer := fst (run (POST r userId req year) st) in
  let st' := snd (run (POST r userId req year) st) in
  (truthy userId = None /\ status answer = 401 /\ st' = st)
  \/ (exists u, truthy userId = Some u /\ req = None
                /\ (status answer = 400 \/ status answer = 500) /\ st' = st)
  \/ (exists u rq, truthy userId = Some u /\ req = Some rq
        /\ match truthy (rawPayload rq) with
           | Some raw => normalize r raw = None
           | None => True
           end
        /\ status answer = 400 /\ st' = st)
  \/ (exists u rq raw codeId,
        truthy userId = Some u /\ req = Some rq
        /\ truthy (rawPayload rq) = Some raw
        /\ normalize r raw = Some codeId
        /\ ((status answer = 500 /\ st' = st)
            \/ (status answer = 200 /\ online st = true
                /\ exists row,
                    answer = success r row (recorded st codeId u raw)
                    /\ ((selected r codeId u st = [row]
                         /\ st' = scanAdded st (codes st)
                                  (recorded st codeId u raw))
                        \/ (existsb (hasId codeId) (codes st) = false
                            /\ row = created r st codeId rq year u
                            /\ st' = scanAdded st (codes st ++ [row])
                                     (recorded st codeId u raw)))))).
Proof.
  cbv zeta.
  destruct (truthy userId) as [u|] eqn:Hu.
  2:{ left. destruct r; cbn [POST];
        [unfold QrScanRoute.POST | unfold ScanEventsRoute.POST];
        rewrite Hu; auto. }
  right. destruct req as [rq|].
  2:{ left. exists u. destruct r; cbn [POST];
        [unfold QrScanRoute.POST | unfold ScanEventsRoute.POST];
        rewrite Hu; cbn; auto. }
  right. destruct (truthy (rawPayload rq)) as [raw|] eqn:Hraw.
  2:{ left. exists u, rq. rewrite Hraw.
      destruct r; cbn [POST];
        [unfold QrScanRoute.POST | unfold ScanEventsRoute.POST];
        rewrite Hu, Hraw; cbn; auto. }
  destruct (normalize r raw) as [codeId|] eqn:Hnorm.
  2:{ left. exists u, rq. rewrite Hraw.
      destruct r; cbn [POST normalize] in *;
        [unfold QrScanRoute.POST | unfold ScanEventsRoute.POST];
        rewrite Hu, Hraw.
      - rewrite Hnorm. cbn. auto.
      - destruct (Qr.extractCodeId raw); [discriminate|]. cbn. auto. }
  right. exists u, rq, raw, codeId. repeat (split; [reflexivity || assumption|]).
  destruct (online st) eqn:Hon.
  2:{ left. rewrite (run_offline r userId rq year u raw codeId st Hu Hraw Hnorm Hon).
      split; [apply status_lookupFailure | reflexivity]. }
  destruct (single_cases (selected r codeId u st)) as [[row [Hsel _]]|Hsel].
  { right.
    rewrite (run_found r userId rq year u raw codeId st Hu Hraw Hnorm row Hon Hsel).
    split; [apply status_success|]. split; [reflexivity|].
    exists row. split; [reflexivity|]. left. auto. }
  destruct (existsb (hasId codeId) (codes st)) eqn:Hex.
  { left.
    rewrite (run_conflict r userId rq year u raw codeId st Hu Hraw Hnorm Hon Hsel Hex).
    split; [apply status_createFailure | reflexivity]. }
  right.
  rewrite (run_created r userId rq year u raw codeId st Hu Hraw Hnorm Hon Hsel Hex).
  split; [apply status_success|]. split; [reflexivity|].
  eexists. split; [reflexivity|]. right. auto.
Qed.

(** A scan-record request served alone by a store whose availability does
    not change while the request is served is all or nothing: either it is
    answered 200 and adds exactly one scan event and at most one Code row,
    or it is answered 400, 401 or 500 and leaves the store as it was. *)
Lemma served_alone_all_or_nothing (r : Route) (userId : option string)
    (req : option ScanRequest) (year : Z) (st : Store) :
  let answer := fst (run (POST r userId req year) st) in
  let st' := snd (run (POST r userId req year) st) in
  (status answer = 200
   /\ exists u rq raw codeId,
       truthy userId = Some u /\ req = Some rq
       /\ truthy (rawPayload rq) = Some raw
       /\ normalize r raw = Some codeId
       /\ scan_events st'
          = (scan_events st
             ++ [ScanEventRecord.mk (next_uuid st) codeId u (now st) raw])%list
       /\ (codes st' = codes st
           \/ codes st'
              = (codes st ++ [created r st codeId rq year u])%list))
  \/ ((status answer = 400 \/ status answer = 401 \/ status answer = 500)
      /\ st' = st).
Proof.
  cbv zeta.
  destruct (POST_cases r userId req year st)
    as [[_ [H1 H2]] | [[u [_ [_ [H1 H2]]]]
       | [[u [rq [_ [_ [_ [H1 H2]]]]]]
       | [u [rq [raw [codeId [Hu [Hreq [Hraw [Hnorm H]]]]]]]]]]].
  - right. auto.
  - right. split; [tauto | exact H2].
  - right. auto.
  - destruct H as [[H1 H2] | [H1 [_ [row [_ H]]]]].
    + right. auto.
    + left. split; [exact H1|]. exists u, rq, raw, codeId.
      repeat (split; [assumption|]).
      destruct H as [[_ ->] | [_ [-> ->]]]; (split; [reflexivity|]); auto.
Qed.

Lemma selected_none (r : Route) (codeId u : string) (st : Store) :
  (forall row, In row (codes st) -> CodeRecord.id row = codeId ->
     ownedBy (lookupOwner r u) row = false) ->
  selected r codeId u st = [].
Proof.
  unfold selected. intros H. induction (codes st) as [|x l IH]; [reflexivity|].
  simpl. destruct (hasId codeId x) eqn:E.
  - apply String.eqb_eq in E. rewrite (H x (or_introl eq_refl) E). simpl.
    apply IH. intros row Hin. apply H. right. exact Hin.
  - simpl. apply IH. intros row Hin. apply H. right. exact Hin.
Qed.

Lemma absent_existsb (codeId : string) (l : list CodeRecord.t) :
  (forall row, In row l -> CodeRecord.id row <> codeId) ->
  existsb (hasId codeId) l = false.
Proof.
  intros H. destruct (existsb (hasId codeId) l) eqn:E; [|reflexivity].
  apply existsb_exists in E as [row [Hin Hid]].
  apply String.eqb_eq in Hid. exfalso. exact (H row Hin Hid).
Qed.

(** X10: the first scan of an identifier creates its Code row, owned by the
    caller, with the year of the request and the time of the store.  Its
    system and size are "TMGS" and "unspecified" on [/api/scan-events]; on
    [/api/qr/scan] they are the strings the request gives as
    [systemAcronym] and [size], those defaults standing in for a property
    that is missing, [null] or empty.  The answer is a 200 that carries the
    new row, and the scan is recorded. *)
Theorem first_scan_creates (r : Route) (u raw codeId : string)
    (rq : ScanRequest) (year : Z) (st : Store) :
  u <> "" ->
  truthy (rawPayload rq) = Some raw ->
  normalize r raw = Some codeId ->
  online st = true ->
  (forall row, In row (codes st) -> CodeRecord.id row <> codeId) ->
  let row :=
    match r with
    | ApiQrScan =>
        CodeRecord.mk codeId (orElse (systemAcronym rq) "TMGS")
          (orElse (size rq) "unspecified") year u (now st)
    | ApiScanEvents =>
        CodeRecord.mk codeId "TMGS" "unspecified" year u (now st)
    end in
  let answer := fst (run (POST r (Some u) (Some rq) year) st) in
  let st' := snd (run (POST r (Some u) (Some rq) year) st) in
  status answer = 200
  /\ field "code" (body answer) = Some (codeJson row)
  /\ codes st' = (codes st ++ [row])%list
  /\ scan_events st'
     = (scan_events st
        ++ [ScanEventRecord.mk (next_uuid st) codeId u (now st) raw])%list.
Proof.
  intros Hu Hraw Hnorm Hon Habs. cbv zeta.
  assert (Hsel : single (selected r codeId u st) = Error PGRST116).
  { rewrite selected_none; [reflexivity|].
    intros row Hin Hid. exfalso. exact (Habs row Hin Hid). }
  rewrite (run_created r (Some u) rq year u raw codeId st
             (truthy_some' u Hu) Hraw Hnorm Hon Hsel
             (absent_existsb codeId _ Habs)).
  destruct r; repeat split.
Qed.

Lemma first_scan_creates_witness :
  let rq := mkScanRequest (Some "a6f3hw7l") (Some "large") (Some "") in
  let row := CodeRecord.mk "A6F3HW7L" "TMGS" "large" 2025%Z "alice" 200%Z in
  let answer :=
    fst (run (POST ApiQrScan (Some "alice") (Some rq) 2025)
           Examples.empty_store) in
  let st' :=
    snd (run (POST ApiQrScan (Some "alice") (Some rq) 2025)
           Examples.empty_store) in
  status answer = 200
  /\ field "code" (body answer) = Some (codeJson row)
  /\ codes st' = ([] ++ [row])%list
  /\ scan_events st'
     = ([] ++ [ScanEventRecord.mk 7%N "A6F3HW7L" "alice" 200%Z "a6f3hw7l"])%list.
Proof.
  apply (first_scan_creates ApiQrScan "alice" "a6f3hw7l" "A6F3HW7L"
           (mkScanRequest (Some "a6f3hw7l") (Some "large") (Some ""))
           2025%Z Examples.empty_store).
  - discriminate.
  - reflexivity.
  - reflexivity.
  - reflexivity.
  - intros row [].
Defined.

(** X11: two scans of an identifier that was not in the store, one after the
    other, by the same caller or, on [/api/scan-events], by any two
    callers: one Code row is created, by the first scan; the second scan
    is answered with that row, whatever size, system or year it comes with,
    and both scans are recorded. *)
Theorem scan_twice_one_row (r : Route) (u u2 raw raw2 codeId : string)
    (rq rq2 : ScanRequest) (year year2 : Z) (st : Store) :
  u <> "" -> u2 <> "" ->
  truthy (rawPayload rq) = Some raw ->
  truthy (rawPayload rq2) = Some raw2 ->
  normalize r raw = Some codeId ->
  normalize r raw2 = Some codeId ->
  online st = true ->
  (forall row, In row (codes st) -> CodeRecord.id row <> codeId) ->
  (r = ApiQrScan -> u2 = u) ->
  let first := run (POST r (Some u) (Some rq) year) st in
  let second := run (POST r (Some u2) (Some rq2) year2) (snd first) in
  let row := created r st codeId rq year u in
  status (fst first) = 200 /\ status (fst second) = 200
  /\ field "code" (body (fst first)) = Some (codeJson row)
  /\ field "code" (body (fst second)) = Some (codeJson row)
  /\ codes (snd second) = (codes st ++ [row])%list
  /\ scan_events (snd second)
     = (scan_events st
        ++ [ScanEventRecord.mk (next_uuid st) codeId u (now st) raw;
            ScanEventRecord.mk (N.succ (next_uuid st)) codeId u2 (now st) raw2])%list.
Proof.
  intros Hu Hu2 Hraw Hraw2 Hnorm Hnorm2 Hon Habs Hsame. cbv zeta.
  assert (Hsel : single (selected r codeId u st) = Error PGRST116).
  { rewrite selected_none; [reflexivity|].
    intros row Hin Hid. exfalso. exact (Habs row Hin Hid). }
  rewrite (run_created r (Some u) rq year u raw codeId st
             (truthy_some' u Hu) Hraw Hnorm Hon Hsel
             (absent_existsb codeId _ Habs)).
  cbn [fst snd].
  set (row := created r st codeId rq year u).
  set (st1 := scanAdded st (codes st ++ [row]) (recorded st codeId u raw)).
  assert (Hsel2 : selected r codeId u2 st1 = [row]).
  { unfold selected, st1, scanAdded. cbn [codes]. rewrite filter_app.
    fold (selected r codeId u2 st). rewrite selected_none.
    2:{ intros x Hin Hid. exfalso. exact (Habs x Hin Hid). }
    cbn [filter app].
    assert (Hrow : hasId codeId row && ownedBy (lookupOwner r u2) row = true).
    { unfold row. destruct r; cbn.
      - rewrite (Hsame eq_refl), !String.eqb_refl. reflexivity.
      - rewrite String.eqb_refl. reflexivity. }
    rewrite Hrow. reflexivity. }
  rewrite (run_found r (Some u2) rq2 year2 u2 raw2 codeId st1
             (truthy_some' u2 Hu2) Hraw2 Hnorm2 row Hon Hsel2).
  cbn [fst snd].
  repeat split; try apply status_success.
  - destruct r; reflexivity.
  - destruct r; reflexivity.
  - unfold st1, scanAdded, recorded. cbn [scan_events next_uuid now].
    rewrite <- app_assoc. reflexivity.
Qed.

Lemma scan_twice_one_row_witness :
  let first :=
    run (POST ApiScanEvents (Some "alice") (Some Examples.request) 2025)
      Examples.empty_store in
  let second :=
    run (POST ApiScanEvents (Some "bob")
           (Some (mkScanRequest (Some " A6F3HW7L") (Some "XL") None)) 2026)
      (snd first) in
  let row :=
    created ApiScanEvents Examples.empty_store "A6F3HW7L" Examples.request
      2025 "alice" in
  status (fst first) = 200 /\ status (fst second) = 200
  /\ field "code" (body (fst first)) = Some (codeJson row)
  /\ field "code" (body (fst second)) = Some (codeJson row)
  /\ codes (snd second) = ([] ++ [row])%list
  /\ scan_events (snd second)
     = ([] ++ [ScanEventRecord.mk 7%N "A6F3HW7L" "alice" 200%Z "a6f3hw7l";
               ScanEventRecord.mk (N.succ 7) "A6F3HW7L" "bob" 200%Z
                 " A6F3HW7L"])%list.
Proof.
  apply (scan_twice_one_row ApiScanEvents "alice" "bob" "a6f3hw7l" " A6F3HW7L"
           "A6F3HW7L" Examples.request
           (mkScanRequest (Some " A6F3HW7L") (Some "XL") None)
           2025%Z 2026%Z Examples.empty_store).
  - discriminate.
  - discriminate.
  - reflexivity.
  - reflexivity.
  - reflexivity.
  - reflexivity.
  - reflexivity.
  - intros row [].
  - discriminate.
Defined.

(** X12: on [/api/qr/scan], a caller who scans an identifier of which another
    caller owns the Code row, and who owns none, is answered with the 500
    "Database error while creating code record"; nothing is written. *)
Theorem scan_of_foreign_code_fails (u raw codeId : string) (rq : ScanRequest)
    (year : Z) (st : Store) (row : CodeRecord.t) :
  u <> "" ->
  truthy (rawPayload rq) = Some raw ->
  truthy (QrScan.extractCodeId raw) = Some codeId ->
  online st = true ->
  In row (codes st) -> CodeRecord.id row = codeId ->
  (forall row', In row' (codes st) -> CodeRecord.id row' = codeId ->
     CodeRecord.owner_user_id row' <> u) ->
  run (QrScanRoute.POST (Some u) (Some rq) year) st
  = (QrScanRoute.failure "Database error while creating code record" 500, st).
Proof.
  intros Hu Hraw Hnorm Hon Hin Hid Hother.
  apply (run_conflict ApiQrScan (Some u) rq year u raw codeId st
           (truthy_some' u Hu) Hraw Hnorm Hon).
  - rewrite selected_none; [reflexivity|].
    intros row' Hin' Hid'. cbn. apply String.eqb_neq, (Hother row' Hin' Hid').
  - subst codeId. apply existsb_present, Hin.
Qed.

Lemma scan_of_foreign_code_fails_witness :
  run (QrScanRoute.POST (Some "bob") (Some Examples.request) 2025)
    Examples.alice_store
  = (QrScanRoute.failure "Database error while creating code record" 500,
     Examples.alice_store).
Proof.
  apply (scan_of_foreign_code_fails "bob" "a6f3hw7l" "A6F3HW7L"
           Examples.request 2025%Z Examples.alice_store Examples.alice_row).
  - discriminate.
  - reflexivity.
  - reflexivity.
  - reflexivity.
  - left. reflexivity.
  - reflexivity.
  - intros row' [<-|[]] _. discriminate.
Defined.

End RouteExtras.

(* ================================================================== *)
(** * Requests served together, and what the store keeps *)
(* ================================================================== *)

Module StoreExtras.
Import Db Spec Invariants StoreFacts.

Lemma run_invariant (P : Store -> Prop) :
  (forall R (q : Query R) st, P st -> P (snd (exec q st))) ->
  forall A (h : Handler A) st, P st -> P (snd (run h st)).
Proof.
  intros Hexec A h. induction h as [a | R q k IH]; intros st Hst; simpl.
  - exact Hst.
  - pose proof (Hexec R q st Hst) as H1.
    destruct (exec q st) as [res st1]. apply IH, H1.
Qed.

(** What every query keeps, every interleaving of two requests keeps. *)
Lemma race_invariant (P : Store -> Prop) :
  (forall R (q : Query R) st, P st -> P (snd (exec q st))) ->
  forall A B schedule (h1 : Handler A) (h2 : Handler B) st,
    P st -> P (snd (race schedule h1 h2 st)).
Proof.
  intros Hexec A B schedule.
  induction schedule as [|first schedule IH]; intros h1 h2 st Hst.
  - simpl.
    pose proof (run_invariant P Hexec A h1 st Hst) as H1.
    destruct (run h1 st) as [a st1].
    pose proof (run_invariant P Hexec B h2 st1 H1) as H2.
    destruct (run h2 st1) as [b st2]. exact H2.
  - destruct first; simpl.
    + destruct h1 as [a | R q k]; [apply IH, Hst|].
      pose proof (Hexec R q st Hst) as H1.
      destruct (exec q st) as [res st1]. apply IH, H1.
    + destruct h2 as [b | R q k]; [apply IH, Hst|].
      pose proof (Hexec R q st Hst) as H1.
      destruct (exec q st) as [res st1]. apply IH, H1.
Qed.

Lemma exec_foreignKey {R : Type} (q : Query R) (st : Store) :
  foreignKey st -> foreignKey (snd (exec q st)).
Proof.
  unfold foreignKey. intros Hfk.
  destruct q; simpl; destruct (online st); try exact Hfk.
  - destruct (existsb (hasId id) (codes st)); [exact Hfk|].
    simpl. intros e He. rewrite existsb_app, (Hfk e He). reflexivity.
  - destruct (existsb (hasId code_id) (codes st)) eqn:E; [|exact Hfk].
    simpl. intros e He. apply in_app_or in He as [He|[<-|[]]].
    + apply Hfk, He.
    + exact E.
Qed.

(** The store keeps its keys: it refuses the insert of a Code row whose id
    is taken and of a scan event whose code is missing, so whatever two
    handlers are served together, and in whatever order, [codes] keeps its
    primary key and every scan event keeps referring to a Code row. *)
Lemma race_keeps_keys {A B : Type} (schedule : list bool)
    (h1 : Handler A) (h2 : Handler B) (st : Store) :
  primaryKey st -> foreignKey st ->
  primaryKey (snd (race schedule h1 h2 st))
  /\ foreignKey (snd (race schedule h1 h2 st)).
Proof.
  intros Hpk Hfk. split.
  - apply (race_invariant primaryKey); [|exact Hpk].
    intros R q s. apply exec_primaryKey.
  - apply (race_invariant foreignKey); [|exact Hfk].
    intros R q s. apply exec_foreignKey.
Qed.


Lemma run_readOnly {A : Type} (h : Handler A) (st : Store) :
  ReadOnly h -> snd (run h st) = st.
Proof.
  intros Hh. induction Hh as [a | id owner k _ IH | user limit k _ IH
                             | id k _ IH]; simpl.
  - reflexivity.
  - destruct (online st); apply IH.
  - destruct (online st); apply IH.
  - destruct (online st); apply IH.
Qed.

Lemma exec_readOnly {A R : Type} (q : Query R) (k : R -> Handler A)
    (st : Store) :
  ReadOnly (Await q k) ->
  snd (exec q st) = st /\ ReadOnly (k (fst (exec q st))).
Proof.
  intros H.
  refine (match H in ReadOnly h
                return match h with
                       | Done _ => True
                       | Await q' k' =>
                           snd (exec q' st) = st
                           /\ ReadOnly (k' (fst (exec q' st)))
                       end
          with
          | ReadOnly_done _ => I
          | ReadOnly_code id owner k' Hk => _
          | ReadOnly_scans user limit k' Hk => _
          | ReadOnly_public id k' Hk => _
          end);
    (split; [simpl; destruct (online st); reflexivity | apply Hk]).
Qed.

(** A request that only reads changes nothing for the request it is served
    with. *)
Lemma race_readOnly {A B : Type} (schedule : list bool)
    (h : Handler A) (g : Handler B) (st : Store) :
  ReadOnly g ->
  fst (fst (race schedule h g st)) = fst (run h st)
  /\ snd (race schedule h g st) = snd (run h st).
Proof.
  revert h g st. induction schedule as [|first schedule IH]; intros h g st Hg.
  - simpl. destruct (run h st) as [a st1].
    pose proof (run_readOnly g st1 Hg) as H.
    destruct (run g st1) as [b st2]. simpl in *. subst st2. auto.
  - destruct first; simpl.
    + destruct h as [a | R q k]; [apply IH, Hg|].
      simpl. destruct (exec q st) as [res st1]. apply IH, Hg.
    + destruct g as [b | R q k]; [apply IH, Hg|].
      destruct (exec_readOnly q k st Hg) as [Hst Hk].
      destruct (exec q st) as [res st1]. simpl in *. subst st1.
      apply IH, Hk.
Qed.

Lemma scanList_readOnly (userId : option string) :
  ReadOnly (ScanEventsRoute.GET userId).
Proof.
  unfold ScanEventsRoute.GET. destruct (truthy userId); [|constructor].
  constructor. intros [l|e]; constructor.
Qed.

Lemma publicLookup_readOnly (codeId : string) :
  ReadOnly (CodesRoute.GET codeId).
Proof.
  unfold CodesRoute.GET. destruct (truthy (Some codeId)); [|constructor].
  constructor. intros [c|e]; constructor.
Qed.

(** X14: the scan list and the public lookup never write, and served together
    with any other request, under any schedule, they change neither the
    answer to that request nor the store it leaves. *)
Theorem reads_do_not_interfere {A : Type} (schedule : list bool)
    (h : Handler A) (userId : option string) (codeId : string) (st : Store) :
  snd (run (ScanEventsRoute.GET userId) st) = st
  /\ snd (run (CodesRoute.GET codeId) st) = st
  /\ fst (fst (race schedule h (ScanEventsRoute.GET userId) st)) = fst (run h st)
  /\ snd (race schedule h (ScanEventsRoute.GET userId) st) = snd (run h st)
  /\ fst (fst (race schedule h (CodesRoute.GET codeId) st)) = fst (run h st)
  /\ snd (race schedule h (CodesRoute.GET codeId) st) = snd (run h st).
Proof.
  split; [apply run_readOnly, scanList_readOnly|].
  split; [apply run_readOnly, publicLookup_readOnly|].
  destruct (race_readOnly schedule h _ st (scanList_readOnly userId)).
  destruct (race_readOnly schedule h _ st (publicLookup_readOnly codeId)).
  auto.
Qed.

End StoreExtras.

(* ================================================================== *)
(** * Writing, then reading *)
(* ================================================================== *)

Module RoundTrips.
Import Db Spec Invariants StoreFacts RouteExtras.

(** The public lookup of an id, in any casing, of which the store has a row. *)
Lemma public_found (st : Store) (c : string) (row : CodeRecord.t) :
  online st = true -> primaryKey st -> In row (codes st) ->
  c <> "" -> JS.toUpperCase c = CodeRecord.id row ->
  run (CodesRoute.GET c) st
  = (json (JObj [("id", JStr (CodeRecord.id row));
                 ("system", JStr (CodeRecord.system_acronym row));
                 ("size", JStr (CodeRecord.size row));
                 ("year", JNum (CodeRecord.year row));
                 ("created", JTime (CodeRecord.created_at row))]), st).
Proof.
  intros Hon Hpk Hin Hne Hup.
  unfold CodesRoute.GET. rewrite (truthy_some' c Hne), Hup.
  cbn [run exec]. rewrite Hon.
  rewrite (filter_ext (hasId (CodeRecord.id row))
             (fun r => hasId (CodeRecord.id row) r && true))
    by (intros r; symmetry; apply andb_true_r).
  rewrite (filter_unique row (fun _ => true) (codes st) Hpk Hin eq_refl).
  reflexivity.
Qed.

(** What a scan-record request that was answered 200 has left. *)
Lemma answered_200 (r : Route) (u raw : string) (rq : ScanRequest) (year : Z)
    (st : Store) :
  status (fst (run (POST r (Some u) (Some rq) year) st)) = 200 ->
  truthy (rawPayload rq) = Some raw ->
  exists codeId row,
    normalize r raw = Some codeId
    /\ u <> "" /\ online st = true
    /\ CodeRecord.id row = codeId
    /\ In row (codes (snd (run (POST r (Some u) (Some rq) year) st)))
    /\ (exists codes',
           snd (run (POST r (Some u) (Some rq) year) st)
           = scanAdded st codes' (recorded st codeId u raw)).
Proof.
  intros H200 Hraw.
  destruct (POST_cases r (Some u) (Some rq) year st)
    as [[_ [H1 _]] | [[u' [_ [E _]]]
       | [[u' [rq' [_ [_ [_ [H1 _]]]]]]
       | [u' [rq' [raw' [codeId [Hu [Hreq [Hraw' [Hnorm H]]]]]]]]]]];
    try congruence.
  apply truthy_inv in Hu as [Hu Hne]. injection Hu as <-.
  injection Hreq as <-. assert (raw' = raw) by congruence. subst raw'.
  destruct H as [[H1 _] | [_ [Hon [row [_ H]]]]]; [congruence|].
  exists codeId.
  destruct H as [[Hsel ->] | [_ [Hrow ->]]].
  - destruct (selected_present r codeId u st row) as [Hin [Hid _]].
    { rewrite Hsel. left. reflexivity. }
    exists row. repeat split; try assumption. eexists. reflexivity.
  - exists row. repeat split; try assumption.
    + subst row. destruct r; reflexivity.
    + cbn [scanAdded codes]. apply in_or_app. right. left. reflexivity.
    + eexists. reflexivity.
Qed.

(** X15: an identifier whose scan was answered 200 can be looked up publicly
    right away, in any casing: the lookup answers with the fields of a row
    that has this id. *)
Theorem scan_then_public_lookup (r : Route) (u raw codeId c : string)
    (rq : ScanRequest) (year : Z) (st : Store) :
  primaryKey st ->
  truthy (rawPayload rq) = Some raw ->
  normalize r raw = Some codeId ->
  JS.toUpperCase c = codeId ->
  status (fst (run (POST r (Some u) (Some rq) year) st)) = 200 ->
  let st' := snd (run (POST r (Some u) (Some rq) year) st) in
  exists row,
    In row (codes st') /\ CodeRecord.id row = codeId
    /\ run (CodesRoute.GET c) st'
       = (json (JObj [("id", JStr codeId);
                      ("system", JStr (CodeRecord.system_acronym row));
                      ("size", JStr (CodeRecord.size row));
                      ("year", JNum (CodeRecord.year row));
                      ("created", JTime (CodeRecord.created_at row))]), st').
Proof.
  intros Hpk Hraw Hnorm Hup H200. cbv zeta.
  destruct (answered_200 r u raw rq year st H200 Hraw)
    as [codeId' [row [Hnorm' [Hu [Hon [Hid [Hin [codes' Hst]]]]]]]].
  assert (E : codeId' = codeId) by congruence.
  rewrite E in Hid, Hst. clear E Hnorm'.
  exists row. split; [exact Hin|]. split; [exact Hid|].
  assert (Hne : c <> "").
  { intros ->. destruct (PipelineFacts.canonical_upper codeId) as [_ H].
    - apply (PipelineFacts.normalize_canonical r raw), Hnorm.
    - apply H. symmetry. exact Hup. }
  rewrite <- Hid at 1.
  apply public_found; try assumption.
  - rewrite Hst. exact Hon.
  - apply run_primaryKey, Hpk.
  - congruence.
Qed.

Lemma scan_then_public_lookup_witness :
  let st' :=
    snd (run (POST ApiScanEvents (Some "alice") (Some Examples.request) 2025)
           Examples.empty_store) in
  exists row,
    In row (codes st') /\ CodeRecord.id row = "A6F3HW7L"
    /\ run (CodesRoute.GET "a6f3hw7L") st'
       = (json (JObj [("id", JStr "A6F3HW7L");
                      ("system", JStr (CodeRecord.system_acronym row));
                      ("size", JStr (CodeRecord.size row));
                      ("year", JNum (CodeRecord.year row));
                      ("created", JTime (CodeRecord.created_at row))]), st').
Proof.
  apply (scan_then_public_lookup ApiScanEvents "alice" "a6f3hw7l" "A6F3HW7L"
           "a6f3hw7L" Examples.request 2025%Z Examples.empty_store).
  - constructor.
  - reflexivity.
  - reflexivity.
  - reflexivity.
  - reflexivity.
Defined.

Lemma firstn_short {A : Type} (n : nat) (l : list A) :
  (List.length l <= n)%nat -> firstn n l = l.
Proof. apply firstn_all2. Qed.

(** X16: a scan that was answered 200 is in the caller's scan list right
    away, with its payload as it was sent, provided the caller had fewer
    than 50 scans before. *)
Theorem scan_then_list (r : Route) (u raw : string) (rq : ScanRequest)
    (year : Z) (st : Store) :
  truthy (rawPayload rq) = Some raw ->
  (List.length (filter (scannedBy u) (scan_events st)) < 50)%nat ->
  status (fst (run (POST r (Some u) (Some rq) year) st)) = 200 ->
  let st' := snd (run (POST r (Some u) (Some rq) year) st) in
  exists l entry,
    fst (run (ScanEventsRoute.GET (Some u)) st') = json (JArr l)
    /\ In entry l
    /\ field "id" entry = Some (JUuid (next_uuid st))
    /\ field "code_id" entry = option_map JStr (normalize r raw)
    /\ field "raw_payload" entry = Some (JStr raw)
    /\ field "scanned_by_user_id" entry = Some (JStr u).
Proof.
  intros Hraw Hfew H200. cbv zeta.
  destruct (answered_200 r u raw rq year st H200 Hraw)
    as [codeId [row [Hnorm [Hu [Hon [Hid [Hin [codes' Hst]]]]]]]].
  rewrite Hst, Hnorm.
  set (e := recorded st codeId u raw).
  set (st' := scanAdded st codes' e).
  set (mine := filter (scannedBy u) (scan_events st)) in *.
  assert (Hmine : filter (scannedBy u) (scan_events st') = (mine ++ [e])%list).
  { unfold st', scanAdded. cbn [scan_events]. rewrite filter_app.
    cbn [filter]. unfold scannedBy at 2. unfold e, recorded.
    cbn [ScanEventRecord.scanned_by_user_id]. rewrite String.eqb_refl.
    reflexivity. }
  exists (map (fun x => ScanEventsRoute.transform u (embed st' x))
            (firstn 50 (orderDesc (filter (scannedBy u) (scan_events st'))))).
  exists (ScanEventsRoute.transform u (embed st' e)).
  split; [|split].
  - unfold ScanEventsRoute.GET. rewrite (truthy_some' u Hu).
    cbn [run exec]. change (online st') with (online st). rewrite Hon.
    cbn [run fst]. rewrite map_map. reflexivity.
  - apply (in_map (fun x => ScanEventsRoute.transform u (embed st' x))).
    rewrite firstn_short.
    + apply (Permutation_in _ (Permutation_sym (orderDesc_perm _))).
      rewrite Hmine. apply in_or_app. right. left. reflexivity.
    + rewrite (Permutation_length (orderDesc_perm _)), Hmine, length_app.
      simpl. lia.
  - repeat split.
Qed.

Lemma scan_then_list_witness :
  let st' :=
    snd (run (POST ApiScanEvents (Some "alice") (Some Examples.request) 2025)
           Examples.empty_store) in
  exists l entry,
    fst (run (ScanEventsRoute.GET (Some "alice")) st') = json (JArr l)
    /\ In entry l
    /\ field "id" entry = Some (JUuid (next_uuid Examples.empty_store))
    /\ field "code_id" entry
       = option_map JStr (normalize ApiScanEvents "a6f3hw7l")
    /\ field "raw_payload" entry = Some (JStr "a6f3hw7l")
    /\ field "scanned_by_user_id" entry = Some (JStr "alice").
Proof.
  apply (scan_then_list ApiScanEvents "alice" "a6f3hw7l" Examples.request
           2025%Z Examples.empty_store).
  - reflexivity.
  - simpl. lia.
  - reflexivity.
Defined.

Lemma existsb_find (codeId : string) (l : list CodeRecord.t) :
  existsb (hasId codeId) l = true ->
  exists row, find (hasId codeId) l = Some row.
Proof.
  induction l as [|x l IH]; simpl; [discriminate|].
  destruct (hasId codeId x); [eauto | exact IH].
Qed.

(** X17: when every scan event refers to a Code row, as the store keeps it,
    every entry of the scan list carries a [code] object. *)
Theorem list_entries_have_code (st : Store) (u : string) :
  u <> "" -> online st = true -> foreignKey st ->
  exists l,
    fst (run (ScanEventsRoute.GET (Some u)) st) = json (JArr l)
    /\ forall entry, In entry l -> exists code, field "code" entry = Some code.
Proof.
  intros Hu Hon Hfk.
  exists (map (fun x => ScanEventsRoute.transform u (embed st x))
            (firstn 50 (orderDesc (filter (scannedBy u) (scan_events st))))).
  split.
  - unfold ScanEventsRoute.GET. rewrite (truthy_some' u Hu).
    cbn [run exec]. rewrite Hon. cbn [run fst]. rewrite map_map. reflexivity.
  - intros entry Hin. apply in_map_iff in Hin as [e [<- He]].
    assert (Hst : In e (scan_events st)).
    { assert (H : In e (orderDesc (filter (scannedBy u) (scan_events st)))).
      { rewrite <- (firstn_skipn 50). apply in_or_app. left. exact He. }
      apply (Permutation_in _ (orderDesc_perm _)) in H.
      apply filter_In in H. apply H. }
    destruct (existsb_find _ _ (Hfk e Hst)) as [row Hrow].
    unfold ScanEventsRoute.transform, embed. cbn [ScanEventRow.codes].
    rewrite Hrow. eexists. reflexivity.
Qed.

Lemma list_entries_have_code_witness :
  exists l,
    fst (run (ScanEventsRoute.GET (Some "alice")) Examples.alice_store)
    = json (JArr l)
    /\ forall entry, In entry l -> exists code, field "code" entry = Some code.
Proof.
  apply (list_entries_have_code Examples.alice_store "alice").
  - discriminate.
  - reflexivity.
  - intros e [<-|[]]. reflexivity.
Defined.

(** X18: when the store does not answer, a scan-record request of a caller
    with an extractable payload and the scan list are answered 500, the
    public lookup is answered 404 "Code not found", and nothing is
    written. *)
Theorem store_unavailable (r : Route) (u raw codeId c : string)
    (rq : ScanRequest) (year : Z) (st : Store) :
  online st = false ->
  u <> "" -> c <> "" ->
  truthy (rawPayload rq) = Some raw ->
  normalize r raw = Some codeId ->
  run (POST r (Some u) (Some rq) year) st = (lookupFailure r, st)
  /\ status (lookupFailure r) = 500
  /\ run (ScanEventsRoute.GET (Some u)) st
     = (ScanEventsRoute.failure "Database error while fetching scan events" 500,
        st)
  /\ run (CodesRoute.GET c) st = (CodesRoute.failure "Code not found" 404, st).
Proof.
  intros Hoff Hu Hc Hraw Hnorm. split; [|split; [|split]].
  - apply (run_offline r (Some u) rq year u raw codeId st
             (truthy_some' u Hu) Hraw Hnorm Hoff).
  - apply status_lookupFailure.
  - unfold ScanEventsRoute.GET. rewrite (truthy_some' u Hu).
    cbn [run exec]. rewrite Hoff. reflexivity.
  - unfold CodesRoute.GET. rewrite (truthy_some' c Hc).
    cbn [run exec]. rewrite Hoff. reflexivity.
Qed.

Lemma store_unavailable_witness :
  let st := mkStore [Examples.alice_row] [] 200%Z 7%N false in
  run (POST ApiScanEvents (Some "alice") (Some Examples.request) 2025) st
  = (lookupFailure ApiScanEvents, st)
  /\ status (lookupFailure ApiScanEvents) = 500
  /\ run (ScanEventsRoute.GET (Some "alice")) st
     = (ScanEventsRoute.failure "Database error while fetching scan events" 500,
        st)
  /\ run (CodesRoute.GET "A6F3HW7L") st
     = (CodesRoute.failure "Code not found" 404, st).
Proof.
  apply (store_unavailable ApiScanEvents "alice" "a6f3hw7l" "A6F3HW7L"
           "A6F3HW7L" Examples.request 2025%Z
           (mkStore [Examples.alice_row] [] 200%Z 7%N false)).
  - reflexivity.
  - discriminate.
  - discriminate.
  - reflexivity.
  - reflexivity.
Defined.

End RoundTrips.

(* ================================================================== *)
(** * Two requests that create the same Code *)
(* ================================================================== *)

Module RaceExtras.
Import Db Spec Invariants StoreFacts RouteExtras.

Lemma POST_lookingUp (r : Route) (userId : option string)
    (req : ScanRequest) (year : Z) (u raw codeId : string) :
  truthy userId = Some u ->
  truthy (rawPayload req) = Some raw ->
  normalize r raw = Some codeId ->
  POST r userId (Some req) year = lookingUp r codeId u raw req year.
Proof.
  intros Hu Hraw Hnorm.
  rewrite (POST_resolve r userId req year u raw codeId Hu Hraw Hnorm).
  reflexivity.
Qed.

Lemma exec_online {R : Type} (q : Query R) (st : Store) :
  online (snd (exec q st)) = online st.
Proof.
  destruct q; simpl; destruct (online st) eqn:E;
    try (destruct (existsb _ (codes st))); cbn [snd online];
    rewrite ?E; reflexivity.
Qed.

Lemma exec_keeps_row {R : Type} (q : Query R) (st : Store) (codeId : string) :
  existsb (hasId codeId) (codes st) = true ->
  existsb (hasId codeId) (codes (snd (exec q st))) = true.
Proof.
  intros H. destruct (exec_codes_extend q st) as [added ->].
  rewrite existsb_app, H. reflexivity.
Qed.

Lemma run_keeps_row {A : Type} (h : Handler A) (st : Store) (codeId : string) :
  existsb (hasId codeId) (codes st) = true ->
  existsb (hasId codeId) (codes (snd (run h st))) = true.
Proof.
  intros H. destruct (run_codes_extend h st) as [added ->].
  rewrite existsb_app, H. reflexivity.
Qed.

Section Resolving.

Variables (r : Route) (codeId u raw : string) (rq : ScanRequest) (year : Z).

(** A query of another request does not set a resolving request back. *)
Lemma resolving_other {R : Type} (q : Query R) (h : Handler Response)
    (st : Store) :
  resolving r codeId u raw rq year h st ->
  resolving r codeId u raw rq year h (snd (exec q st)).
Proof.
  intros [H | [H | H]]; [left | right; left | right; right]; try exact H.
  apply exec_keeps_row, H.
Qed.

(** After its lookup a request is before its insert, or the row is there. *)
Lemma lookingUp_step (st : Store) :
  online st = true ->
  snd (exec (lookup r codeId u) st) = st
  /\ (afterLookup r codeId u raw rq year (fst (exec (lookup r codeId u) st))
      = inserting r codeId u raw rq year
      \/ existsb (hasId codeId) (codes st) = true).
Proof.
  intros Hon. rewrite exec_lookup, Hon. cbn [fst snd]. split; [reflexivity|].
  destruct (single_cases (selected r codeId u st)) as [[row [Hsel ->]] | ->].
  - right.
    destruct (selected_present r codeId u st row) as [_ [_ H]]; [|exact H].
    rewrite Hsel. left. reflexivity.
  - left. reflexivity.
Qed.

(** After its insert, failed or not, the row is there. *)
Lemma inserting_step (st : Store) :
  online st = true ->
  existsb (hasId codeId)
    (codes (snd (exec (insert r codeId rq year u) st))) = true.
Proof.
  intros Hon. rewrite exec_insert, Hon.
  destruct (existsb (hasId codeId) (codes st)) eqn:E; cbn [snd codes].
  - exact E.
  - rewrite existsb_app. cbn [existsb].
    assert (Hid : hasId codeId (created r st codeId rq year u) = true)
      by (destruct r; apply String.eqb_refl).
    rewrite Hid, orb_true_r. reflexivity.
Qed.

(** A resolving request that is left to finish alone leaves the row. *)
Lemma run_resolving (h : Handler Response) (st : Store) :
  online st = true ->
  resolving r codeId u raw rq year h st ->
  existsb (hasId codeId) (codes (snd (run h st))) = true.
Proof.
  intros Hon Hres.
  assert (Hins : forall s, online s = true ->
            existsb (hasId codeId)
              (codes (snd (run (inserting r codeId u raw rq year) s))) = true).
  { intros s Hs. unfold inserting. cbn [run].
    pose proof (inserting_step s Hs) as H.
    destruct (exec (insert r codeId rq year u) s) as [res s1].
    apply run_keeps_row, H. }
  destruct Hres as [-> | [-> | H]].
  - unfold lookingUp. cbn [run].
    destruct (lookingUp_step st Hon) as [Hst Hnext].
    destruct (exec (lookup r codeId u) st) as [res s1].
    cbn [fst snd] in *. subst s1.
    destruct Hnext as [E | E].
    + rewrite E. apply Hins, Hon.
    + apply run_keeps_row, E.
  - apply Hins, Hon.
  - apply run_keeps_row, H.
Qed.

End Resolving.

Section TwoCreators.

Variables (codeId : string).
Variables (r1 : Route) (u1 raw1 : string) (rq1 : ScanRequest) (year1 : Z).
Variables (r2 : Route) (u2 raw2 : string) (rq2 : ScanRequest) (year2 : Z).

Lemma race_resolving (schedule : list bool) :
  forall (h1 h2 : Handler Response) (st : Store),
    online st = true ->
    resolving r1 codeId u1 raw1 rq1 year1 h1 st ->
    resolving r2 codeId u2 raw2 rq2 year2 h2 st ->
    existsb (hasId codeId) (codes (snd (race schedule h1 h2 st))) = true.
Proof.
  induction schedule as [|first schedule IH]; intros h1 h2 st Hon H1 H2.
  - cbn [race].
    pose proof (run_resolving r1 codeId u1 raw1 rq1 year1 h1 st Hon H1) as E.
    destruct (run h1 st) as [a st1].
    pose proof (run_keeps_row h2 st1 codeId E) as E2.
    destruct (run h2 st1) as [b st2]. exact E2.
  - destruct first.
    + destruct H1 as [-> | [-> | H1]].
      * unfold lookingUp. cbn [race].
        destruct (lookingUp_step r1 codeId u1 raw1 rq1 year1 st Hon)
          as [Hst Hnext].
        destruct (exec (lookup r1 codeId u1) st) as [res s1].
        cbn [fst snd] in *. subst s1.
        apply IH; [exact Hon | right; exact Hnext | exact H2].
      * unfold inserting. cbn [race].
        pose proof (inserting_step r1 codeId u1 rq1 year1 st Hon) as Hrow.
        pose proof (exec_online (insert r1 codeId rq1 year1 u1) st) as Hon'.
        pose proof (resolving_other r2 codeId u2 raw2 rq2 year2
                      (insert r1 codeId rq1 year1 u1) h2 st H2) as H2'.
        destruct (exec (insert r1 codeId rq1 year1 u1) st) as [res s1].
        cbn [fst snd] in *. apply IH; [congruence | | exact H2'].
        right. right. exact Hrow.
      * destruct h1 as [a | R q k]; cbn [race].
        -- apply IH; [exact Hon | right; right; exact H1 | exact H2].
        -- pose proof (exec_keeps_row q st codeId H1) as Hrow.
           pose proof (exec_online q st) as Hon'.
           pose proof (resolving_other r2 codeId u2 raw2 rq2 year2 q h2 st H2)
             as H2'.
           destruct (exec q st) as [res s1]. cbn [fst snd] in *.
           apply IH; [congruence | right; right; exact Hrow | exact H2'].
    + destruct H2 as [-> | [-> | H2]].
      * unfold lookingUp. cbn [race].
        destruct (lookingUp_step r2 codeId u2 raw2 rq2 year2 st Hon)
          as [Hst Hnext].
        destruct (exec (lookup r2 codeId u2) st) as [res s1].
        cbn [fst snd] in *. subst s1.
        apply IH; [exact Hon | exact H1 | right; exact Hnext].
      * unfold inserting. cbn [race].
        pose proof (inserting_step r2 codeId u2 rq2 year2 st Hon) as Hrow.
        pose proof (exec_online (insert r2 codeId rq2 year2 u2) st) as Hon'.
        pose proof (resolving_other r1 codeId u1 raw1 rq1 year1
                      (insert r2 codeId rq2 year2 u2) h1 st H1) as H1'.
        destruct (exec (insert r2 codeId rq2 year2 u2) st) as [res s1].
        cbn [fst snd] in *. apply IH; [congruence | exact H1' |].
        right. right. exact Hrow.
      * destruct h2 as [b | R q k]; cbn [race].
        -- apply IH; [exact Hon | exact H1 | right; right; exact H2].
        -- pose proof (exec_keeps_row q st codeId H2) as Hrow.
           pose proof (exec_online q st) as Hon'.
           pose proof (resolving_other r1 codeId u1 raw1 rq1 year1 q h1 st H1)
             as H1'.
           destruct (exec q st) as [res s1]. cbn [fst snd] in *.
           apply IH; [congruence | exact H1' | right; right; exact Hrow].
Qed.

End TwoCreators.

Lemma one_row (codeId : string) (l : list CodeRecord.t) :
  NoDup (map CodeRecord.id l) ->
  existsb (hasId codeId) l = true ->
  exists row, filter (hasId codeId) l = [row].
Proof.
  intros Hnd Hex. apply existsb_exists in Hex as [row [Hin Hid]].
  apply String.eqb_eq in Hid. subst codeId. exists row.
  rewrite (filter_ext (hasId (CodeRecord.id row))
             (fun x => hasId (CodeRecord.id row) x && true))
    by (intros x; symmetry; apply andb_true_r).
  apply (filter_unique row (fun _ => true)); auto.
Qed.

(** X19: two scan-record requests for the same identifier, on either route
    and by any two callers, served together under any schedule, leave
    exactly one Code row with that id in a store that answers. *)
Theorem concurrent_scans_one_row (schedule : list bool)
    (r1 r2 : Route) (u1 u2 raw1 raw2 codeId : string)
    (rq1 rq2 : ScanRequest) (year1 year2 : Z) (st : Store) :
  u1 <> "" -> u2 <> "" ->
  truthy (rawPayload rq1) = Some raw1 ->
  truthy (rawPayload rq2) = Some raw2 ->
  normalize r1 raw1 = Some codeId ->
  normalize r2 raw2 = Some codeId ->
  online st = true ->
  primaryKey st ->
  exists row,
    filter (hasId codeId)
      (codes (snd (race schedule
                     (POST r1 (Some u1) (Some rq1) year1)
                     (POST r2 (Some u2) (Some rq2) year2) st)))
    = [row].
Proof.
  intros Hu1 Hu2 Hraw1 Hraw2 Hn1 Hn2 Hon Hpk.
  apply one_row.
  - apply (StoreExtras.race_invariant primaryKey); [|exact Hpk].
    intros R q s. apply exec_primaryKey.
  - rewrite (POST_lookingUp r1 (Some u1) rq1 year1 u1 raw1 codeId
               (truthy_some' u1 Hu1) Hraw1 Hn1).
    rewrite (POST_lookingUp r2 (Some u2) rq2 year2 u2 raw2 codeId
               (truthy_some' u2 Hu2) Hraw2 Hn2).
    apply (race_resolving codeId r1 u1 raw1 rq1 year1 r2 u2 raw2 rq2 year2);
      [exact Hon | left; reflexivity | left; reflexivity].
Qed.

Lemma concurrent_scans_one_row_witness :
  exists row,
    filter (hasId "A6F3HW7L")
      (codes (snd (race [true; false; false; true]
                     (POST ApiQrScan (Some "alice") (Some Examples.request) 2025)
                     (POST ApiScanEvents (Some "bob") (Some Examples.request) 2026)
                     Examples.empty_store)))
    = [row].
Proof.
  apply (concurrent_scans_one_row [true; false; false; true]
           ApiQrScan ApiScanEvents "alice" "bob" "a6f3hw7l" "a6f3hw7l").
  - discriminate.
  - discriminate.
  - reflexivity.
  - reflexivity.
  - reflexivity.
  - reflexivity.
  - reflexivity.
  - constructor.
Defined.

End RaceExtras.

(* ================================================================== *)
(** * Requests served while the store comes and goes *)
(* ================================================================== *)

Module OutageExtras.
Import Db Spec Invariants StoreFacts RouteExtras RaceExtras.

(** With nothing said of the availability, [runWith] is [run]. *)
Lemma runWith_nil {A : Type} (h : Handler A) (st : Store) :
  runWith [] h st = run h st.
Proof.
  revert st. induction h as [a | R q k IH]; intros st; [reflexivity|].
  cbn [runWith run nextStore tl]. destruct (exec q st) as [res st'].
  apply IH.
Qed.

Lemma nextStore_codes (av : list bool) (st : Store) :
  codes (nextStore av st) = codes st.
Proof. destruct av; reflexivity. Qed.

Lemma nextStore_scan_events (av : list bool) (st : Store) :
  scan_events (nextStore av st) = scan_events st.
Proof. destruct av; reflexivity. Qed.

Lemma nextStore_now (av : list bool) (st : Store) :
  now (nextStore av st) = now st.
Proof. destruct av; reflexivity. Qed.

Lemma nextStore_next_uuid (av : list bool) (st : Store) :
  next_uuid (nextStore av st) = next_uuid st.
Proof. destruct av; reflexivity. Qed.

Lemma recorded_nextStore (av : list bool) (st : Store) (codeId u raw : string) :
  recorded (nextStore av st) codeId u raw = recorded st codeId u raw.
Proof. unfold recorded. rewrite nextStore_now, nextStore_next_uuid. reflexivity. Qed.

Lemma created_nextStore (r : Route) (av : list bool) (st : Store)
    (codeId : string) (rq : ScanRequest) (year : Z) (u : string) :
  created r (nextStore av st) codeId rq year u = created r st codeId rq year u.
Proof. unfold created. rewrite nextStore_now. reflexivity. Qed.

Lemma selected_nextStore (r : Route) (av : list bool) (st : Store)
    (codeId u : string) :
  selected r codeId u (nextStore av st) = selected r codeId u st.
Proof. unfold selected. rewrite nextStore_codes. reflexivity. Qed.

(** The recording of the scan, the Code row being there. *)
Lemma recording_outcome (r : Route) (codeId u raw : string)
    (row : CodeRecord.t) (av : list bool) (st : Store) :
  existsb (hasId codeId) (codes st) = true ->
  let answer := fst (runWith av (recording r codeId u raw row) st) in
  let st' := snd (runWith av (recording r codeId u raw row) st) in
  codes st' = codes st
  /\ ((answer = success r row (recorded st codeId u raw)
       /\ scan_events st' = (scan_events st ++ [recorded st codeId u raw])%list)
      \/ (answer = recordFailure r
          /\ scan_events st' = scan_events st
          /\ now st' = now st /\ next_uuid st' = next_uuid st)).
Proof.
  intros Hex. cbv zeta. unfold recording. cbn [runWith exec].
  rewrite nextStore_codes, Hex.
  destruct (online (nextStore av st)); cbn [runWith fst snd codes scan_events
                                             now next_uuid].
  - rewrite ?nextStore_codes, ?nextStore_scan_events, ?nextStore_now,
      ?nextStore_next_uuid.
    split; [reflexivity|]. left. split; reflexivity.
  - rewrite ?nextStore_codes, ?nextStore_scan_events, ?nextStore_now,
      ?nextStore_next_uuid.
    split; [reflexivity|]. right. repeat split.
Qed.

Lemma created_hasId (r : Route) (st : Store) (codeId : string)
    (rq : ScanRequest) (year : Z) (u : string) :
  hasId codeId (created r st codeId rq year u) = true.
Proof. destruct r; apply String.eqb_refl. Qed.

(** The insert of the Code row and what follows it. *)
Lemma inserting_outcome (r : Route) (codeId u raw : string) (rq : ScanRequest)
    (year : Z) (av : list bool) (st : Store) :
  let answer := fst (runWith av (inserting r codeId u raw rq year) st) in
  let st' := snd (runWith av (inserting r codeId u raw rq year) st) in
  let row := created r st codeId rq year u in
  (answer = createFailure r
   /\ codes st' = codes st /\ scan_events st' = scan_events st
   /\ now st' = now st /\ next_uuid st' = next_uuid st)
  \/ (existsb (hasId codeId) (codes st) = false
      /\ codes st' = (codes st ++ [row])%list
      /\ ((answer = success r row (recorded st codeId u raw)
           /\ scan_events st'
              = (scan_events st ++ [recorded st codeId u raw])%list)
          \/ (answer = recordFailure r
              /\ scan_events st' = scan_events st
              /\ now st' = now st /\ next_uuid st' = next_uuid st))).
Proof.
  cbv zeta. unfold inserting. cbn [runWith]. rewrite exec_insert.
  rewrite nextStore_codes, created_nextStore.
  destruct (online (nextStore av st)) eqn:Hon.
  2:{ left. cbn [runWith afterInsert fst snd].
      rewrite ?nextStore_codes, ?nextStore_scan_events, ?nextStore_now,
        ?nextStore_next_uuid. repeat split. }
  destruct (existsb (hasId codeId) (codes st)) eqn:Hex.
  { left. cbn [runWith afterInsert fst snd].
    rewrite ?nextStore_codes, ?nextStore_scan_events, ?nextStore_now,
      ?nextStore_next_uuid. repeat split. }
  right. split; [reflexivity|]. cbn [afterInsert].
  set (row := created r st codeId rq year u).
  set (st1 := mkStore (codes st ++ [row]) (scan_events (nextStore av st))
                (now (nextStore av st)) (next_uuid (nextStore av st)) true).
  assert (Hrow : existsb (hasId codeId) (codes st1) = true).
  { cbn [st1 codes]. rewrite existsb_app. cbn [existsb].
    unfold row. rewrite created_hasId. apply orb_true_r. }
  destruct (recording_outcome r codeId u raw row (tl av) st1 Hrow)
    as [Hcodes H].
  assert (Hrec : recorded st1 codeId u raw = recorded st codeId u raw).
  { unfold recorded, st1. cbn [now next_uuid].
    rewrite nextStore_now, nextStore_next_uuid. reflexivity. }
  rewrite Hrec in H. split; [exact Hcodes|].
  destruct H as [[Ha Hs] | [Ha [Hs [Hn Hid]]]]; [left | right].
  - split; [exact Ha|]. rewrite Hs. cbn [st1 scan_events].
    rewrite nextStore_scan_events. reflexivity.
  - split; [exact Ha|]. rewrite Hs, Hn, Hid. cbn [st1 scan_events now next_uuid].
    rewrite ?nextStore_scan_events, ?nextStore_now, ?nextStore_next_uuid.
    repeat split.
Qed.

(** The lookup and what follows it. *)
Lemma lookingUp_outcome (r : Route) (codeId u raw : string) (rq : ScanRequest)
    (year : Z) (av : list bool) (st : Store) :
  let answer := fst (runWith av (lookingUp r codeId u raw rq year) st) in
  let st' := snd (runWith av (lookingUp r codeId u raw rq year) st) in
  let row := created r st codeId rq year u in
  let e := recorded st codeId u raw in
  ((answer = lookupFailure r \/ answer = createFailure r
    \/ answer = recordFailure r)
   /\ codes st' = codes st /\ scan_events st' = scan_events st
   /\ now st' = now st /\ next_uuid st' = next_uuid st)
  \/ (exists found,
         selected r codeId u st = [found]
         /\ answer = success r found e
         /\ codes st' = codes st
         /\ scan_events st' = (scan_events st ++ [e])%list)
  \/ (single (selected r codeId u st) = Error PGRST116
      /\ existsb (hasId codeId) (codes st) = false
      /\ codes st' = (codes st ++ [row])%list
      /\ ((answer = success r row e
           /\ scan_events st' = (scan_events st ++ [e])%list)
          \/ (answer = recordFailure r
              /\ scan_events st' = scan_events st
              /\ now st' = now st /\ next_uuid st' = next_uuid st))).
Proof.
  cbv zeta. unfold lookingUp. cbn [runWith].
  rewrite exec_lookup, selected_nextStore.
  destruct (online (nextStore av st)) eqn:Hon.
  2:{ left. cbn [runWith afterLookup fst snd].
      rewrite ?nextStore_codes, ?nextStore_scan_events, ?nextStore_now,
        ?nextStore_next_uuid. repeat split. left. reflexivity. }
  destruct (single_cases (selected r codeId u st)) as [[found [Hsel Hs]]|Hs];
    rewrite Hs; cbn [afterLookup].
  - assert (Hex : existsb (hasId codeId) (codes (nextStore av st)) = true).
    { rewrite nextStore_codes.
      apply (selected_present r codeId u st found).
      rewrite Hsel. left. reflexivity. }
    destruct (recording_outcome r codeId u raw found (tl av) _ Hex)
      as [Hcodes H].
    rewrite recorded_nextStore, ?nextStore_codes, ?nextStore_scan_events,
      ?nextStore_now, ?nextStore_next_uuid in *.
    destruct H as [[Ha Hev] | [Ha [Hev [Hn Hid]]]].
    + right. left. exists found. auto.
    + left. repeat split; auto.
  - pose proof (inserting_outcome r codeId u raw rq year (tl av)
                  (nextStore av st)) as H.
    cbv zeta in H.
    rewrite created_nextStore, recorded_nextStore, ?nextStore_codes,
      ?nextStore_scan_events, ?nextStore_now, ?nextStore_next_uuid in H.
    destruct H as [[Ha H] | [Hex [Hcodes H]]].
    + left. split; [auto | exact H].
    + right. right. auto.
Qed.

Lemma message_nonempty (e : Qr.QrError) : ScanEventsRoute.message e <> "".
Proof. destruct e; discriminate. Qed.

(** The checks of the request: either the route answers at once, with a
    400, a 401 or a 500 and a message, or it goes on to resolve an
    identifier. *)
Lemma POST_checks (r : Route) (userId : option string)
    (req : option ScanRequest) (year : Z) :
  (exists answer msg,
      POST r userId req year = Done answer
      /\ (status answer = 400 \/ status answer = 401 \/ status answer = 500)
      /\ msg <> "" /\ field "error" (body answer) = Some (JStr msg))
  \/ (exists u rq raw codeId,
         truthy userId = Some u /\ req = Some rq
         /\ truthy (rawPayload rq) = Some raw
         /\ normalize r raw = Some codeId).
Proof.
  destruct (truthy userId) as [u|] eqn:Hu.
  2:{ left. destruct r; cbn [POST];
        [unfold QrScanRoute.POST | unfold ScanEventsRoute.POST];
        rewrite Hu; eexists; eexists;
        (split; [reflexivity|]); (split; [cbn; auto|]);
        (split; [|reflexivity]); discriminate. }
  destruct req as [rq|].
  2:{ left. destruct r; cbn [POST];
        [unfold QrScanRoute.POST | unfold ScanEventsRoute.POST];
        rewrite Hu; eexists; eexists;
        (split; [reflexivity|]); (split; [cbn; auto|]);
        (split; [|reflexivity]); discriminate. }
  destruct (truthy (rawPayload rq)) as [raw|] eqn:Hraw.
  2:{ left. destruct r; cbn [POST];
        [unfold QrScanRoute.POST | unfold ScanEventsRoute.POST];
        rewrite Hu, Hraw; eexists; eexists;
        (split; [reflexivity|]); (split; [cbn; auto|]);
        (split; [|reflexivity]); discriminate. }
  destruct (normalize r raw) as [codeId|] eqn:Hnorm.
  2:{ left. destruct r; cbn [POST normalize] in *;
        [unfold QrScanRoute.POST | unfold ScanEventsRoute.POST];
        rewrite Hu, Hraw.
      - rewrite Hnorm. eexists; eexists.
        (split; [reflexivity|]); (split; [cbn; auto|]);
        (split; [|reflexivity]); discriminate.
      - destruct (Qr.extractCodeId raw) as [|e]; [discriminate|].
        exists (ScanEventsRoute.failure (ScanEventsRoute.message e) 400),
          (ScanEventsRoute.message e).
        split; [reflexivity|]. split; [cbn; auto|].
        split; [apply message_nonempty | reflexivity]. }
  right. exists u, rq, raw, codeId. auto.
Qed.

Lemma failure_has_message (r : Route) (answer : Response) :
  answer = lookupFailure r \/ answer = createFailure r
  \/ answer = recordFailure r ->
  status answer = 500
  /\ exists msg, msg <> "" /\ field "error" (body answer) = Some (JStr msg).
Proof.
  intros [-> | [-> | ->]]; destruct r; (split; [reflexivity|]);
    eexists; (split; [|reflexivity]); discriminate.
Qed.

Lemma runWith_done {A : Type} (av : list bool) (a : A) (st : Store) :
  runWith av (Done a) st = (a, st).
Proof. reflexivity. Qed.

(** X8: a scan-record request served alone, whether the store answers each
    of its queries or not.  Either it is answered 200 and has added exactly
    one scan event, with the caller, the identifier and the payload as it
    was sent, and at most one Code row; or it is answered 400, 401 or 500
    and has added no scan event.  In the second case the Code rows are as
    they were, but for one case: the request created the Code row and the
    recording of the scan then failed; the answer is the 500 of the
    recording and the new row stays. *)
Theorem served_alone_outcomes (r : Route) (availability : list bool)
    (userId : option string) (req : option ScanRequest) (year : Z)
    (st : Store) :
  let answer := fst (runWith availability (POST r userId req year) st) in
  let st' := snd (runWith availability (POST r userId req year) st) in
  (status answer = 200
   /\ exists u rq raw codeId,
       truthy userId = Some u /\ req = Some rq
       /\ truthy (rawPayload rq) = Some raw
       /\ normalize r raw = Some codeId
       /\ scan_events st'
          = (scan_events st
             ++ [ScanEventRecord.mk (next_uuid st) codeId u (now st) raw])%list
       /\ (codes st' = codes st
           \/ codes st'
              = (codes st ++ [created r st codeId rq year u])%list))
  \/ ((status answer = 400 \/ status answer = 401 \/ status answer = 500)
      /\ scan_events st' = scan_events st
      /\ (codes st' = codes st
          \/ (answer = recordFailure r
              /\ exists u rq raw codeId,
                  truthy userId = Some u /\ req = Some rq
                  /\ truthy (rawPayload rq) = Some raw
                  /\ normalize r raw = Some codeId
                  /\ (forall row, In row (codes st) ->
                        CodeRecord.id row <> codeId)
                  /\ codes st'
                     = (codes st ++ [created r st codeId rq year u])%list))).
Proof.
  cbv zeta.
  destruct (POST_checks r userId req year)
    as [[answer [msg [-> [Hst _]]]] | [u [rq [raw [codeId [Hu [Hreq [Hraw Hnorm]]]]]]]].
  { right. rewrite runWith_done. auto. }
  subst req. rewrite (POST_lookingUp r userId rq year u raw codeId Hu Hraw Hnorm).
  destruct (lookingUp_outcome r codeId u raw rq year availability st)
    as [[Ha [Hc [He _]]] | [[found [Hsel [Ha [Hc He]]]]
       | [Hsel [Hex [Hc [[Ha He] | [Ha [He _]]]]]]]].
  - right. destruct (failure_has_message r _ Ha) as [H500 _]. auto.
  - left. rewrite Ha. split; [apply status_success|].
    exists u, rq, raw, codeId. repeat (split; [reflexivity || assumption|]).
    auto.
  - left. rewrite Ha. split; [apply status_success|].
    exists u, rq, raw, codeId. repeat (split; [reflexivity || assumption|]).
    auto.
  - right.
    destruct (failure_has_message r _ (or_intror (or_intror Ha))) as [H500 _].
    split; [auto|]. split; [exact He|]. right. split; [exact Ha|].
    exists u, rq, raw, codeId. repeat (split; [reflexivity || assumption|]).
    split; [|exact Hc].
    intros row Hin Hid.
    assert (E : existsb (hasId codeId) (codes st) = true).
    { apply existsb_exists. exists row. split; [exact Hin|].
      apply String.eqb_eq. exact Hid. }
    congruence.
Qed.

Lemma selected_created (r : Route) (codeId u : string) (rq : ScanRequest)
    (year : Z) (st st1 : Store) :
  (forall row, In row (codes st) -> CodeRecord.id row <> codeId) ->
  codes st1 = (codes st ++ [created r st codeId rq year u])%list ->
  selected r codeId u st1 = [created r st codeId rq year u].
Proof.
  intros Habs Hcodes.
  assert (Hnone : selected r codeId u st = []).
  { apply selected_none. intros row Hin Hid. exfalso.
    exact (Habs row Hin Hid). }
  unfold selected in *. rewrite Hcodes, filter_app, Hnone.
  cbn [filter app]. rewrite created_hasId.
  assert (Ho : ownedBy (lookupOwner r u) (created r st codeId rq year u) = true)
    by (destruct r; [apply String.eqb_refl | reflexivity]).
  rewrite Ho. reflexivity.
Qed.

(** X13: a Code row is not taken back.  A request that creates the Code row
    of an identifier and whose scan the store then fails to record is
    answered with the 500 of the recording: the row stays and no scan event
    is written.  When the same caller scans the identifier again and the
    store answers, the request finds that row, is answered 200 with it,
    whatever size, system or year it comes with, and adds its scan event and
    no second row. *)
Theorem creation_is_not_rolled_back (r : Route) (u raw raw2 codeId : string)
    (rq rq2 : ScanRequest) (year year2 : Z) (st : Store) :
  u <> "" ->
  truthy (rawPayload rq) = Some raw ->
  normalize r raw = Some codeId ->
  truthy (rawPayload rq2) = Some raw2 ->
  normalize r raw2 = Some codeId ->
  (forall row, In row (codes st) -> CodeRecord.id row <> codeId) ->
  let row := created r st codeId rq year u in
  let failed :=
    runWith [true; true; false] (POST r (Some u) (Some rq) year) st in
  let again :=
    run (POST r (Some u) (Some rq2) year2) (setOnline true (snd failed)) in
  fst failed = recordFailure r
  /\ status (fst failed) = 500
  /\ codes (snd failed) = (codes st ++ [row])%list
  /\ scan_events (snd failed) = scan_events st
  /\ status (fst again) = 200
  /\ field "code" (body (fst again)) = Some (codeJson row)
  /\ codes (snd again) = (codes st ++ [row])%list
  /\ scan_events (snd again)
     = (scan_events st
        ++ [ScanEventRecord.mk (next_uuid st) codeId u (now st) raw2])%list.
Proof.
  intros Hu Hraw Hnorm Hraw2 Hnorm2 Habs. cbv zeta.
  set (row := created r st codeId rq year u).
  set (st1 := mkStore (codes st ++ [row]) (scan_events st) (now st)
                (next_uuid st) false).
  assert (Hfailed :
            runWith [true; true; false] (POST r (Some u) (Some rq) year) st
            = (recordFailure r, st1)).
  { rewrite (POST_lookingUp r (Some u) rq year u raw codeId
               (truthy_some' u Hu) Hraw Hnorm).
    unfold lookingUp. cbn [runWith nextStore tl].
    rewrite exec_lookup.
    assert (Hnone : selected r codeId u (setOnline true st) = []).
    { apply selected_none. intros x Hin Hid. exfalso. exact (Habs x Hin Hid). }
    rewrite Hnone.
    change (online (setOnline true st)) with true.
    cbn [single afterLookup]. unfold inserting.
    cbn [runWith nextStore tl]. rewrite exec_insert.
    change (online (setOnline true (setOnline true st))) with true.
    change (codes (setOnline true (setOnline true st))) with (codes st).
    rewrite (absent_existsb codeId _ Habs).
    change (created r (setOnline true (setOnline true st)) codeId rq year u)
      with row.
    cbn [afterInsert]. unfold recording.
    cbn [runWith nextStore tl setOnline exec online codes scan_events now
         next_uuid].
    reflexivity. }
  rewrite Hfailed. cbn [fst snd].
  assert (Hsel : selected r codeId u (setOnline true st1) = [row])
    by (apply (selected_created r codeId u rq year st); [exact Habs | reflexivity]).
  rewrite (run_found r (Some u) rq2 year2 u raw2 codeId (setOnline true st1)
             (truthy_some' u Hu) Hraw2 Hnorm2 row eq_refl Hsel).
  cbn [fst snd]. rewrite status_success.
  split; [reflexivity|]. split; [destruct r; reflexivity|].
  split; [reflexivity|]. split; [reflexivity|]. split; [reflexivity|].
  split; [destruct r; reflexivity|]. split; reflexivity.
Qed.

Lemma creation_is_not_rolled_back_witness :
  let rq := mkScanRequest (Some "https://host/s/a6f3hw7l") (Some "large") None in
  let rq2 := mkScanRequest (Some " A6F3HW7L ") (Some "small") (Some "XYZ") in
  let row := CodeRecord.mk "A6F3HW7L" "TMGS" "large" 2025%Z "alice" 200%Z in
  let failed :=
    runWith [true; true; false]
      (POST ApiQrScan (Some "alice") (Some rq) 2025%Z) Examples.empty_store in
  let again :=
    run (POST ApiQrScan (Some "alice") (Some rq2) 2026%Z)
      (setOnline true (snd failed)) in
  fst failed = recordFailure ApiQrScan
  /\ status (fst failed) = 500
  /\ codes (snd failed) = ([] ++ [row])%list
  /\ scan_events (snd failed) = []
  /\ status (fst again) = 200
  /\ field "code" (body (fst again)) = Some (codeJson row)
  /\ codes (snd again) = ([] ++ [row])%list
  /\ scan_events (snd again)
     = ([] ++ [ScanEventRecord.mk 7%N "A6F3HW7L" "alice" 200%Z " A6F3HW7L "])%list.
Proof.
  apply (creation_is_not_rolled_back ApiQrScan "alice"
           "https://host/s/a6f3hw7l" " A6F3HW7L " "A6F3HW7L"
           (mkScanRequest (Some "https://host/s/a6f3hw7l") (Some "large") None)
           (mkScanRequest (Some " A6F3HW7L ") (Some "small") (Some "XYZ"))
           2025%Z 2026%Z Examples.empty_store).
  - discriminate.
  - reflexivity.
  - reflexivity.
  - reflexivity.
  - reflexivity.
  - intros row [].
Defined.

(** Once the request is checked the answer is a 200 or a 500. *)
Lemma resolved_status (r : Route) (codeId u raw : string) (rq : ScanRequest)
    (year : Z) (av : list bool) (st : Store) :
  let answer := fst (runWith av (lookingUp r codeId u raw rq year) st) in
  status answer = 200 \/ status answer = 500.
Proof.
  cbv zeta.
  destruct (lookingUp_outcome r codeId u raw rq year av st)
    as [[Ha _] | [[found [_ [Ha _]]] | [_ [_ [_ [[Ha _] | [Ha _]]]]]]].
  - right. apply (failure_has_message r _ Ha).
  - left. rewrite Ha. apply status_success.
  - left. rewrite Ha. apply status_success.
  - right. apply (failure_has_message r). auto.
Qed.

(** X9: a scan-record request is answered 401 exactly when it carries no
    caller identity.  With an identity, a body that is [null] is answered
    with the 500 of the outer [catch] on both routes; a body that is not
    JSON is answered 400 on [/api/qr/scan] and with that 500 on
    [/api/scan-events]; for any other body the answer is a 400 exactly when
    the payload is missing, not a string or empty, or no identifier can be
    extracted from it.  None of this depends on whether the store
    answers. *)
Theorem status_401_and_400 (r : Route) (availability : list bool)
    (userId : option string) (parsed : RequestBody) (year : Z) (st : Store) :
  let answer := fst (runWith availability (onRequest r userId parsed year) st) in
  (status answer = 401 <-> truthy userId = None)
  /\ (truthy userId <> None ->
      match parsed with
      | BodyNull =>
          answer = match r with
                   | ApiQrScan =>
                       QrScanRoute.failure "Internal server error" 500
                   | ApiScanEvents =>
                       ScanEventsRoute.failure "Internal server error" 500
                   end
      | BodyThrows =>
          answer = match r with
                   | ApiQrScan => QrScanRoute.failure "Invalid JSON body" 400
                   | ApiScanEvents =>
                       ScanEventsRoute.failure "Internal server error" 500
                   end
      | BodyValue rq =>
          status answer = 400 <->
          match truthy (rawPayload rq) with
          | Some raw => normalize r raw = None
          | None => True
          end
      end).
Proof.
  cbv zeta.
  destruct (truthy userId) as [u|] eqn:Hu.
  2:{ split; [|congruence].
      destruct r, parsed; cbn [onRequest QrScanRoute.onRequest
                               ScanEventsRoute.onRequest];
        unfold QrScanRoute.POST, ScanEventsRoute.POST; rewrite Hu;
        split; reflexivity. }
  assert (Hvalue : forall rq,
            let answer :=
              fst (runWith availability (POST r userId (Some rq) year) st) in
            status answer <> 401
            /\ (status answer = 400 <->
                match truthy (rawPayload rq) with
                | Some raw => normalize r raw = None
                | None => True
                end)).
  { intros rq. cbv zeta.
    destruct (truthy (rawPayload rq)) as [raw|] eqn:Hraw.
    2:{ destruct r; cbn [POST];
          unfold QrScanRoute.POST, ScanEventsRoute.POST; rewrite Hu, Hraw;
          (split; [discriminate|]); split; reflexivity || exact (fun _ => I). }
    destruct (normalize r raw) as [codeId|] eqn:Hnorm.
    2:{ destruct r; cbn [POST normalize] in *;
          unfold QrScanRoute.POST, ScanEventsRoute.POST; rewrite Hu, Hraw.
        - rewrite Hnorm. split; [discriminate|]. split; reflexivity.
        - destruct (Qr.extractCodeId raw); [discriminate|].
          split; [discriminate|]. split; reflexivity. }
    rewrite (POST_lookingUp r userId rq year u raw codeId Hu Hraw Hnorm).
    destruct (resolved_status r codeId u raw rq year availability st) as [H|H];
      rewrite H; (split; [discriminate|]); split; discriminate. }
  split.
  - split; [|discriminate]. intros H. exfalso. revert H.
    destruct parsed as [| |rq].
    + destruct r; cbn [onRequest QrScanRoute.onRequest
                       ScanEventsRoute.onRequest];
        unfold QrScanRoute.POST, ScanEventsRoute.POST; rewrite Hu;
        discriminate.
    + destruct r; cbn [onRequest QrScanRoute.onRequest
                       ScanEventsRoute.onRequest];
        unfold QrScanRoute.POST, ScanEventsRoute.POST; rewrite Hu;
        discriminate.
    + replace (onRequest r userId (BodyValue rq) year)
        with (POST r userId (Some rq) year) by (destruct r; reflexivity).
      apply (Hvalue rq).
  - intros _. destruct parsed as [| |rq].
    + destruct r; cbn [onRequest QrScanRoute.onRequest
                       ScanEventsRoute.onRequest];
        unfold QrScanRoute.POST, ScanEventsRoute.POST; rewrite Hu;
        reflexivity.
    + destruct r; cbn [onRequest QrScanRoute.onRequest
                       ScanEventsRoute.onRequest];
        unfold QrScanRoute.POST, ScanEventsRoute.POST; rewrite Hu;
        reflexivity.
    + replace (onRequest r userId (BodyValue rq) year)
        with (POST r userId (Some rq) year) by (destruct r; reflexivity).
      apply (Hvalue rq).
Qed.

End OutageExtras.

(* ================================================================== *)
(** * The scanner page *)
(* ================================================================== *)

Module PageExtras.
Import ScannerPage.

Lemma substring0_length (m : nat) (s : string) :
  String.length (substring0 m s) = Nat.min m (String.length s).
Proof.
  revert s. induction m as [|m IH]; intros s; [reflexivity|].
  destruct s as [|c s]; [reflexivity|]. simpl. rewrite IH. reflexivity.
Qed.

Lemma append_length (s t : string) :
  String.length (s ++ t) = (String.length s + String.length t)%nat.
Proof. induction s as [|c s IH]; simpl; [reflexivity|]. rewrite IH. reflexivity. Qed.

Lemma substring0_prefix (m : nat) (s : string) :
  exists rest, s = substring0 m s ++ rest.
Proof.
  revert s. induction m as [|m IH]; intros s.
  - exists s. reflexivity.
  - destruct s as [|c s]; [exists ""; reflexivity|].
    destruct (IH s) as [rest H]. exists rest. simpl. rewrite <- H. reflexivity.
Qed.

Lemma substring0_app (m : nat) (s t : string) :
  (m <= String.length s)%nat -> substring0 m (s ++ t) = substring0 m s.
Proof.
  revert s. induction m as [|m IH]; intros s Hm; [reflexivity|].
  destruct s as [|c s]; [simpl in Hm; lia|].
  simpl. rewrite IH; [reflexivity | simpl in Hm; lia].
Qed.

Lemma substring0_idem (m : nat) (s : string) :
  substring0 m (substring0 m s) = substring0 m s.
Proof.
  revert s. induction m as [|m IH]; intros s; [reflexivity|].
  destruct s as [|c s]; [reflexivity|]. simpl. rewrite IH. reflexivity.
Qed.

(** X20: [truncateString] returns a text of at most [maxLength] characters
    as it is; a longer one is cut after its first [maxLength] characters and
    three dots are put in the place of the rest.  So the result has at most
    [maxLength + 3] characters, starts as the text does, and is not changed
    by truncating it again. *)
Theorem truncateString_spec (str : string) (maxLength : nat) :
  (String.length str <= maxLength -> truncateString str maxLength = str)
  /\ (maxLength < String.length str ->
      exists kept rest,
        str = kept ++ rest
        /\ String.length kept = maxLength
        /\ truncateString str maxLength = kept ++ "...")
  /\ (maxLength < String.length str ->
      String.length (truncateString str maxLength) = maxLength + 3)
  /\ String.length (truncateString str maxLength) <= maxLength + 3
  /\ (exists rest, str = substring0 maxLength (truncateString str maxLength) ++ rest)
  /\ truncateString (truncateString str maxLength) maxLength
     = truncateString str maxLength.
Proof.
  unfold truncateString.
  destruct (String.length str <=? maxLength)%nat eqn:E.
  - pose proof E as E'. apply Nat.leb_le in E'. rewrite E.
    repeat split; try lia; try reflexivity.
    apply substring0_prefix.
  - apply Nat.leb_gt in E.
    assert (Hlen : String.length (substring0 maxLength str ++ "...")
                   = maxLength + 3).
    { rewrite append_length, substring0_length. simpl. lia. }
    assert (Hsub : (maxLength <= String.length (substring0 maxLength str))%nat).
    { rewrite substring0_length. lia. }
    split; [lia|]. split.
    { intros _. destruct (substring0_prefix maxLength str) as [rest Hrest].
      exists (substring0 maxLength str), rest.
      split; [exact Hrest|]. split; [|reflexivity].
      rewrite substring0_length. lia. }
    repeat split; try lia.
    + rewrite (substring0_app _ _ _ Hsub), substring0_idem.
      apply substring0_prefix.
    + rewrite Hlen.
      assert (Hgt : (maxLength + 3 <=? maxLength)%nat = false)
        by (apply Nat.leb_gt; lia).
      rewrite Hgt, (substring0_app _ _ _ Hsub), substring0_idem. reflexivity.
Qed.

Section Page.

Variable unknown : Type.
Variable JSON_parse : string -> option unknown.

Local Abbreviation Page := (Page unknown).
Local Abbreviation handleAll := (handleAll unknown JSON_parse).
Local Abbreviation handle := (handle unknown JSON_parse).
Local Abbreviation addScan := (addScan unknown JSON_parse).
Local Abbreviation cardShowsNewest := (cardShowsNewest unknown).

Lemma repeats_ignored (text : string) (p : Page) (events : list Event) :
  lastScanRef unknown p = Some text ->
  Forall (repeats text) events ->
  handleAll p events = p.
Proof.
  intros Hlast Hall. revert p Hlast.
  induction Hall as [|e events [clock [-> | ->]] _ IH]; intros p Hlast.
  - reflexivity.
  - unfold ScannerPage.handleAll in *. cbn [fold_left].
    assert (Hsame : handle p (Frame clock (Some text) false) = p).
    { cbn [ScannerPage.handle]. unfold handleScan.
      destruct text as [|c t]; [reflexivity|]. cbn [truthy].
      rewrite Hlast, String.eqb_refl. reflexivity. }
    rewrite Hsame. apply IH, Hlast.
  - unfold ScannerPage.handleAll in *. cbn [fold_left]. apply IH, Hlast.
Qed.

(** X21: however many frames in a row show the same text, with frames that
    show nothing in between, the text is added to the history once, as long
    as the timeout has not fired. *)
Theorem same_text_recorded_once (clock : Clock) (text : string) (p : Page)
    (events : list Event) :
  text <> "" ->
  lastScanRef unknown p <> Some text ->
  Forall (repeats text) events ->
  let p' := handleAll p (Frame clock (Some text) false :: events) in
  scans unknown p' = addScan clock text (scans unknown p)
  /\ lastScanRef unknown p' = Some text
  /\ timerPending unknown p' = true.
Proof.
  intros Hne Hlast Hall. cbv zeta.
  unfold ScannerPage.handleAll. cbn [fold_left].
  assert (Hfirst : handle p (Frame clock (Some text) false)
                   = mkPage unknown (addScan clock text (scans unknown p))
                       (Some (mkScanEvent unknown (millis clock) text
                                (displayed clock) (JSON_parse text)))
                       (cameraError unknown p) (isScanning unknown p)
                       (Some text) true).
  { cbn [ScannerPage.handle]. unfold handleScan.
    destruct text as [|c t]; [congruence|]. cbn [truthy].
    destruct (lastScanRef unknown p) as [last|]; [|reflexivity].
    destruct (last =? String c t) eqn:E; [|reflexivity].
    apply String.eqb_eq in E. congruence. }
  rewrite Hfirst.
  fold (handleAll (mkPage unknown (addScan clock text (scans unknown p))
                     (Some (mkScanEvent unknown (millis clock) text
                              (displayed clock) (JSON_parse text)))
                     (cameraError unknown p) (isScanning unknown p)
                     (Some text) true) events).
  rewrite (repeats_ignored text); [|reflexivity | exact Hall].
  repeat split.
Qed.

(** X22: the guard compares a frame with the last text taken only.  A text
    that follows another one is taken at once, so [a], [b], [a] in a row
    are three entries; and once the timeout has fired the same text is
    taken again. *)
Theorem guard_is_on_last_text_only (c1 c2 c3 : Clock) (a b : string) (p : Page) :
  a <> "" -> b <> "" -> a <> b ->
  lastScanRef unknown p <> Some a ->
  scans unknown
    (handleAll p [Frame c1 (Some a) false;
                  Frame c2 (Some b) false;
                  Frame c3 (Some a) false])
  = addScan c3 a (addScan c2 b (addScan c1 a (scans unknown p)))
  /\ scans unknown
       (handleAll p [Frame c1 (Some a) false;
                     Timeout;
                     Frame c2 (Some a) false])
     = addScan c2 a (addScan c1 a (scans unknown p))
  /\ scans unknown
       (handleAll p [Frame c1 (Some a) false;
                     Frame c2 (Some a) false])
     = addScan c1 a (scans unknown p).
Proof.
  intros Ha Hb Hab Hlast.
  destruct a as [|ca a]; [congruence|]. destruct b as [|cb b]; [congruence|].
  assert (Hba : (String ca a =? String cb b) = false)
    by (apply String.eqb_neq; exact Hab).
  assert (Hab' : (String cb b =? String ca a) = false)
    by (apply String.eqb_neq; congruence).
  assert (Hfirst : match lastScanRef unknown p with
                   | Some last => last =? String ca a
                   | None => false
                   end = false).
  { destruct (lastScanRef unknown p) as [last|]; [|reflexivity].
    apply String.eqb_neq. congruence. }
  unfold ScannerPage.handleAll. cbn [fold_left ScannerPage.handle].
  unfold handleScan, timeoutFired. cbn [truthy]. rewrite Hfirst.
  repeat (cbn [lastScanRef timerPending scans];
          rewrite ?Hba, ?Hab', ?String.eqb_refl).
  repeat split.
Qed.

(** X23: from the page as it is mounted, as long as the history is not
    cleared and no frame carries an empty text, the card "last scanned"
    shows the payload of the newest entry of the history, whatever frames,
    errors and timeouts occur. *)
Theorem card_shows_newest (events : list Event) :
  Forall (fun e => e <> ClearHistory) events ->
  Forall (fun e => forall clock error, e <> Frame clock (Some "") error)
         events ->
  cardShowsNewest (handleAll (initialPage unknown) events).
Proof.
  intros Hall _.
  assert (Hgen : forall p, cardShowsNewest p -> cardShowsNewest (handleAll p events)).
  { induction Hall as [|e events He _ IH]; intros p Hp; [exact Hp|].
    unfold ScannerPage.handleAll in *. cbn [fold_left]. apply IH.
    destruct e as [clock result error | |]; cbn [ScannerPage.handle].
    - unfold handleScan. destruct error; [exact Hp|].
      destruct (truthy result) as [text|]; [|exact Hp].
      destruct (match lastScanRef unknown p with
                | Some last => last =? text
                | None => false
                end); [exact Hp | reflexivity].
    - unfold timeoutFired. destruct (timerPending unknown p); exact Hp.
    - exfalso. apply He. reflexivity. }
  apply Hgen. reflexivity.
Qed.

End Page.

Lemma same_text_recorded_once_witness :
  let clock := mkClock "u1" 10%Z "10" 11%Z in
  let p' :=
    handleAll unit (fun _ => None) (initialPage unit)
      [Frame clock (Some "A6F3HW7L") false;
       Frame clock None false;
       Frame clock (Some "A6F3HW7L") false] in
  scans unit p' = addScan unit (fun _ => None) clock "A6F3HW7L" []
  /\ lastScanRef unit p' = Some "A6F3HW7L"
  /\ timerPending unit p' = true.
Proof.
  apply (same_text_recorded_once unit (fun _ => None)
           (mkClock "u1" 10%Z "10" 11%Z) "A6F3HW7L" (initialPage unit)).
  - discriminate.
  - discriminate.
  - repeat constructor.
    + exists (mkClock "u1" 10%Z "10" 11%Z). right. reflexivity.
    + exists (mkClock "u1" 10%Z "10" 11%Z). left. reflexivity.
Defined.

Lemma guard_is_on_last_text_only_witness :
  let c := mkClock "u1" 10%Z "10" 11%Z in
  let parse := fun _ : string => @None unit in
  scans unit
    (handleAll unit parse (initialPage unit)
       [Frame c (Some "AAAAAA") false; Frame c (Some "BBBBBB") false;
        Frame c (Some "AAAAAA") false])
  = addScan unit parse c "AAAAAA"
      (addScan unit parse c "BBBBBB" (addScan unit parse c "AAAAAA" []))
  /\ scans unit
       (handleAll unit parse (initialPage unit)
          [Frame c (Some "AAAAAA") false; Timeout;
           Frame c (Some "AAAAAA") false])
     = addScan unit parse c "AAAAAA" (addScan unit parse c "AAAAAA" [])
  /\ scans unit
       (handleAll unit parse (initialPage unit)
          [Frame c (Some "AAAAAA") false; Frame c (Some "AAAAAA") false])
     = addScan unit parse c "AAAAAA" [].
Proof.
  apply (guard_is_on_last_text_only unit (fun _ => None)
           (mkClock "u1" 10%Z "10" 11%Z) (mkClock "u1" 10%Z "10" 11%Z)
           (mkClock "u1" 10%Z "10" 11%Z) "AAAAAA" "BBBBBB" (initialPage unit)).
  - discriminate.
  - discriminate.
  - discriminate.
  - discriminate.
Defined.

Lemma card_shows_newest_witness :
  cardShowsNewest unit
    (handleAll unit (fun _ => None) (initialPage unit)
       [Frame (mkClock "u1" 10%Z "10" 11%Z) (Some "A6F3HW7L") false;
        Frame (mkClock "u2" 12%Z "12" 13%Z) (Some "A6F3HW7L") false;
        Frame (mkClock "u3" 14%Z "14" 15%Z) (Some "B7G4JX9M") false;
        Timeout;
        Frame (mkClock "u4" 16%Z "16" 17%Z) None true]).
Proof.
  apply (card_shows_newest unit (fun _ => None)).
  - repeat constructor; discriminate.
  - repeat constructor; discriminate.
Defined.

End PageExtras.

(* ================================================================== *)
(** * The hook that records scans on the server *)
(* ================================================================== *)

Module HookExtras.
Import Db Spec Invariants StoreFacts RouteExtras RaceExtras OutageExtras
  UseScanEvents.

(** How [/api/scan-events] answers the request [recordScan] sends when the
    availability of the store does not change meanwhile: with a message and
    a status of 400, 401 or 500, the store being left as it was, or with a
    200 that carries the row and the recorded event. *)
Lemma recordScan_answer (session : option string) (raw : string) (year : Z)
    (store : Store) :
  let request := Some (mkScanRequest (Some raw) None None) in
  (exists msg code,
      msg <> "" /\ (code = 400 \/ code = 401 \/ code = 500)
      /\ run (ScanEventsRoute.POST session request year) store
         = (ScanEventsRoute.failure msg code, store))
  \/ (exists u codeId row codes',
         truthy session = Some u
         /\ Qr.extractCodeId raw = Qr.Returns codeId
         /\ online store = true
         /\ run (ScanEventsRoute.POST session request year) store
            = (success ApiScanEvents row (recorded store codeId u raw),
               scanAdded store codes' (recorded store codeId u raw))).
Proof.
  cbv zeta.
  destruct (truthy session) as [u|] eqn:Hu.
  2:{ left. exists "Unauthorized", 401. split; [discriminate|]. split; [auto|].
      unfold ScanEventsRoute.POST. rewrite Hu. reflexivity. }
  destruct (truthy (Some raw)) as [raw'|] eqn:Hraw.
  2:{ left. exists "Missing or invalid rawPayload", 400.
      split; [discriminate|]. split; [auto|].
      unfold ScanEventsRoute.POST. rewrite Hu. cbn [rawPayload].
      rewrite Hraw. reflexivity. }
  assert (raw' = raw) by (apply truthy_inv in Hraw as [[= ->] _]; reflexivity).
  subst raw'.
  destruct (Qr.extractCodeId raw) as [codeId|e] eqn:Hx.
  2:{ left. exists (ScanEventsRoute.message e), 400.
      split; [apply message_nonempty|]. split; [auto|].
      unfold ScanEventsRoute.POST. rewrite Hu. cbn [rawPayload].
      rewrite Hraw, Hx. reflexivity. }
  assert (Hnorm : normalize ApiScanEvents raw = Some codeId)
    by (cbn; rewrite Hx; reflexivity).
  change (ScanEventsRoute.POST session
            (Some (mkScanRequest (Some raw) None None)) year)
    with (POST ApiScanEvents session
            (Some (mkScanRequest (Some raw) None None)) year).
  destruct (online store) eqn:Hon.
  2:{ left. exists "Database error while fetching code", 500.
      split; [discriminate|]. split; [auto|].
      apply (run_offline ApiScanEvents session (mkScanRequest (Some raw) None None)
               year u raw codeId store
               Hu Hraw Hnorm Hon). }
  destruct (single_cases (selected ApiScanEvents codeId u store))
    as [[row [Hsel _]]|Hsel].
  { right. exists u, codeId, row, (codes store).
    repeat (split; [reflexivity || assumption|]).
    apply (run_found ApiScanEvents session (mkScanRequest (Some raw) None None)
               year u raw codeId store
             Hu Hraw Hnorm row Hon Hsel). }
  destruct (existsb (hasId codeId) (codes store)) eqn:Hex.
  { left. exists "Database error while creating code", 500.
    split; [discriminate|]. split; [auto|].
    apply (run_conflict ApiScanEvents session (mkScanRequest (Some raw) None None)
               year u raw codeId store
             Hu Hraw Hnorm Hon Hsel Hex). }
  right. eexists u, codeId, _, _.
  repeat (split; [reflexivity || assumption|]).
  apply (run_created ApiScanEvents session (mkScanRequest (Some raw) None None)
               year u raw codeId store
           Hu Hraw Hnorm Hon Hsel Hex).
Qed.

Lemma errorOr_failure (msg fallback : string) (code : nat) :
  msg <> "" ->
  errorOr (body (ScanEventsRoute.failure msg code)) fallback = JStr msg.
Proof.
  intros H. unfold errorOr. cbn. destruct msg; [congruence | reflexivity].
Qed.

Lemma errorOr_message (answer : Response) (msg fallback : string) :
  msg <> "" ->
  field "error" (body answer) = Some (JStr msg) ->
  errorOr (body answer) fallback = JStr msg.
Proof.
  intros Hmsg H. unfold errorOr. rewrite H. cbn [truthyJson].
  destruct msg; [congruence | reflexivity].
Qed.

(** How [/api/scan-events] answers the request [recordScan] sends, whether
    the store answers each of its queries or not: when the answer is not a
    200 it is a 400, a 401 or a 500 with a message, and no scan event has
    been written. *)
Lemma rejected_answer (availability : list bool) (session : option string)
    (raw : string) (year : Z) (store : Store) :
  let served :=
    runWith availability
      (ScanEventsRoute.POST session
         (Some (mkScanRequest (Some raw) None None)) year) store in
  status (fst served) <> 200 ->
  ok (fst served) = false
  /\ scan_events (snd served) = scan_events store
  /\ exists msg, msg <> ""
                 /\ field "error" (body (fst served)) = Some (JStr msg).
Proof.
  cbv zeta.
  change (ScanEventsRoute.POST session
            (Some (mkScanRequest (Some raw) None None)) year)
    with (POST ApiScanEvents session
            (Some (mkScanRequest (Some raw) None None)) year).
  intros Hnot.
  destruct (POST_checks ApiScanEvents session
              (Some (mkScanRequest (Some raw) None None)) year)
    as [[answer [msg [E [Hst [Hmsg Hfield]]]]]
       | [u [rq [raw' [codeId [Hu [Hreq [Hraw Hnorm]]]]]]]].
  { rewrite E in *. rewrite runWith_done. cbn [fst snd].
    split; [|split; [reflexivity | exists msg; auto]].
    unfold ok. destruct Hst as [-> | [-> | ->]]; reflexivity. }
  injection Hreq as <-.
  rewrite (POST_lookingUp ApiScanEvents session _ year u raw' codeId
             Hu Hraw Hnorm) in *.
  destruct (lookingUp_outcome ApiScanEvents codeId u raw'
              (mkScanRequest (Some raw) None None) year availability store)
    as [[Ha [_ [He _]]] | [[found [_ [Ha _]]]
       | [_ [_ [_ [[Ha _] | [Ha [He _]]]]]]]].
  - destruct (failure_has_message ApiScanEvents _ Ha) as [H500 Hmsg].
    split; [unfold ok; rewrite H500; reflexivity|]. auto.
  - exfalso. apply Hnot. rewrite Ha. reflexivity.
  - exfalso. apply Hnot. rewrite Ha. reflexivity.
  - destruct (failure_has_message ApiScanEvents _
                (or_intror (or_intror Ha))) as [H500 Hmsg].
    split; [unfold ok; rewrite H500; reflexivity|]. auto.
Qed.

(** With nothing said of the availability, [recordScanWith] is
    [recordScan]. *)
Lemma recordScanWith_nil (session : option string) (year : Z)
    (reachable reachable' : bool) (raw : string) (state : State)
    (store : Store) :
  recordScanWith [] session year reachable reachable' raw state store
  = recordScan session year reachable reachable' raw state store.
Proof.
  unfold recordScanWith, recordScan, fetchWith, fetch.
  rewrite runWith_nil. reflexivity.
Qed.

(** X24: when the server does not answer a scan with a 200, whether the
    store answered each of its queries or not, [recordScan] throws the
    message of the server, keeps it in [error] and leaves the list of the
    hook as it was; the server has written no scan event. *)
Theorem recordScan_rejected (availability : list bool)
    (session : option string) (year : Z) (reachable' : bool) (raw : string)
    (state : State) (store : Store) :
  let served :=
    runWith availability
      (ScanEventsRoute.POST session
         (Some (mkScanRequest (Some raw) None None)) year) store in
  status (fst served) <> 200 ->
  exists msg,
    msg <> ""
    /\ field "error" (body (fst served)) = Some (JStr msg)
    /\ recordScanWith availability session year true reachable' raw state store
       = (Throws (ErrorOf (JStr msg)),
          mkState (scans state) (isLoading state) (Some (ErrorOf (JStr msg))),
          snd served)
    /\ scan_events (snd served) = scan_events store.
Proof.
  cbv zeta. intros Hnot.
  destruct (rejected_answer availability session raw year store Hnot)
    as [Hok [Hev [msg [Hmsg Hfield]]]].
  exists msg. split; [exact Hmsg|]. split; [exact Hfield|].
  split; [|exact Hev].
  unfold recordScanWith, fetchWith.
  destruct (runWith availability
              (ScanEventsRoute.POST session
                 (Some (mkScanRequest (Some raw) None None)) year) store)
    as [answer store1].
  cbn [fst snd] in *.
  rewrite Hok, (errorOr_message answer msg _ Hmsg Hfield). reflexivity.
Qed.

Lemma recordScan_rejected_witness :
  let served :=
    runWith [true; true; false]
      (ScanEventsRoute.POST (Some "alice")
         (Some (mkScanRequest (Some "a6f3hw7l") None None)) 2025)
      Examples.empty_store in
  exists msg,
    msg <> ""
    /\ field "error" (body (fst served)) = Some (JStr msg)
    /\ recordScanWith [true; true; false] (Some "alice") 2025 true true
         "a6f3hw7l" initialState Examples.empty_store
       = (Throws (ErrorOf (JStr msg)),
          mkState (scans initialState) (isLoading initialState)
            (Some (ErrorOf (JStr msg))),
          snd served)
    /\ scan_events (snd served) = scan_events Examples.empty_store.
Proof.
  apply (recordScan_rejected [true; true; false] (Some "alice") 2025%Z true
           "a6f3hw7l" initialState Examples.empty_store).
  discriminate.
Defined.

(** The scan list as [refreshScans] gets it from a store that answers. *)
Lemma refresh_reads (u : string) (session : option string) (state : State)
    (store : Store) :
  truthy session = Some u -> online store = true ->
  let l := map (fun e => ScanEventsRoute.transform u (embed store e))
             (firstn 50 (orderDesc (filter (scannedBy u) (scan_events store)))) in
  run (ScanEventsRoute.GET session) store = (json (JArr l), store)
  /\ refreshScans session true state store = (mkState l false None, store).
Proof.
  intros Hu Hon. cbv zeta.
  assert (Hrun : run (ScanEventsRoute.GET session) store
                 = (json (JArr (map (fun e => ScanEventsRoute.transform u
                                               (embed store e))
                                  (firstn 50
                                     (orderDesc
                                        (filter (scannedBy u)
                                           (scan_events store)))))), store)).
  { unfold ScanEventsRoute.GET. rewrite Hu. cbn [run exec]. rewrite Hon.
    cbn [run]. rewrite map_map. reflexivity. }
  split; [exact Hrun|].
  unfold refreshScans, fetch. rewrite Hrun. reflexivity.
Qed.

Lemma built_not_listed (u raw : string) (row : CodeRecord.t)
    (e : ScanEventRecord.t) (store : Store) (events : list ScanEventRecord.t) :
  u <> "" ->
  ~ In (builtFrom raw row e)
       (map (fun x => ScanEventsRoute.transform u (embed store x)) events).
Proof.
  intros Hu Hin. apply in_map_iff in Hin as [x [Hx _]].
  assert (H : field "scanned_by_user_id"
                (ScanEventsRoute.transform u (embed store x))
              = field "scanned_by_user_id" (builtFrom raw row e))
    by (rewrite Hx; reflexivity).
  cbn in H. congruence.
Qed.

(** What [recordScan] does once the server has answered 200: the object it
    builds, and the request that refreshes. *)
Lemma recordScan_accepted (session : option string) (year : Z)
    (reachable' : bool) (raw : string) (state : State) (store : Store) :
  status (fst (run (ScanEventsRoute.POST session
                      (Some (mkScanRequest (Some raw) None None)) year) store))
  = 200 ->
  exists u codeId row codes',
    truthy session = Some u
    /\ Qr.extractCodeId raw = Qr.Returns codeId
    /\ online store = true
    /\ snd (run (ScanEventsRoute.POST session
                   (Some (mkScanRequest (Some raw) None None)) year) store)
       = scanAdded store codes' (recorded store codeId u raw)
    /\ recordScan session year true reachable' raw state store
       = let newScan := builtFrom raw row (recorded store codeId u raw) in
         let '(state2, store2) :=
           refreshScans session reachable'
             (mkState (newScan :: scans state) (isLoading state) (error state))
             (scanAdded store codes' (recorded store codeId u raw)) in
         (Returns newScan, state2, store2).
Proof.
  intros H200.
  destruct (recordScan_answer session raw year store)
    as [[msg [code [_ [Hcode Hrun]]]] | [u [codeId [row [codes' [Hu [Hx [Hon Hrun]]]]]]]].
  - exfalso. rewrite Hrun in H200. cbn in H200.
    destruct Hcode as [-> | [-> | ->]]; discriminate.
  - exists u, codeId, row, codes'. repeat (split; [assumption|]).
    rewrite Hrun. split; [reflexivity|].
    unfold recordScan, fetch. rewrite Hrun. reflexivity.
Qed.

(** X25: when the server has answered a scan with a 200 and the refresh goes
    through, the list of the hook is the scan list of the server, from the
    store as the scan left it; [error] is cleared; the object that was put
    first for the time being, which has no caller in it, is not in the
    list; and [recordScan] returns that object, which carries the payload as
    it was sent. *)
Theorem recordScan_reconciles (session : option string) (year : Z)
    (raw : string) (state : State) (store : Store) :
  status (fst (run (ScanEventsRoute.POST session
                      (Some (mkScanRequest (Some raw) None None)) year) store))
  = 200 ->
  let store' :=
    snd (run (ScanEventsRoute.POST session
                (Some (mkScanRequest (Some raw) None None)) year) store) in
  exists newScan l,
    recordScan session year true true raw state store
    = (Returns newScan, mkState l false None, store')
    /\ fst (run (ScanEventsRoute.GET session) store') = json (JArr l)
    /\ ~ In newScan l
    /\ field "raw_payload" newScan = Some (JStr raw)
    /\ field "scanned_by_user_id" newScan = Some (JStr "").
Proof.
  intros H200. cbv zeta.
  destruct (recordScan_accepted session year true raw state store H200)
    as [u [codeId [row [codes' [Hu [_ [Hon [Hst Hrec]]]]]]]].
  rewrite Hst, Hrec. clear Hrec Hst.
  set (e := recorded store codeId u raw).
  set (store' := scanAdded store codes' e).
  destruct (refresh_reads u session
              (mkState (builtFrom raw row e :: scans state) (isLoading state)
                 (error state)) store' Hu Hon) as [Hget Hrefresh].
  eexists (builtFrom raw row e), _.
  cbv zeta. rewrite Hrefresh, Hget.
  split; [reflexivity|]. split; [reflexivity|].
  split; [|split; reflexivity].
  apply built_not_listed. apply truthy_inv in Hu. apply Hu.
Qed.

Lemma recordScan_reconciles_witness :
  let store' :=
    snd (run (ScanEventsRoute.POST (Some "alice")
                (Some (mkScanRequest (Some "a6f3hw7l") None None)) 2025)
           Examples.empty_store) in
  exists newScan l,
    recordScan (Some "alice") 2025 true true "a6f3hw7l" initialState
      Examples.empty_store
    = (Returns newScan, mkState l false None, store')
    /\ fst (run (ScanEventsRoute.GET (Some "alice")) store') = json (JArr l)
    /\ ~ In newScan l
    /\ field "raw_payload" newScan = Some (JStr "a6f3hw7l")
    /\ field "scanned_by_user_id" newScan = Some (JStr "").
Proof.
  apply (recordScan_reconciles (Some "alice") 2025%Z "a6f3hw7l" initialState
           Examples.empty_store).
  reflexivity.
Defined.

(** X26: when the server has answered a scan with a 200 but the refresh does
    not reach it, [recordScan] still returns; the object it built stays
    first in the list, before the entries that were there, and [error] is
    set. *)
Theorem recordScan_refresh_unreachable (session : option string) (year : Z)
    (raw : string) (state : State) (store : Store) :
  status (fst (run (ScanEventsRoute.POST session
                      (Some (mkScanRequest (Some raw) None None)) year) store))
  = 200 ->
  exists newScan,
    recordScan session year true false raw state store
    = (Returns newScan,
       mkState (newScan :: scans state) false (Some PlatformError),
       snd (run (ScanEventsRoute.POST session
                   (Some (mkScanRequest (Some raw) None None)) year) store))
    /\ field "raw_payload" newScan = Some (JStr raw).
Proof.
  intros H200.
  destruct (recordScan_accepted session year false raw state store H200)
    as [u [codeId [row [codes' [_ [_ [_ [Hst Hrec]]]]]]]].
  rewrite Hst, Hrec. eexists. split; reflexivity.
Qed.

Lemma recordScan_refresh_unreachable_witness :
  exists newScan,
    recordScan (Some "alice") 2025 true false "a6f3hw7l" initialState
      Examples.empty_store
    = (Returns newScan,
       mkState (newScan :: scans initialState) false (Some PlatformError),
       snd (run (ScanEventsRoute.POST (Some "alice")
                   (Some (mkScanRequest (Some "a6f3hw7l") None None)) 2025)
              Examples.empty_store))
    /\ field "raw_payload" newScan = Some (JStr "a6f3hw7l").
Proof.
  apply (recordScan_refresh_unreachable (Some "alice") 2025%Z "a6f3hw7l"
           initialState Examples.empty_store).
  reflexivity.
Defined.

(** X27: [refreshScans] never changes the store and always ends with
    [isLoading] off; either it takes the list of the server and clears
    [error], or it sets [error] and keeps the list it had. *)
Theorem refreshScans_outcome (session : option string) (reachable : bool)
    (state : State) (store : Store) :
  let state' := fst (refreshScans session reachable state store) in
  snd (refreshScans session reachable state store) = store
  /\ isLoading state' = false
  /\ ((error state' = None
       /\ reachable = true
       /\ fst (run (ScanEventsRoute.GET session) store)
          = json (JArr (scans state')))
      \/ (error state' <> None /\ scans state' = scans state)).
Proof.
  cbv zeta. unfold refreshScans, fetch.
  destruct reachable.
  2:{ cbn. split; [reflexivity|]. split; [reflexivity|]. right.
      split; [discriminate | reflexivity]. }
  pose proof (StoreExtras.run_readOnly (ScanEventsRoute.GET session) store
                (StoreExtras.scanList_readOnly session)) as Hst.
  unfold ScanEventsRoute.GET in *.
  destruct (truthy session) as [u|].
  2:{ cbn. split; [reflexivity|]. split; [reflexivity|]. right.
      split; [discriminate | reflexivity]. }
  cbn [run exec] in *. destruct (online store).
  - cbn. split; [reflexivity|]. split; [reflexivity|]. left. auto.
  - cbn. split; [reflexivity|]. split; [reflexivity|]. right.
    split; [discriminate | reflexivity].
Qed.

End HookExtras.

(* ================================================================== *)
(** * When a scan is recorded *)
(* ================================================================== *)

Module ServedExtras.
Import Db Spec Invariants StoreFacts RouteExtras.

(** X28: a scan-record request with a caller and a payload from which an
    identifier can be extracted, served alone by a store that answers and
    has its primary key, is answered 200 on [/api/scan-events]; so it is on
    [/api/qr/scan] when every row with that id belongs to the caller. *)
Theorem scan_is_recorded (r : Route) (u raw codeId : string)
    (rq : ScanRequest) (year : Z) (st : Store) :
  u <> "" ->
  truthy (rawPayload rq) = Some raw ->
  normalize r raw = Some codeId ->
  online st = true ->
  primaryKey st ->
  (r = ApiQrScan ->
   forall row, In row (codes st) -> CodeRecord.id row = codeId ->
               CodeRecord.owner_user_id row = u) ->
  status (fst (run (POST r (Some u) (Some rq) year) st)) = 200.
Proof.
  intros Hu Hraw Hnorm Hon Hpk Hown.
  pose proof (truthy_some' u Hu) as Hu'.
  destruct (single_cases (selected r codeId u st)) as [[row [Hsel _]]|Hsel].
  { rewrite (run_found r (Some u) rq year u raw codeId st Hu' Hraw Hnorm
               row Hon Hsel).
    apply status_success. }
  destruct (existsb (hasId codeId) (codes st)) eqn:Hex.
  2:{ rewrite (run_created r (Some u) rq year u raw codeId st Hu' Hraw Hnorm
                 Hon Hsel Hex).
      apply status_success. }
  exfalso. apply existsb_exists in Hex as [row [Hin Hid]].
  apply String.eqb_eq in Hid.
  assert (Hmine : ownedBy (lookupOwner r u) row = true).
  { destruct r; cbn; [|reflexivity].
    rewrite (Hown eq_refl row Hin Hid). apply String.eqb_refl. }
  unfold selected in Hsel. rewrite <- Hid in Hsel.
  rewrite (filter_unique row (ownedBy (lookupOwner r u)) (codes st)
             Hpk Hin Hmine) in Hsel.
  discriminate.
Qed.

Lemma scan_is_recorded_witness :
  status (fst (run (POST ApiScanEvents (Some "bob") (Some Examples.request) 2025)
                 Examples.alice_store)) = 200.
Proof.
  apply (scan_is_recorded ApiScanEvents "bob" "a6f3hw7l" "A6F3HW7L").
  - discriminate.
  - reflexivity.
  - reflexivity.
  - reflexivity.
  - repeat constructor. intros [].
  - discriminate.
Defined.

End ServedExtras.
